(** * Chat server: a shallow embedding of [server/server.c]

    The server keeps three global tables ([clients], [rooms] and the
    [upload_queue]) that are mutated by one thread per session, by a single
    file-transfer worker and by the [SIGINT] handler.  This development
    embeds the functions of the server as state transformers over a record
    holding those globals, with every [send], [close], log line and console
    line appended to an event trace, and proves the properties of the
    specification over that embedding.

    Conventions of the embedding:
    - a C string is a [string]; [strlen] is [String.length], [strcmp(a,b)==0]
      is equality, an empty buffer ([buf[0] == 0]) is the empty string;
    - a [Client*] is the index of the slot in [clients] it points to (the
      code only ever takes [&clients[slot]]);
    - [int], [size_t] and semaphore values are integers in [Z];
    - a critical section (the statements between [pthread_mutex_lock] and
      [pthread_mutex_unlock] on one mutex) is one atomic transformer. *)

From Stdlib Require Import ZArith Lia Ascii.
From stdpp Require Import base tactics option list strings pretty relations.

Local Open Scope Z_scope.

(** ** Constants ([#define]s of the server) *)

Definition MAX_CLIENTS : Z := 15.
Definition MAX_ROOMS : Z := 10.
Definition MAX_USERNAME_LEN : Z := 16.
Definition MAX_ROOM_NAME_LEN : Z := 32.
Definition MAX_MESSAGE_LEN : Z := 1024.
Definition MAX_FILE_SIZE : Z := 3145728.
Definition MAX_UPLOAD_QUEUE : Z := 5.
Definition BUFFER_SIZE : Z := 4096.

Definition INT_MAX : Z := 2147483647.

(** Conversion of an integer to a 32-bit [int] (two's complement). *)
Definition to_int (z : Z) : Z := (z + 2 ^ 31) mod 2 ^ 32 - 2 ^ 31.

(** ** C strings *)

Definition strlen (s : string) : Z := Z.of_nat (String.length s).

(** [strrchr s c]: the suffix of [s] that starts at the last occurrence of
    [c], or [None] (a null pointer) when [c] does not occur. *)
Fixpoint strrchr (s : string) (c : ascii) : option string :=
  match s with
  | EmptyString => None
  | String a rest =>
      match strrchr rest c with
      | Some t => Some t
      | None => if Ascii.eqb a c then Some s else None
      end
  end.

(** [strchr s c] used as [if (p) *p = 0]: cut [s] at the first [c]. *)
Fixpoint cut_at (c : ascii) (s : string) : string :=
  match s with
  | EmptyString => EmptyString
  | String a rest => if Ascii.eqb a c then EmptyString else String a (cut_at c rest)
  end.

(** The first [n] characters of [s]. *)
Fixpoint string_take (n : nat) (s : string) : string :=
  match n, s with
  | O, _ => EmptyString
  | S _, EmptyString => EmptyString
  | S n', String a rest => String a (string_take n' rest)
  end.

(** [snprintf(buf, size, ...)] stores at most [size - 1] characters. *)
Definition snprintf (size : Z) (formatted : string) : string :=
  string_take (Z.to_nat (size - 1)) formatted.

Definition streq (a b : string) : bool := String.eqb a b.

(** ** Validation *)

Definition is_alnum (a : ascii) : bool :=
  let n := Z.of_nat (nat_of_ascii a) in
  ((97 <=? n) && (n <=? 122)) || ((65 <=? n) && (n <=? 90)) || ((48 <=? n) && (n <=? 57)).

Fixpoint all_alnum (s : string) : bool :=
  match s with
  | EmptyString => true
  | String a rest => if is_alnum a then all_alnum rest else false
  end.

Definition validate_username (username : string) : bool :=
  if (strlen username =? 0) || (strlen username >? MAX_USERNAME_LEN) then false
  else all_alnum username.

Definition validate_room_name (room_name : string) : bool :=
  if (strlen room_name =? 0) || (strlen room_name >? MAX_ROOM_NAME_LEN) then false
  else all_alnum room_name.

Definition validate_filename (filename : string) : bool :=
  let len := to_int (strlen filename) in
  if len <? 5 then false
  else match strrchr filename "."%char with
       | None => false
       | Some ext =>
           streq ext ".txt" || streq ext ".pdf" || streq ext ".jpg" || streq ext ".png"
       end.

(** The rule of the specification for file names, in its own words: at least
    five characters, a ['.'] occurs, and the suffix that starts at the last
    ['.'] is one of the four extensions. *)
Fixpoint occurs (c : ascii) (s : string) : Prop :=
  match s with
  | EmptyString => False
  | String a rest => a = c \/ occurs c rest
  end.

Definition allowed_extensions : list string := [".txt"; ".pdf"; ".jpg"; ".png"].

Definition filename_rule (f : string) : Prop :=
  (5 <= String.length f)%nat /\
  exists pre suf, f = pre +:+ String "."%char suf /\ ~ occurs "."%char suf /\
                  String "."%char suf ∈ allowed_extensions.

(** ** Data model *)

Definition LF : string := String (ascii_of_nat 10) EmptyString.

(** [struct Client].  [addr] is kept in its printed form (the code only
    prints it); [active] is an [int] that only ever holds 0 or 1. *)
Module Client.
Record t := mk {
  socket : Z;
  username : string;
  current_room : string;
  addr : string;
  active : bool
}.
Definition set_socket (v : Z) (c : t) : t :=
  mk v (username c) (current_room c) (addr c) (active c).
Definition set_username (v : string) (c : t) : t :=
  mk (socket c) v (current_room c) (addr c) (active c).
Definition set_current_room (v : string) (c : t) : t :=
  mk (socket c) (username c) v (addr c) (active c).
Definition set_active (v : bool) (c : t) : t :=
  mk (socket c) (username c) (current_room c) (addr c) v.
(** A slot as [main] leaves it before the accept loop. *)
Definition initial : t := mk (-1) EmptyString EmptyString EmptyString false.
End Client.

(** [struct Room].  [members] is the live prefix [members[0..member_count)]
    of the C array, as the list of the slots pointed to; the entries beyond
    [member_count] are never read by the code.  [member_count] is therefore
    the length of that list. *)
Module Room.
Record t := mk {
  name : string;
  members : list nat;
  active : bool
}.
Definition member_count (r : t) : Z := Z.of_nat (length (members r)).
Definition initial : t := mk EmptyString [] false.
End Room.

Record FileTransfer := mkFileTransfer {
  filename : string;
  sender : string;
  receiver : string;
  file_size : Z;
  file_data : option Z;
  timestamp : Z
}.

Definition FileTransfer_zero : FileTransfer :=
  mkFileTransfer EmptyString EmptyString EmptyString 0 None 0.

(** [struct UploadQueue]; [slots] and [items] are the values of the two
    semaphores.  The mutex is not a field: each critical section on it is
    one function below. *)
Record UploadQueue := mkUploadQueue {
  queue : list FileTransfer;
  front : Z;
  rear : Z;
  count : Z;
  slots : Z;
  items : Z
}.

Inductive Event :=
| Send (fd : Z) (msg : string)      (* send(fd, msg, strlen(msg), 0) *)
| Close (fd : Z)                    (* close(fd) *)
| Log (line : string)               (* log_message: written and flushed *)
| Stdout (line : string)            (* printf *)
| LogClose                          (* fclose(log_file) *)
| Exit (status : Z).                (* exit(status) *)

(** The globals of the server, and the trace of what it did so far, oldest
    event first. *)
Record Server := mkServer {
  clients : list Client.t;
  rooms : list Room.t;
  upload_queue : UploadQueue;
  server_socket : Z;
  server_running : bool;
  trace : list Event
}.

Definition set_clients (v : list Client.t) (s : Server) : Server :=
  mkServer v (rooms s) (upload_queue s) (server_socket s) (server_running s) (trace s).
Definition set_rooms (v : list Room.t) (s : Server) : Server :=
  mkServer (clients s) v (upload_queue s) (server_socket s) (server_running s) (trace s).
Definition set_upload_queue (v : UploadQueue) (s : Server) : Server :=
  mkServer (clients s) (rooms s) v (server_socket s) (server_running s) (trace s).
Definition set_server_running (v : bool) (s : Server) : Server :=
  mkServer (clients s) (rooms s) (upload_queue s) (server_socket s) v (trace s).
Definition emit (e : Event) (s : Server) : Server :=
  mkServer (clients s) (rooms s) (upload_queue s) (server_socket s) (server_running s)
           (trace s ++ [e]).

(** [clients[i]] and [rooms[i]]; the code never indexes out of range. *)
Definition client_at (s : Server) (i : nat) : Client.t :=
  default Client.initial (clients s !! i).
Definition room_at (s : Server) (i : nat) : Room.t :=
  default Room.initial (rooms s !! i).
Definition set_client (i : nat) (c : Client.t) (s : Server) : Server :=
  set_clients (<[i := c]> (clients s)) s.
Definition set_room (i : nat) (r : Room.t) (s : Server) : Server :=
  set_rooms (<[i := r]> (rooms s)) s.

(** The state [main] builds before it starts to accept connections. *)
Definition upload_queue_init : UploadQueue :=
  mkUploadQueue (replicate (Z.to_nat MAX_UPLOAD_QUEUE) FileTransfer_zero) 0 0 0
                MAX_UPLOAD_QUEUE 0.

Definition server_init (listen_fd : Z) : Server :=
  mkServer (replicate (Z.to_nat MAX_CLIENTS) Client.initial)
           (replicate (Z.to_nat MAX_ROOMS) Room.initial)
           upload_queue_init listen_fd true [].

(** ** Output primitives *)

Definition send_to_client (socket : Z) (message : string) : Server -> Server :=
  emit (Send socket message).

(** [log_message]: the formatted line, without the time stamp the sink
    puts in front of it. *)
Definition log_message (line : string) : Server -> Server := emit (Log line).

Definition printf (line : string) : Server -> Server := emit (Stdout line).

(** ** Registries *)

Definition named (username : string) (c : Client.t) : Prop :=
  Client.active c = true /\ Client.username c = username.

Definition find_client_by_username (username : string) (s : Server) : option nat :=
  fst <$> list_find (named username) (clients s).

Definition room_named (room_name : string) (r : Room.t) : Prop :=
  Room.active r = true /\ Room.name r = room_name.

Definition room_free (r : Room.t) : Prop := Room.active r = false.

Definition find_or_create_room (room_name : string) (s : Server) : option nat * Server :=
  match list_find (room_named room_name) (rooms s) with
  | Some (i, _) => (Some i, s)
  | None =>
      match list_find room_free (rooms s) with
      | Some (i, _) => (Some i, set_room i (Room.mk room_name [] true) s)
      | None => (None, s)
      end
  end.

(** ** Rooms *)

(** The two inner loops of [handle_leave_room]: find the first entry equal
    to [client], shift the following entries down, decrement the count. *)
Fixpoint remove_member (client : nat) (members : list nat) : list nat :=
  match members with
  | [] => []
  | m :: rest => if decide (m = client) then rest else m :: remove_member client rest
  end.

(** The critical section of [handle_leave_room] on [rooms_mutex]. *)
Definition leave_locked (client : nat) (s : Server) : Server :=
  match list_find (room_named (Client.current_room (client_at s client))) (rooms s) with
  | Some (i, r) =>
      let members' := remove_member client (Room.members r) in
      let active' := if Z.of_nat (length members') =? 0 then false else Room.active r in
      set_room i (Room.mk (Room.name r) members' active') s
  | None => s
  end.

Definition handle_leave_room (client : nat) (s : Server) : Server :=
  let c := client_at s client in
  if strlen (Client.current_room c) =? 0 then
    send_to_client (Client.socket c) ("[ERROR] You are not in any room." +:+ LF) s
  else
    let s := leave_locked client s in
    let msg := snprintf 256 ("[SUCCESS] Left room '" +:+ Client.current_room c +:+ "'" +:+ LF) in
    let s := send_to_client (Client.socket c) msg s in
    let s := log_message ("[LEAVE] user '" +:+ Client.username c +:+ "' left room '"
                          +:+ Client.current_room c +:+ "'") s in
    set_client client (Client.set_current_room EmptyString (client_at s client)) s.

(** The critical section of [handle_join_room] on [rooms_mutex], for the
    room slot [room] returned by [find_or_create_room]: [None] when the room
    is full. *)
Definition join_locked (client : nat) (room : nat) (room_name : string) (s : Server)
  : option Server :=
  let r := room_at s room in
  if Room.member_count r >=? MAX_CLIENTS then None
  else
    let s := set_room room (Room.mk (Room.name r) (Room.members r ++ [client]) (Room.active r)) s in
    Some (set_client client (Client.set_current_room room_name (client_at s client)) s).

Definition handle_join_room (client : nat) (room_name : string) (s : Server) : Server :=
  if negb (validate_room_name room_name) then
    send_to_client (Client.socket (client_at s client))
      ("[ERROR] Invalid room name. Use alphanumeric characters only." +:+ LF) s
  else
    let s := if strlen (Client.current_room (client_at s client)) >? 0
             then handle_leave_room client s else s in
    match find_or_create_room room_name s with
    | (None, s) =>
        send_to_client (Client.socket (client_at s client))
          ("[ERROR] Unable to join room." +:+ LF) s
    | (Some room, s) =>
        match join_locked client room room_name s with
        | None =>
            send_to_client (Client.socket (client_at s client))
              ("[ERROR] Room is full." +:+ LF) s
        | Some s =>
            let c := client_at s client in
            let msg := snprintf 256 ("[SUCCESS] Joined room '" +:+ room_name +:+ "'" +:+ LF) in
            let s := send_to_client (Client.socket c) msg s in
            let s := log_message ("[JOIN] user '" +:+ Client.username c +:+ "' joined room '"
                                  +:+ room_name +:+ "'") s in
            printf ("[COMMAND] " +:+ Client.username c +:+ " joined room '"
                    +:+ room_name +:+ "'" +:+ LF) s
        end
    end.

(** The line [broadcast_to_room] formats for each recipient. *)
Definition room_line (room_name sender message : string) : string :=
  snprintf BUFFER_SIZE ("[" +:+ room_name +:+ "] " +:+ sender +:+ ": " +:+ message +:+ LF).

(** The body of the inner loop of [broadcast_to_room] for member [j]. *)
Definition broadcast_member (room_name message sender : string) (s : Server) (j : nat)
  : Server :=
  let m := client_at s j in
  if Client.active m && negb (streq (Client.username m) sender) then
    send_to_client (Client.socket m) (room_line room_name sender message) s
  else s.

Definition broadcast_to_room (room_name message sender : string) (s : Server) : Server :=
  match list_find (room_named room_name) (rooms s) with
  | Some (_, r) => foldl (broadcast_member room_name message sender) s (Room.members r)
  | None => s
  end.

Definition handle_broadcast (client : nat) (message : string) (s : Server) : Server :=
  let c := client_at s client in
  if strlen (Client.current_room c) =? 0 then
    send_to_client (Client.socket c) ("[ERROR] Join a room first." +:+ LF) s
  else
    let s := broadcast_to_room (Client.current_room c) message (Client.username c) s in
    let s := send_to_client (Client.socket c) ("[SUCCESS] Message broadcasted." +:+ LF) s in
    let s := log_message ("[BROADCAST] user '" +:+ Client.username c +:+ "': " +:+ message) s in
    printf ("[COMMAND] " +:+ Client.username c +:+ " broadcasted to '"
            +:+ Client.current_room c +:+ "'" +:+ LF) s.

Definition handle_whisper (client : nat) (target message : string) (s : Server) : Server :=
  let c := client_at s client in
  match find_client_by_username target s with
  | None => send_to_client (Client.socket c) ("[ERROR] User not found or offline." +:+ LF) s
  | Some t =>
      let whisper_msg := snprintf BUFFER_SIZE
        ("[WHISPER from " +:+ Client.username c +:+ "]: " +:+ message +:+ LF) in
      let s := send_to_client (Client.socket (client_at s t)) whisper_msg s in
      let s := send_to_client (Client.socket c) ("[SUCCESS] Whisper sent." +:+ LF) s in
      let s := log_message ("[WHISPER] " +:+ Client.username c +:+ " to " +:+ target
                            +:+ ": " +:+ message) s in
      printf ("[COMMAND] " +:+ Client.username c +:+ " sent whisper to " +:+ target +:+ LF) s
  end.

(** ** Session teardown *)

(** The statements of [cleanup_client] after its guard, in program order. *)
Definition cleanup_leave (client : nat) (s : Server) : Server :=
  if strlen (Client.current_room (client_at s client)) >? 0
  then handle_leave_room client s else s.

Definition cleanup_log (client : nat) (s : Server) : Server :=
  let c := client_at s client in
  if strlen (Client.username c) >? 0 then
    let s := log_message ("[DISCONNECT] user '" +:+ Client.username c
                          +:+ "' lost connection. Cleaned up resources.") s in
    printf ("[DISCONNECT] Client " +:+ Client.username c +:+ " disconnected." +:+ LF) s
  else s.

Definition cleanup_close (client : nat) (s : Server) : Server :=
  let c := client_at s client in
  if negb (Client.socket c =? -1) then
    let s := emit (Close (Client.socket c)) s in
    set_client client (Client.set_socket (-1) (client_at s client)) s
  else s.

Definition cleanup_deactivate (client : nat) (s : Server) : Server :=
  set_client client (Client.set_active false (client_at s client)) s.

Definition cleanup_clear_username (client : nat) (s : Server) : Server :=
  set_client client (Client.set_username EmptyString (client_at s client)) s.

Definition cleanup_clear_room (client : nat) (s : Server) : Server :=
  set_client client (Client.set_current_room EmptyString (client_at s client)) s.

Definition cleanup_statements (client : nat) : list (Server -> Server) :=
  [ cleanup_leave client; cleanup_log client; cleanup_close client;
    cleanup_deactivate client; cleanup_clear_username client; cleanup_clear_room client ].

Definition run (statements : list (Server -> Server)) (s : Server) : Server :=
  foldl (fun s f => f s) s statements.

(** The state after the first [n] statements of [cleanup_client] (all of
    them from [n = 6] on). *)
Definition cleanup_point (n : nat) (client : nat) (s : Server) : Server :=
  if Client.active (client_at s client)
  then run (take n (cleanup_statements client)) s else s.

Definition cleanup_client (client : nat) (s : Server) : Server :=
  if negb (Client.active (client_at s client)) then s
  else run (cleanup_statements client) s.

(** ** Acceptor: one iteration of the accept loop of [main], for a
    connection [client_socket] returned by [accept]. *)
Definition slot_free (c : Client.t) : Prop := Client.active c = false.

Definition accept_connection (client_socket : Z) (client_addr : string) (s : Server)
  : option nat * Server :=
  match list_find slot_free (clients s) with
  | None =>
      let s := send_to_client client_socket ("[ERROR] Server full. Try again later." +:+ LF) s in
      (None, emit (Close client_socket) s)
  | Some (slot, _) =>
      (Some slot,
       set_client slot (Client.mk client_socket EmptyString EmptyString client_addr true) s)
  end.

(** ** Naming: one iteration of the registration loop of [client_handler] *)

Definition NUL : ascii := ascii_of_nat 0.

(** The bytes [recv] stored, read back as a C string after the code wrote
    the terminator and cut the line at its first line feed. *)
Definition received_line (limit : Z) (data : string) : string :=
  cut_at (ascii_of_nat 10) (cut_at NUL (string_take (Z.to_nat limit) data)).

Inductive naming_result :=
| Naming_again      (* [continue]: prompt again *)
| Naming_done       (* [break]: the name is registered *)
| Naming_closed.    (* the handler ran [cleanup_client] and returned *)

(** What follows the registration loop up to the command loop. *)
Definition login (client : nat) (username : string) (s : Server) : naming_result * Server :=
  let c := client_at s client in
  if negb (Client.active c) || negb (server_running s) then
    (Naming_closed, cleanup_client client s)
  else
    let s := log_message ("[LOGIN] user '" +:+ username +:+ "' connected from "
                          +:+ Client.addr c) s in
    let s := printf ("[CONNECT] New client connected: " +:+ username +:+ " from "
                     +:+ Client.addr c +:+ LF) s in
    let s := send_to_client (Client.socket c) ("[SUCCESS] Connected to chat server!" +:+ LF) s in
    (Naming_done,
     send_to_client (Client.socket c)
       ("Commands: /join <room>, /leave, /broadcast <msg>, /whisper <user> <msg>, /sendfile <file> <user>, /exit"
        +:+ LF) s).

(** [received] is what [recv] returned: [None] for a result [<= 0],
    otherwise the bytes read. *)
Definition naming_attempt (client : nat) (received : option string) (s : Server)
  : naming_result * Server :=
  let c := client_at s client in
  if server_running s && Client.active c then
    let s := send_to_client (Client.socket c)
               "Enter username (max 16 chars, alphanumeric): " s in
    match received with
    | None => (Naming_closed, cleanup_client client s)
    | Some data =>
        let username := received_line MAX_USERNAME_LEN data in
        if negb (validate_username username) then
          (Naming_again,
           send_to_client (Client.socket c)
             ("[ERROR] Invalid username. Use alphanumeric characters only." +:+ LF) s)
        else
          (* under clients_mutex *)
          match find_client_by_username username s with
          | Some _ =>
              let s := send_to_client (Client.socket c)
                         ("[ERROR] Username already taken. Choose another." +:+ LF) s in
              (Naming_again,
               log_message ("[REJECTED] Duplicate username attempted: " +:+ username) s)
          | None =>
              login client username
                (set_client client (Client.set_username username (client_at s client)) s)
          end
    end
  else (Naming_closed, cleanup_client client s).

(** ** Shutdown *)

Definition SIGINT : Z := 2.

(** The loop of [signal_handler] under [clients_mutex]. *)
Definition notify_client (acc : Server * Z) (c : Client.t) : Server * Z :=
  if Client.active c then
    (send_to_client (Client.socket c) ("[SERVER] Server shutting down. Goodbye!" +:+ LF) acc.1,
     acc.2 + 1)
  else acc.

(** [signal_handler] up to the store to [server_running], and from there to
    [exit]. *)
Definition signal_begin (s : Server) : Server :=
  let s := printf (LF +:+ "[SHUTDOWN] SIGINT received. Shutting down server..." +:+ LF) s in
  set_server_running false s.

Definition signal_finish (s : Server) : Server :=
  let '(s, active_count) := foldl notify_client (s, 0) (clients s) in
  let s := log_message ("[SHUTDOWN] SIGINT received. Disconnecting " +:+ pretty active_count
                        +:+ " clients, saving logs.") s in
  let s := emit (Close (server_socket s)) s in
  let s := emit LogClose s in
  emit (Exit 0) s.

Definition signal_handler (sig : Z) (s : Server) : Server :=
  if sig =? SIGINT then signal_finish (signal_begin s) else s.

(** ** Upload queue *)

Definition set_slots (v : Z) (q : UploadQueue) : UploadQueue :=
  mkUploadQueue (queue q) (front q) (rear q) (count q) v (items q).
Definition set_items (v : Z) (q : UploadQueue) : UploadQueue :=
  mkUploadQueue (queue q) (front q) (rear q) (count q) (slots q) v.

(** [sem_trywait(&upload_queue.slots) == 0]; [sem_wait] returns in the same
    way once the value is positive, and does not return before. *)
Definition acquire_slots (q : UploadQueue) : option UploadQueue :=
  if slots q >? 0 then Some (set_slots (slots q - 1) q) else None.
Definition acquire_items (q : UploadQueue) : option UploadQueue :=
  if items q >? 0 then Some (set_items (items q - 1) q) else None.
Definition post_slots (q : UploadQueue) : UploadQueue := set_slots (slots q + 1) q.
Definition post_items (q : UploadQueue) : UploadQueue := set_items (items q + 1) q.

(** The critical section of [handle_file_send] on [upload_queue.mutex]. *)
Definition enqueue_locked (t : FileTransfer) (q : UploadQueue) : UploadQueue :=
  mkUploadQueue (<[Z.to_nat (rear q) := t]> (queue q)) (front q)
                (Z.rem (rear q + 1) MAX_UPLOAD_QUEUE) (count q + 1) (slots q) (items q).

(** [cells[i]] *)
Definition cell (cells : list FileTransfer) (i : Z) : FileTransfer :=
  default FileTransfer_zero (cells !! Z.to_nat i).

(** The critical section of [file_transfer_handler]. *)
Definition dequeue_locked (q : UploadQueue) : FileTransfer * UploadQueue :=
  (cell (queue q) (front q),
   mkUploadQueue (queue q) (Z.rem (front q + 1) MAX_UPLOAD_QUEUE) (rear q)
                 (count q - 1) (slots q) (items q)).

(** The records the circular buffer holds, oldest first: [count] cells
    starting at [front], wrapping around. *)
Fixpoint cells_from (cells : list FileTransfer) (start : Z) (n : nat) : list FileTransfer :=
  match n with
  | O => []
  | S n' => cell cells start :: cells_from cells (Z.rem (start + 1) MAX_UPLOAD_QUEUE) n'
  end.

Definition contents (q : UploadQueue) : list FileTransfer :=
  cells_from (queue q) (front q) (Z.to_nat (count q)).

(** ** /sendfile *)

Record stat_buf := mk_stat { st_mode : Z; st_size : Z }.

Definition S_IFREG : Z := 32768.

Definition to_size_t (z : Z) : Z := z mod 2 ^ 64.

(** The record both branches of [handle_file_send] store at [rear]. *)
Definition make_transfer (filename sender target : string) (st : stat_buf) (now : Z)
  : FileTransfer :=
  mkFileTransfer filename sender target
    (if Z.land (st_mode st) S_IFREG =? 0 then 1024 else to_size_t (st_size st))
    None now.

(** After a permit of [slots] was taken: the critical section, the post of
    [items], the reply and the log line.  [fast] tells the branch: [true]
    after a successful [sem_trywait], [false] after [sem_wait]. *)
Definition commit_transfer (t : FileTransfer) (s : Server) : Server :=
  set_upload_queue (enqueue_locked t (upload_queue s)) s.

Definition publish_transfer (s : Server) : Server :=
  set_upload_queue (post_items (upload_queue s)) s.

Definition report_transfer (fast : bool) (client : nat) (filename target : string)
    (s : Server) : Server :=
  let c := client_at s client in
  if fast then
    let s := send_to_client (Client.socket c) ("[SUCCESS] File added to upload queue." +:+ LF) s in
    let s := log_message ("[FILE-QUEUE] Upload '" +:+ filename +:+ "' from " +:+ Client.username c
                          +:+ " added to queue. Queue size: "
                          +:+ pretty (count (upload_queue s))) s in
    printf ("[COMMAND] " +:+ Client.username c +:+ " initiated file transfer to "
            +:+ target +:+ LF) s
  else
    let s := send_to_client (Client.socket c) ("[SUCCESS] File queued for upload." +:+ LF) s in
    log_message ("[FILE-QUEUE] Upload '" +:+ filename +:+ "' from " +:+ Client.username c
                 +:+ " added to queue after wait. Queue size: "
                 +:+ pretty (count (upload_queue s))) s.

Definition enqueue_and_report (fast : bool) (client : nat) (filename target : string)
    (st : stat_buf) (now : Z) (s : Server) : Server :=
  let t := make_transfer filename (Client.username (client_at s client)) target st now in
  report_transfer fast client filename target (publish_transfer (commit_transfer t s)).

(** [handle_file_send] up to and including [sem_trywait]. *)
Inductive sendfile_start :=
| Rejected (s : Server)                    (* a reply was sent, the handler returned *)
| Got_slot (st : stat_buf) (s : Server)    (* [sem_trywait] took a permit *)
| Must_wait (st : stat_buf) (s : Server).  (* queue full: told so, about to [sem_wait] *)

(** [stat_result] is what [stat] stored on success ([None] when it failed);
    [st0] is what the local [st] held before the call, which is what the
    code reads back after a failed [stat]. *)
Definition sendfile_begin (client : nat) (filename target : string)
    (stat_result : option stat_buf) (st0 : stat_buf) (s : Server) : sendfile_start :=
  let c := client_at s client in
  if negb (validate_filename filename) then
    Rejected (send_to_client (Client.socket c)
      ("[ERROR] Invalid file type. Allowed: .txt, .pdf, .jpg, .png" +:+ LF) s)
  else
    match find_client_by_username target s with
    | None =>
        Rejected (send_to_client (Client.socket c)
          ("[ERROR] Target user not found or offline." +:+ LF) s)
    | Some _ =>
        let st := default st0 stat_result in
        let oversize := match stat_result with
                        | Some b => st_size b >? MAX_FILE_SIZE
                        | None => false
                        end in
        if oversize then
          let s := send_to_client (Client.socket c)
                     ("[ERROR] File exceeds size limit (3MB)." +:+ LF) s in
          Rejected (log_message ("[ERROR] File '" +:+ filename +:+ "' from user '"
                                 +:+ Client.username c +:+ "' exceeds size limit") s)
        else
          match acquire_slots (upload_queue s) with
          | Some q => Got_slot st (set_upload_queue q s)
          | None =>
              Must_wait st (send_to_client (Client.socket c)
                              ("[INFO] Upload queue full. Waiting..." +:+ LF) s)
          end
    end.

(** How far [handle_file_send] gets without waiting. *)
Inductive file_send_outcome :=
| FS_returned (s : Server)                  (* the handler returned *)
| FS_waiting (st : stat_buf) (s : Server).  (* it is inside [sem_wait(&slots)] *)

Definition handle_file_send (client : nat) (filename target : string)
    (stat_result : option stat_buf) (st0 : stat_buf) (now : Z) (s : Server)
  : file_send_outcome :=
  match sendfile_begin client filename target stat_result st0 s with
  | Rejected s => FS_returned s
  | Got_slot st s => FS_returned (enqueue_and_report true client filename target st now s)
  | Must_wait st s => FS_waiting st s
  end.

(** The rest of [handle_file_send] from inside [sem_wait(&slots)]: [None]
    while no permit is available (the call does not return). *)
Definition handle_file_send_resume (client : nat) (filename target : string)
    (st : stat_buf) (now : Z) (s : Server) : option Server :=
  match acquire_slots (upload_queue s) with
  | Some q => Some (enqueue_and_report false client filename target st now
                      (set_upload_queue q s))
  | None => None
  end.

(** ** Transfer worker *)

(** What [file_transfer_handler] does with a record after it slept. *)
Definition deliver (t : FileTransfer) (s : Server) : Server :=
  match find_client_by_username (receiver t) s with
  | Some r =>
      let notification := snprintf 512
        ("[FILE] Received '" +:+ filename t +:+ "' from " +:+ sender t +:+ " ("
         +:+ pretty (file_size t) +:+ " bytes)" +:+ LF) in
      let s := send_to_client (Client.socket (client_at s r)) notification s in
      log_message ("[SEND FILE] '" +:+ filename t +:+ "' sent from " +:+ sender t +:+ " to "
                   +:+ receiver t +:+ " (success)") s
  | None =>
      log_message ("[SEND FILE] '" +:+ filename t +:+ "' from " +:+ sender t +:+ " to "
                   +:+ receiver t +:+ " (failed - user offline)") s
  end.

(** ** The command loop *)

(** A command line after parsing, for the commands whose handler returns
    without waiting and keeps the session in the loop.  The arguments are the
    strings the handler is called with; the steps of a session range over all
    of them, so that what holds along the steps holds for whatever line was
    received. *)
Inductive command :=
| Cmd_join (room_name : string)
| Cmd_leave
| Cmd_broadcast (message : string)
| Cmd_whisper (target message : string)
| Cmd_whisper_usage
| Cmd_sendfile_usage
| Cmd_unknown.

Definition run_command (client : nat) (cmd : command) (s : Server) : Server :=
  match cmd with
  | Cmd_join room_name => handle_join_room client room_name s
  | Cmd_leave => handle_leave_room client s
  | Cmd_broadcast message => handle_broadcast client message s
  | Cmd_whisper target message => handle_whisper client target message s
  | Cmd_whisper_usage =>
      send_to_client (Client.socket (client_at s client))
        ("[ERROR] Usage: /whisper <username> <message>" +:+ LF) s
  | Cmd_sendfile_usage =>
      send_to_client (Client.socket (client_at s client))
        ("[ERROR] Usage: /sendfile <filename> <username>" +:+ LF) s
  | Cmd_unknown =>
      send_to_client (Client.socket (client_at s client))
        ("[ERROR] Unknown command. Type a valid command." +:+ LF) s
  end.

(** The ways out of the command loop; each ends in [cleanup_client]. *)
Inductive quit := Quit_stopped | Quit_recv | Quit_exit.

Definition loop_condition (client : nat) (s : Server) : bool :=
  server_running s && Client.active (client_at s client).

Definition quit_session (client : nat) (q : quit) (s : Server) : Server :=
  match q with
  | Quit_exit =>
      cleanup_client client
        (send_to_client (Client.socket (client_at s client)) ("[INFO] Goodbye!" +:+ LF) s)
  | _ => cleanup_client client s
  end.

(** ** The threads of the server

    The program counter of a session thread, as far as the properties
    below need it: the loops it is in, and the stations of
    [handle_file_send] between its synchronisation calls. *)
Inductive session_pc :=
| At_free
| At_naming
| At_command
| At_sendfile_wait (filename target : string) (st : stat_buf)
| At_sendfile_slot (fast : bool) (filename target : string) (st : stat_buf)
| At_sendfile_commit (fast : bool) (filename target : string)
| At_sendfile_report (fast : bool) (filename target : string).

(** The program counter of the transfer worker. *)
Inductive worker_pc :=
| At_loop                      (* evaluating [while (server_running)] *)
| At_wait                      (* inside [sem_wait(&items)] *)
| At_woken                     (* [sem_wait] returned, before the [break] test *)
| At_take                      (* before the critical section *)
| At_sleep (t : FileTransfer)  (* copied the head record; sleeping *)
| At_release                   (* delivered; before [sem_post(&slots)] *)
| At_returned                  (* left by the loop condition *)
| At_broke.                    (* left by [break] *)

(** The whole program: the globals, the threads, and two history lists
    (the records in the order their enqueue committed, and in the order the
    worker took and delivered them). *)
Record System := mkSystem {
  server : Server;
  sessions : list session_pc;
  worker : worker_pc;
  halted : bool;
  committed : list FileTransfer;
  taken : list FileTransfer;
  delivered : list FileTransfer
}.

Definition system_init (listen_fd : Z) : System :=
  mkSystem (server_init listen_fd) (replicate (Z.to_nat MAX_CLIENTS) At_free)
           At_loop false [] [] [].

Definition with_server (s : Server) (y : System) : System :=
  mkSystem s (sessions y) (worker y) (halted y) (committed y) (taken y) (delivered y).
Definition with_session (i : nat) (pc : session_pc) (y : System) : System :=
  mkSystem (server y) (<[i := pc]> (sessions y)) (worker y) (halted y)
           (committed y) (taken y) (delivered y).
Definition with_worker (pc : worker_pc) (y : System) : System :=
  mkSystem (server y) (sessions y) pc (halted y) (committed y) (taken y) (delivered y).
Definition with_queue (q : UploadQueue) (y : System) : System :=
  with_server (set_upload_queue q (server y)) y.

(** A descriptor [accept] may return: not one that is open. *)
Definition fresh_fd (fd : Z) (s : Server) : Prop :=
  0 <= fd /\ forall i c, clients s !! i = Some c -> Client.active c = true ->
                         Client.socket c <> fd.

Definition pc_after_naming (r : naming_result) : session_pc :=
  match r with
  | Naming_again => At_naming
  | Naming_done => At_command
  | Naming_closed => At_free
  end.

(** The moves of the threads, one function per atomic piece of code. *)

Definition sys_accept (fd : Z) (addr : string) (y : System) : System :=
  let '(slot, s) := accept_connection fd addr (server y) in
  match slot with
  | Some i => with_session i At_naming (with_server s y)
  | None => with_server s y
  end.

Definition sys_naming (i : nat) (received : option string) (y : System) : System :=
  let '(r, s) := naming_attempt i received (server y) in
  with_session i (pc_after_naming r) (with_server s y).

Definition sys_command (i : nat) (cmd : command) (y : System) : System :=
  with_server (run_command i cmd (server y)) y.

Definition sys_quit (i : nat) (q : quit) (y : System) : System :=
  with_session i At_free (with_server (quit_session i q (server y)) y).

Definition sys_sendfile (i : nat) (filename target : string)
    (stat_result : option stat_buf) (st0 : stat_buf) (y : System) : System :=
  match sendfile_begin i filename target stat_result st0 (server y) with
  | Rejected s => with_server s y
  | Got_slot st s =>
      with_session i (At_sendfile_slot true filename target st) (with_server s y)
  | Must_wait st s =>
      with_session i (At_sendfile_wait filename target st) (with_server s y)
  end.

Definition sys_sendfile_wake (i : nat) (filename target : string) (st : stat_buf)
    (q : UploadQueue) (y : System) : System :=
  with_session i (At_sendfile_slot false filename target st) (with_queue q y).

Definition sys_sendfile_commit (i : nat) (fast : bool) (filename target : string)
    (st : stat_buf) (now : Z) (y : System) : System :=
  let t := make_transfer filename (Client.username (client_at (server y) i)) target st now in
  mkSystem (commit_transfer t (server y))
           (<[i := At_sendfile_commit fast filename target]> (sessions y))
           (worker y) (halted y) (committed y ++ [t]) (taken y) (delivered y).

Definition sys_sendfile_publish (i : nat) (fast : bool) (filename target : string)
    (y : System) : System :=
  with_session i (At_sendfile_report fast filename target)
    (with_server (publish_transfer (server y)) y).

Definition sys_sendfile_report (i : nat) (fast : bool) (filename target : string)
    (y : System) : System :=
  with_session i At_command
    (with_server (report_transfer fast i filename target (server y)) y).

Definition sys_worker_loop (y : System) : System :=
  with_worker (if server_running (server y) then At_wait else At_returned) y.

Definition sys_worker_wake (q : UploadQueue) (y : System) : System :=
  with_worker At_woken (with_queue q y).

Definition sys_worker_check (y : System) : System :=
  with_worker (if server_running (server y) then At_take else At_broke) y.

Definition sys_worker_take (y : System) : System :=
  let '(t, q) := dequeue_locked (upload_queue (server y)) in
  mkSystem (set_upload_queue q (server y)) (sessions y) (At_sleep t) (halted y)
           (committed y) (taken y ++ [t]) (delivered y).

Definition sys_worker_deliver (t : FileTransfer) (y : System) : System :=
  mkSystem (deliver t (server y)) (sessions y) At_release (halted y)
           (committed y) (taken y) (delivered y ++ [t]).

Definition sys_worker_release (y : System) : System :=
  with_worker At_loop (with_queue (post_slots (upload_queue (server y))) y).

Definition sys_signal_begin (y : System) : System :=
  with_server (signal_begin (server y)) y.

Definition sys_signal_finish (y : System) : System :=
  mkSystem (signal_finish (server y)) (sessions y) (worker y) true
           (committed y) (taken y) (delivered y).

(** One step of the program: some thread that is not blocked runs one of
    its pieces.  [accept] returns a descriptor that is not open; a [sem_wait]
    returns only with a permit. *)
Inductive step : System -> System -> Prop :=
| step_accept y fd addr :
    halted y = false -> fresh_fd fd (server y) ->
    step y (sys_accept fd addr y)
| step_naming y i received :
    halted y = false -> sessions y !! i = Some At_naming ->
    step y (sys_naming i received y)
| step_command y i cmd :
    halted y = false -> sessions y !! i = Some At_command ->
    loop_condition i (server y) = true ->
    step y (sys_command i cmd y)
| step_quit y i q :
    halted y = false -> sessions y !! i = Some At_command ->
    (q = Quit_stopped <-> loop_condition i (server y) = false) ->
    step y (sys_quit i q y)
| step_sendfile y i filename target stat_result st0 :
    halted y = false -> sessions y !! i = Some At_command ->
    loop_condition i (server y) = true ->
    step y (sys_sendfile i filename target stat_result st0 y)
| step_sendfile_wake y i filename target st q :
    halted y = false -> sessions y !! i = Some (At_sendfile_wait filename target st) ->
    acquire_slots (upload_queue (server y)) = Some q ->
    step y (sys_sendfile_wake i filename target st q y)
| step_sendfile_commit y i fast filename target st now :
    halted y = false -> sessions y !! i = Some (At_sendfile_slot fast filename target st) ->
    step y (sys_sendfile_commit i fast filename target st now y)
| step_sendfile_publish y i fast filename target :
    halted y = false -> sessions y !! i = Some (At_sendfile_commit fast filename target) ->
    step y (sys_sendfile_publish i fast filename target y)
| step_sendfile_report y i fast filename target :
    halted y = false -> sessions y !! i = Some (At_sendfile_report fast filename target) ->
    step y (sys_sendfile_report i fast filename target y)
| step_worker_loop y :
    halted y = false -> worker y = At_loop ->
    step y (sys_worker_loop y)
| step_worker_wake y q :
    halted y = false -> worker y = At_wait ->
    acquire_items (upload_queue (server y)) = Some q ->
    step y (sys_worker_wake q y)
| step_worker_check y :
    halted y = false -> worker y = At_woken ->
    step y (sys_worker_check y)
| step_worker_take y :
    halted y = false -> worker y = At_take ->
    step y (sys_worker_take y)
| step_worker_deliver y t :
    halted y = false -> worker y = At_sleep t ->
    step y (sys_worker_deliver t y)
| step_worker_release y :
    halted y = false -> worker y = At_release ->
    step y (sys_worker_release y)
| step_signal_begin y :
    halted y = false -> server_running (server y) = true ->
    step y (sys_signal_begin y)
| step_signal_finish y :
    halted y = false -> server_running (server y) = false ->
    step y (sys_signal_finish y).

Definition reachable (y : System) : Prop :=
  exists listen_fd, rtc step (system_init listen_fd) y.

(** ** Example states

    Built with the functions above, for the concrete evaluations below:
    the listening socket is descriptor 3, [alice] connects on 4 and [bob]
    on 5. *)

Definition example_alice : Server :=
  (naming_attempt 0 (Some ("alice" +:+ LF))
     (accept_connection 4 "10.0.0.1" (server_init 3)).2).2.

Definition example_two_users : Server :=
  (naming_attempt 1 (Some ("bob" +:+ LF))
     (accept_connection 5 "10.0.0.2" example_alice).2).2.

Definition example_room : Server :=
  handle_join_room 1 "room1" (handle_join_room 0 "room1" example_two_users).

(** The number of sessions the loop of [signal_handler] counts. *)
Definition active_clients (s : Server) : list Client.t :=
  filter (fun c => Client.active c = true) (clients s).

Definition goodbye (c : Client.t) : Event :=
  Send (Client.socket c) ("[SERVER] Server shutting down. Goodbye!" +:+ LF).

(** ** The circular buffer as a list

    The representation invariant of the buffer: five cells, [front] inside
    the array, [count] cells in use, and [rear] where [front + count] wraps
    to. *)
Definition ring_ok (q : UploadQueue) : Prop :=
  length (queue q) = Z.to_nat MAX_UPLOAD_QUEUE /\
  0 <= front q < MAX_UPLOAD_QUEUE /\
  0 <= count q <= MAX_UPLOAD_QUEUE /\
  rear q = (front q + count q) mod MAX_UPLOAD_QUEUE.

(** The abstract queue the specification speaks of: a list, appended to at
    the back and read at the front. *)
Definition fifo_enqueue (t : FileTransfer) (l : list FileTransfer) : list FileTransfer :=
  l ++ [t].

Definition fifo_dequeue (l : list FileTransfer) : option (FileTransfer * list FileTransfer) :=
  match l with
  | [] => None
  | t :: rest => Some (t, rest)
  end.

(** What holds of the queue whenever no thread is inside one of its
    critical sections: the buffer is well formed, the cells in use and the
    free permits fit the capacity, and every item permit has its record. *)
Definition queue_ok (q : UploadQueue) : Prop :=
  ring_ok q /\ 0 <= slots q /\ 0 <= items q /\
  slots q + count q <= MAX_UPLOAD_QUEUE /\ items q <= count q.

(** What a lookup by user name reads of a slot. *)
Definition lookup_key (c : Client.t) : bool * string :=
  (Client.active c, Client.username c).

(** An event other than a [close]. *)
Definition no_close (e : Event) : Prop :=
  match e with Close _ => False | _ => True end.

(** ** Invariants of the registries *)

(** Any two distinct active sessions have different user names, unless one
    of the names is empty. *)
Definition unique_usernames (s : Server) : Prop :=
  forall i j ci cj,
    clients s !! i = Some ci -> clients s !! j = Some cj -> i <> j ->
    Client.active ci = true -> Client.active cj = true ->
    Client.username ci <> Client.username cj \/
    Client.username ci = EmptyString \/ Client.username cj = EmptyString.

(** Open descriptors are distinct (the kernel hands out each once). *)
Definition distinct_sockets (s : Server) : Prop :=
  forall i j ci cj,
    clients s !! i = Some ci -> clients s !! j = Some cj -> i <> j ->
    Client.active ci = true -> Client.active cj = true ->
    Client.socket ci <> Client.socket cj.

(** An active room has a name, at least one member, no member twice, and
    each member is an active session whose [current_room] is its name. *)
Definition room_ok (s : Server) (r : Room.t) : Prop :=
  Room.name r <> EmptyString /\ Room.members r <> [] /\ NoDup (Room.members r) /\
  forall m, m ∈ Room.members r ->
    exists c, clients s !! m = Some c /\ Client.active c = true /\
              Client.current_room c = Room.name r.

Definition rooms_ok (s : Server) : Prop :=
  forall k r, rooms s !! k = Some r -> Room.active r = true -> room_ok s r.

Definition room_names_unique (s : Server) : Prop :=
  forall k l r r',
    rooms s !! k = Some r -> rooms s !! l = Some r' ->
    Room.active r = true -> Room.active r' = true ->
    Room.name r = Room.name r' -> k = l.

(** A session with a [current_room] is a member of the active room of that
    name. *)
Definition members_listed (s : Server) : Prop :=
  forall i c,
    clients s !! i = Some c -> Client.active c = true ->
    Client.current_room c <> EmptyString ->
    exists k r, rooms s !! k = Some r /\ Room.active r = true /\
                Room.name r = Client.current_room c /\ i ∈ Room.members r.

Definition wf_registry (s : Server) : Prop :=
  length (clients s) = Z.to_nat MAX_CLIENTS /\
  length (rooms s) = Z.to_nat MAX_ROOMS /\
  unique_usernames s /\ distinct_sockets s /\
  rooms_ok s /\ room_names_unique s /\ members_listed s.

(** ** Broadcast, as the list of lines it sends *)

Definition emit_all (evs : list Event) (s : Server) : Server :=
  foldl (fun s e => emit e s) s evs.

(** The sends of the inner loop of [broadcast_to_room] over the member
    list [members]. *)
Definition broadcast_events (room_name message sender : string) (s : Server)
    (members : list nat) : list Event :=
  flat_map (fun j =>
              let m := client_at s j in
              if Client.active m && negb (streq (Client.username m) sender)
              then [Send (Client.socket m) (room_line room_name sender message)]
              else []) members.

(** The messages a trace delivers to descriptor [fd]. *)
Definition received_on (fd : Z) (evs : list Event) : list string :=
  flat_map (fun e => match e with
                     | Send fd' msg => if fd' =? fd then [msg] else []
                     | _ => []
                     end) evs.

(** The events [s'] has beyond [s]. *)
Definition new_events (s s' : Server) : list Event :=
  drop (length (trace s)) (trace s').

(** A message as long as one [recv] of the command loop can carry after the
    eleven characters of the command word [/broadcast]: 4084 characters. *)
Definition long_message : string :=
  String.string_of_list_ascii (replicate 4084 "x"%char).

(** ** Invariants of the threads and the queue *)

(** Sum of a weight over the session threads. *)
Definition total (f : session_pc -> Z) (l : list session_pc) : Z :=
  foldr (fun pc acc => f pc + acc) 0 l.

(** A session holds a permit of [slots] from its acquire to its post of
    [items]; its record is in the buffer but not yet counted by [items]
    between the critical section and that post. *)
Definition holds_slot (pc : session_pc) : Z :=
  match pc with
  | At_sendfile_slot _ _ _ _ | At_sendfile_commit _ _ _ => 1
  | _ => 0
  end.

Definition unpublished (pc : session_pc) : Z :=
  match pc with
  | At_sendfile_commit _ _ _ => 1
  | _ => 0
  end.

(** The worker holds a permit from its acquire of [items] to its post of
    [slots] (for good if it left by [break]); the record of that permit is
    still in the buffer until the critical section. *)
Definition worker_holds (pc : worker_pc) : Z :=
  match pc with
  | At_woken | At_take | At_sleep _ | At_release | At_broke => 1
  | _ => 0
  end.

Definition worker_untaken (pc : worker_pc) : Z :=
  match pc with
  | At_woken | At_take | At_broke => 1
  | _ => 0
  end.

(** The record the worker has taken and not yet delivered. *)
Definition in_hand (pc : worker_pc) : list FileTransfer :=
  match pc with
  | At_sleep t => [t]
  | _ => []
  end.

Definition queue_inv (y : System) : Prop :=
  let q := upload_queue (server y) in
  ring_ok q /\ 0 <= slots q /\ 0 <= items q /\
  slots q + items q + total holds_slot (sessions y) + worker_holds (worker y)
    = MAX_UPLOAD_QUEUE /\
  count q = items q + total unpublished (sessions y) + worker_untaken (worker y) /\
  committed y = taken y ++ contents q /\
  taken y = delivered y ++ in_hand (worker y).

(** A slot without a thread is [At_free]; a thread runs on an active slot. *)
Definition threads_ok (y : System) : Prop :=
  length (sessions y) = Z.to_nat MAX_CLIENTS /\
  forall i pc, sessions y !! i = Some pc -> pc <> At_free ->
               Client.active (client_at (server y) i) = true.

Definition system_inv (y : System) : Prop :=
  wf_registry (server y) /\ threads_ok y /\ queue_inv y.

(** No queue operation is under way: no session is between its acquire of
    [slots] and its post of [items], and the worker is between its post of
    [slots] and its next acquire of [items]. *)
Definition session_at_rest (pc : session_pc) : Prop :=
  match pc with
  | At_sendfile_slot _ _ _ _ | At_sendfile_commit _ _ _ => False
  | _ => True
  end.

Definition worker_at_rest (pc : worker_pc) : Prop :=
  match pc with
  | At_loop | At_wait | At_returned => True
  | _ => False
  end.

Definition at_rest (y : System) : Prop :=
  Forall session_at_rest (sessions y) /\ worker_at_rest (worker y).

(** ** Example runs of the system

    [alice] and [bob] connect and register ([bob] first asks for the name
    [alice]); then [bob] sends [a.txt] to [alice] and the worker delivers
    it. *)

Definition example_system_conflict : System :=
  sys_accept 5 "10.0.0.2"
    (sys_naming 0 (Some ("alice" +:+ LF))
       (sys_accept 4 "10.0.0.1" (system_init 3))).

Definition example_system_two_users : System :=
  sys_naming 1 (Some ("bob" +:+ LF))
    (sys_naming 1 (Some ("alice" +:+ LF)) example_system_conflict).

Definition example_stat : stat_buf := mk_stat 33188 10.

Definition example_transfer : FileTransfer :=
  make_transfer "a.txt" "bob" "alice" example_stat 100.

Definition example_system_queued : System :=
  sys_sendfile_report 1 true "a.txt" "alice"
    (sys_sendfile_publish 1 true "a.txt" "alice"
       (sys_sendfile_commit 1 true "a.txt" "alice" example_stat 100
          (sys_sendfile 1 "a.txt" "alice" (Some example_stat) (mk_stat 0 0)
             example_system_two_users))).

Definition example_system_delivered : System :=
  sys_worker_release
    (sys_worker_deliver example_transfer
       (sys_worker_take
          (sys_worker_check
             (sys_worker_wake
                (set_items 0 (upload_queue (server example_system_queued)))
                (sys_worker_loop example_system_queued))))).

(** What a step may do to the name of a slot without endangering
    uniqueness: retire the slot, clear the name, or leave both as they are. *)
Definition key_kept (c c' : Client.t) : Prop :=
  Client.active c' = false \/ Client.username c' = EmptyString \/
  lookup_key c' = lookup_key c.

Definition names_kept (s s' : Server) : Prop :=
  forall j c', clients s' !! j = Some c' ->
               exists c, clients s !! j = Some c /\ key_kept c c'.

(** A session past the registration loop has a user name. *)
Definition past_naming (pc : session_pc) : Prop :=
  match pc with
  | At_free | At_naming => False
  | _ => True
  end.

Definition names_ok (y : System) : Prop :=
  forall i pc, sessions y !! i = Some pc -> past_naming pc ->
               Client.username (client_at (server y) i) <> EmptyString.

(** ** Observations on a trace *)

(** The descriptors a trace closes, in order. *)
Definition closed_fds (evs : list Event) : list Z :=
  flat_map (fun e => match e with Close fd => [fd] | _ => [] end) evs.

(** ** Validity of the names in the registries *)

(** The name of an active session is empty (the session is still in the
    registration loop) or passed [validate_username]; the name of an active
    room passed [validate_room_name]. *)
Definition usernames_valid (s : Server) : Prop :=
  forall i c, clients s !! i = Some c -> Client.active c = true ->
    Client.username c = EmptyString \/ validate_username (Client.username c) = true.

Definition room_names_valid (s : Server) : Prop :=
  forall k r, rooms s !! k = Some r -> Room.active r = true ->
    validate_room_name (Room.name r) = true.

(** The active rooms of [s'] are active rooms of [s], in the same slots and
    under the same names. *)
Definition room_names_kept (s s' : Server) : Prop :=
  forall k r', rooms s' !! k = Some r' -> Room.active r' = true ->
    exists r, rooms s !! k = Some r /\ Room.active r = true /\ Room.name r = Room.name r'.

(** ** What is checked of a file transfer *)

(** The file name a session is in the course of queueing. *)
Definition pending_file (pc : session_pc) : option string :=
  match pc with
  | At_sendfile_wait f _ _ | At_sendfile_slot _ f _ _
  | At_sendfile_commit _ f _ | At_sendfile_report _ f _ => Some f
  | _ => None
  end.

(** What the checks of [handle_file_send] and of the registration loop
    guarantee of a record in the queue. *)
Definition transfer_checked (t : FileTransfer) : Prop :=
  validate_filename (filename t) = true /\ validate_username (sender t) = true /\
  0 <= file_size t < 2 ^ 64 /\ file_data t = None.

Definition files_checked (y : System) : Prop :=
  (forall i pc f, sessions y !! i = Some pc -> pending_file pc = Some f ->
                  validate_filename f = true) /\
  Forall transfer_checked (committed y).

(** ** Parsing a command line (the command loop of [client_handler]) *)

(** [strncmp(s, lit, strlen(lit)) == 0] *)
Definition has_prefix (lit s : string) : bool := String.prefix lit s.

(** The string at [s + n], for [n] within [s]. *)
Fixpoint string_drop (n : nat) (s : string) : string :=
  match n, s with
  | O, _ => s
  | S _, EmptyString => EmptyString
  | S n', String _ rest => string_drop n' rest
  end.

(** [isspace] in the C locale: space, and tab to carriage return. *)
Definition isspace (a : ascii) : bool :=
  let n := Z.of_nat (nat_of_ascii a) in
  (n =? 32) || ((9 <=? n) && (n <=? 13)).

Fixpoint skip_space (s : string) : string :=
  match s with
  | EmptyString => EmptyString
  | String a rest => if isspace a then skip_space rest else s
  end.

(** The characters a conversion [%<width>s] stores once it is at a
    character that is not white space, and the input left after them. *)
Fixpoint scan_chars (width : nat) (s : string) : string * string :=
  match width, s with
  | S w, String a rest =>
      if isspace a then (EmptyString, s)
      else let '(word, after) := scan_chars w rest in (String a word, after)
  | _, _ => (EmptyString, s)
  end.

(** [%<width>s] of [sscanf]: white space is skipped, then up to [width]
    characters that are not white space are stored; [None] when the input
    ends before a character is stored (nothing is assigned then). *)
Definition scan_word (width : nat) (s : string) : option (string * string) :=
  match skip_space s with
  | EmptyString => None
  | s' => Some (scan_chars width s')
  end.

(** [p = strchr(s, ' '); *p = 0; p++]: the text before the first space and
    the text after it; [None] when there is no space. *)
Fixpoint split_at_space (s : string) : option (string * string) :=
  match s with
  | EmptyString => None
  | String a rest =>
      if Ascii.eqb a " "%char then Some (EmptyString, rest)
      else match split_at_space rest with
           | Some (word, after) => Some (String a word, after)
           | None => None
           end
  end.

(** What one round of the command loop does with the line in [buffer]. *)
Inductive request :=
| Req_none                                  (* empty line: [continue] *)
| Req_command (cmd : command)               (* a handler that returns at once *)
| Req_sendfile (filename target : string)   (* [handle_file_send] *)
| Req_exit                                  (* [/exit]: goodbye and [break] *)
| Req_overflow.                             (* [strcpy] writes past the end of [target] *)

(** The chain of comparisons of the command loop, on the line as a C
    string.  [room_name0] is what the local array [room_name] holds before
    [sscanf], which is what [handle_join_room] gets when [sscanf] assigns
    nothing.  [target] has room for 16 characters and the terminator;
    [strcpy] does not check it. *)
Definition parse_request (room_name0 : string) (buffer : string) : request :=
  if strlen buffer =? 0 then Req_none
  else if has_prefix "/join " buffer then
    Req_command (Cmd_join (match scan_word 32 (string_drop 6 buffer) with
                           | Some (room_name, _) => room_name
                           | None => room_name0
                           end))
  else if streq buffer "/leave" then Req_command Cmd_leave
  else if has_prefix "/broadcast " buffer then
    Req_command (Cmd_broadcast (string_drop 11 buffer))
  else if has_prefix "/whisper " buffer then
    match split_at_space (string_drop 9 buffer) with
    | Some (target, message) =>
        if strlen target >? MAX_USERNAME_LEN then Req_overflow
        else Req_command (Cmd_whisper target message)
    | None => Req_command Cmd_whisper_usage
    end
  else if has_prefix "/sendfile " buffer then
    match scan_word 255 (string_drop 10 buffer) with
    | Some (filename, rest) =>
        match scan_word 16 rest with
        | Some (target, _) => Req_sendfile filename target
        | None => Req_command Cmd_sendfile_usage
        end
    | None => Req_command Cmd_sendfile_usage
    end
  else if streq buffer "/exit" then Req_exit
  else Req_command Cmd_unknown.

(** One round of the command loop on the bytes [recv] stored. *)
Definition received_request (room_name0 : string) (data : string) : request :=
  parse_request room_name0 (received_line (BUFFER_SIZE - 1) data).

(** Predicates on the text of a line. *)
Fixpoint no_space (s : string) : bool :=
  match s with
  | EmptyString => true
  | String a rest => negb (isspace a) && no_space rest
  end.

Fixpoint all_space (s : string) : bool :=
  match s with
  | EmptyString => true
  | String a rest => isspace a && all_space rest
  end.

(** The input ends here or goes on with white space. *)
Definition word_ends (rest : string) : bool :=
  match rest with
  | EmptyString => true
  | String a _ => isspace a
  end.

(** A line as the client sends it: no line feed and no NUL inside. *)
Fixpoint one_line (s : string) : bool :=
  match s with
  | EmptyString => true
  | String a rest =>
      negb (Ascii.eqb a (ascii_of_nat 10)) && negb (Ascii.eqb a NUL) && one_line rest
  end.

(** ** The rule of the name validators, in its own words *)

(** The characters a user name or a room name may consist of. *)
Definition alphabet : list ascii :=
  String.list_ascii_of_string "abcdefghijklmnopqrstuvwxyzABCDEFGHIJKLMNOPQRSTUVWXYZ0123456789".

(** Between one and [limit] characters, all of them from [alphabet]. *)
Definition name_rule (limit : Z) (s : string) : Prop :=
  0 < strlen s <= limit /\ Forall (fun a => a ∈ alphabet) (String.list_ascii_of_string s).

(** * Properties *)

(** Let [lia] see through division and remainder by constants. *)
Ltac Zify.zify_post_hook ::= Z.to_euclidean_division_equations.

(** ** File names *)

Section Filenames.

#[local] Arguments String.append !_ _ / : simpl nomatch.

Lemma to_int_small z : 0 <= z <= INT_MAX -> to_int z = z.
Proof.
  intros Hz. unfold to_int, INT_MAX in *.
  rewrite Z.mod_small; lia.
Qed.

Lemma occurs_middle c pre suf : occurs c (pre +:+ String c suf).
Proof. induction pre; simpl; tauto. Qed.

(** What [strrchr] returns, read off its recursion. *)
Lemma strrchr_cases s c :
  match strrchr s c with
  | None => ~ occurs c s
  | Some t => exists pre suf, s = pre +:+ String c suf /\ t = String c suf /\ ~ occurs c suf
  end.
Proof.
  induction s as [|a s IH]; simpl; [tauto|].
  destruct (strrchr s c) as [u|].
  - destruct IH as (pre & suf & -> & -> & Hn). by exists (String a pre), suf.
  - destruct (Ascii.eqb_spec a c) as [->|Hne].
    + by exists EmptyString, s.
    + tauto.
Qed.

(** A string splits in one way only at its last [c]. *)
Lemma last_split_unique c pre suf pre' suf' :
  pre +:+ String c suf = pre' +:+ String c suf' ->
  ~ occurs c suf -> ~ occurs c suf' -> suf = suf'.
Proof.
  revert pre'. induction pre as [|a pre IH]; intros [|b pre']; simpl; intros Heq Hn Hn'.
  - congruence.
  - injection Heq as _ ->. destruct Hn. apply occurs_middle.
  - injection Heq as _ <-. destruct Hn'. apply occurs_middle.
  - injection Heq as _ Heq. eauto.
Qed.

Lemma strrchr_Some s c t :
  strrchr s c = Some t <->
  exists pre suf, s = pre +:+ String c suf /\ t = String c suf /\ ~ occurs c suf.
Proof.
  pose proof (strrchr_cases s c) as H. split.
  - intros E. by rewrite E in H.
  - intros (pre & suf & -> & -> & Hn).
    destruct (strrchr _ c) as [u|].
    + destruct H as (pre' & suf' & Heq & -> & Hn').
      by rewrite (last_split_unique _ _ _ _ _ Heq Hn Hn').
    + destruct H. apply occurs_middle.
Qed.

Lemma streq_eq a b : streq a b = true <-> a = b.
Proof. apply String.eqb_eq. Qed.

Lemma length_app_string a b :
  String.length (a +:+ b) = (String.length a + String.length b)%nat.
Proof. induction a; simpl; congruence. Qed.

(** C10. [validate_filename] accepts exactly the names of at least five
    characters whose suffix from the last ['.'] on is [.txt], [.pdf],
    [.jpg] or [.png], compared case-sensitively; this holds for every name
    whose length [strlen] can return into an [int].  In particular the bare
    extension [.txt] and the upper-case [a.TXT] are rejected. *)
Theorem validate_filename_rule (f : string) :
  strlen f <= INT_MAX ->
  (validate_filename f = true <-> filename_rule f) /\
  validate_filename ".txt" = false /\
  validate_filename "a.TXT" = false.
Proof.
  intros Hlen. split; [|split; reflexivity].
  unfold validate_filename, filename_rule.
  rewrite to_int_small by (unfold strlen in *; lia).
  unfold strlen. destruct (Z.ltb_spec (Z.of_nat (String.length f)) 5) as [Hlt|Hge].
  - split; [discriminate|]. intros [H5 _]. lia.
  - split.
    + intros H. split; [lia|].
      destruct (strrchr f ".") as [ext|] eqn:E; [|discriminate].
      apply strrchr_Some in E as (pre & suf & -> & -> & Hn).
      exists pre, suf. split; [done|]. split; [done|].
      unfold allowed_extensions.
      repeat (apply orb_prop in H as [H|H]); apply streq_eq in H; rewrite H;
        set_solver.
    + intros (_ & pre & suf & -> & Hn & Hin).
      assert (E : strrchr (pre +:+ String "." suf) "." = Some (String "." suf)).
      { apply strrchr_Some. by exists pre, suf. }
      rewrite E. unfold allowed_extensions in Hin.
      repeat (apply elem_of_cons in Hin as [->|Hin]); try reflexivity.
      by apply elem_of_nil in Hin.
Qed.

Lemma validate_filename_rule_witness :
  strlen "notes.txt" <= INT_MAX /\
  ((validate_filename "notes.txt" = true <-> filename_rule "notes.txt") /\
   validate_filename ".txt" = false /\ validate_filename "a.TXT" = false).
Proof.
  split; [vm_compute; discriminate | apply (validate_filename_rule "notes.txt")].
  vm_compute; discriminate.
Defined.

End Filenames.

(** ** Accessors through the state setters *)

Lemma clients_emit e s : clients (emit e s) = clients s.
Proof. reflexivity. Qed.
Lemma rooms_emit e s : rooms (emit e s) = rooms s.
Proof. reflexivity. Qed.
Lemma upload_queue_emit e s : upload_queue (emit e s) = upload_queue s.
Proof. reflexivity. Qed.
Lemma server_running_emit e s : server_running (emit e s) = server_running s.
Proof. reflexivity. Qed.
Lemma server_socket_emit e s : server_socket (emit e s) = server_socket s.
Proof. reflexivity. Qed.
Lemma trace_emit e s : trace (emit e s) = trace s ++ [e].
Proof. reflexivity. Qed.
Lemma client_at_emit e s i : client_at (emit e s) i = client_at s i.
Proof. reflexivity. Qed.
Lemma room_at_emit e s i : room_at (emit e s) i = room_at s i.
Proof. reflexivity. Qed.
Lemma find_client_emit e s u :
  find_client_by_username u (emit e s) = find_client_by_username u s.
Proof. reflexivity. Qed.

Lemma client_at_set_upload_queue q s i : client_at (set_upload_queue q s) i = client_at s i.
Proof. reflexivity. Qed.

Lemma client_at_lookup s i c : clients s !! i = Some c -> client_at s i = c.
Proof. unfold client_at. by intros ->. Qed.

Lemma client_at_set_client_eq s i c :
  (i < length (clients s))%nat -> client_at (set_client i c s) i = c.
Proof.
  intros Hi. unfold client_at, set_client. simpl.
  by rewrite list_lookup_insert_eq.
Qed.

Lemma client_at_set_client_ne s i j c :
  i <> j -> client_at (set_client i c s) j = client_at s j.
Proof.
  intros Hne. unfold client_at, set_client. simpl.
  by rewrite list_lookup_insert_ne.
Qed.

Create Rewrite HintDb srv.
#[local] Hint Rewrite clients_emit rooms_emit upload_queue_emit server_running_emit
  server_socket_emit trace_emit client_at_emit room_at_emit find_client_emit : srv.

Lemma rooms_set_clients v s : rooms (set_clients v s) = rooms s.
Proof. reflexivity. Qed.
Lemma upload_queue_set_clients v s : upload_queue (set_clients v s) = upload_queue s.
Proof. reflexivity. Qed.
Lemma server_socket_set_clients v s : server_socket (set_clients v s) = server_socket s.
Proof. reflexivity. Qed.
Lemma server_running_set_clients v s : server_running (set_clients v s) = server_running s.
Proof. reflexivity. Qed.
Lemma trace_set_clients v s : trace (set_clients v s) = trace s.
Proof. reflexivity. Qed.
Lemma clients_set_rooms v s : clients (set_rooms v s) = clients s.
Proof. reflexivity. Qed.
Lemma upload_queue_set_rooms v s : upload_queue (set_rooms v s) = upload_queue s.
Proof. reflexivity. Qed.
Lemma server_socket_set_rooms v s : server_socket (set_rooms v s) = server_socket s.
Proof. reflexivity. Qed.
Lemma server_running_set_rooms v s : server_running (set_rooms v s) = server_running s.
Proof. reflexivity. Qed.
Lemma trace_set_rooms v s : trace (set_rooms v s) = trace s.
Proof. reflexivity. Qed.
Lemma clients_set_upload_queue v s : clients (set_upload_queue v s) = clients s.
Proof. reflexivity. Qed.
Lemma rooms_set_upload_queue v s : rooms (set_upload_queue v s) = rooms s.
Proof. reflexivity. Qed.
Lemma server_socket_set_upload_queue v s : server_socket (set_upload_queue v s) = server_socket s.
Proof. reflexivity. Qed.
Lemma server_running_set_upload_queue v s : server_running (set_upload_queue v s) = server_running s.
Proof. reflexivity. Qed.
Lemma trace_set_upload_queue v s : trace (set_upload_queue v s) = trace s.
Proof. reflexivity. Qed.
Lemma clients_set_server_running v s : clients (set_server_running v s) = clients s.
Proof. reflexivity. Qed.
Lemma rooms_set_server_running v s : rooms (set_server_running v s) = rooms s.
Proof. reflexivity. Qed.
Lemma upload_queue_set_server_running v s : upload_queue (set_server_running v s) = upload_queue s.
Proof. reflexivity. Qed.
Lemma server_socket_set_server_running v s : server_socket (set_server_running v s) = server_socket s.
Proof. reflexivity. Qed.
Lemma trace_set_server_running v s : trace (set_server_running v s) = trace s.
Proof. reflexivity. Qed.
Lemma rooms_set_client i c s : rooms (set_client i c s) = rooms s.
Proof. reflexivity. Qed.
Lemma upload_queue_set_client i c s : upload_queue (set_client i c s) = upload_queue s.
Proof. reflexivity. Qed.
Lemma server_socket_set_client i c s : server_socket (set_client i c s) = server_socket s.
Proof. reflexivity. Qed.
Lemma server_running_set_client i c s : server_running (set_client i c s) = server_running s.
Proof. reflexivity. Qed.
Lemma trace_set_client i c s : trace (set_client i c s) = trace s.
Proof. reflexivity. Qed.
Lemma clients_set_room i r s : clients (set_room i r s) = clients s.
Proof. reflexivity. Qed.
Lemma upload_queue_set_room i r s : upload_queue (set_room i r s) = upload_queue s.
Proof. reflexivity. Qed.
Lemma server_socket_set_room i r s : server_socket (set_room i r s) = server_socket s.
Proof. reflexivity. Qed.
Lemma server_running_set_room i r s : server_running (set_room i r s) = server_running s.
Proof. reflexivity. Qed.
Lemma trace_set_room i r s : trace (set_room i r s) = trace s.
Proof. reflexivity. Qed.
Lemma clients_set_client i c s : clients (set_client i c s) = <[i := c]> (clients s).
Proof. reflexivity. Qed.
Lemma rooms_set_room i r s : rooms (set_room i r s) = <[i := r]> (rooms s).
Proof. reflexivity. Qed.
Lemma clients_set_clients v s : clients (set_clients v s) = v.
Proof. reflexivity. Qed.
Lemma rooms_set_rooms v s : rooms (set_rooms v s) = v.
Proof. reflexivity. Qed.
Lemma upload_queue_set_upload_queue v s : upload_queue (set_upload_queue v s) = v.
Proof. reflexivity. Qed.
Lemma server_running_set_server_running v s :
  server_running (set_server_running v s) = v.
Proof. reflexivity. Qed.
Lemma client_at_set_room i r s j : client_at (set_room i r s) j = client_at s j.
Proof. reflexivity. Qed.
Lemma room_at_set_client i c s j : room_at (set_client i c s) j = room_at s j.
Proof. reflexivity. Qed.

#[local] Hint Rewrite rooms_set_clients upload_queue_set_clients server_socket_set_clients
  server_running_set_clients trace_set_clients clients_set_rooms upload_queue_set_rooms
  server_socket_set_rooms server_running_set_rooms trace_set_rooms clients_set_upload_queue
  rooms_set_upload_queue server_socket_set_upload_queue server_running_set_upload_queue
  trace_set_upload_queue clients_set_server_running rooms_set_server_running
  upload_queue_set_server_running server_socket_set_server_running trace_set_server_running
  rooms_set_client upload_queue_set_client server_socket_set_client
  server_running_set_client trace_set_client clients_set_room upload_queue_set_room
  server_socket_set_room server_running_set_room trace_set_room clients_set_client
  rooms_set_room clients_set_clients rooms_set_rooms upload_queue_set_upload_queue
  server_running_set_server_running client_at_set_room room_at_set_client
  client_at_set_upload_queue : srv.

(** Push the accessors through the output primitives. *)
Ltac srv_simpl :=
  unfold log_message, send_to_client, printf in *;
  autorewrite with srv in *;
  rewrite <- ?app_assoc.

(** ** /sendfile: validation and the hand-over to the queue *)

Section Sendfile.

Variables (client : nat) (filename target : string) (st0 : stat_buf) (s : Server).

Hypothesis name_ok : validate_filename filename = true.
Hypothesis target_online : is_Some (find_client_by_username target s).

Lemma sendfile_begin_passed stat_result :
  match stat_result with Some b => st_size b <= MAX_FILE_SIZE | None => True end ->
  sendfile_begin client filename target stat_result st0 s =
  match acquire_slots (upload_queue s) with
  | Some q => Got_slot (default st0 stat_result) (set_upload_queue q s)
  | None => Must_wait (default st0 stat_result)
              (send_to_client (Client.socket (client_at s client)) ("[INFO] Upload queue full. Waiting..." +:+ LF) s)
  end.
Proof.
  intros Hsize. unfold sendfile_begin. rewrite name_ok. simpl.
  destruct target_online as [r ->].
  destruct stat_result as [b|]; simpl; [|done].
  destruct (Z.gtb_spec (st_size b) MAX_FILE_SIZE); [lia|done].
Qed.

Lemma sendfile_begin_oversize b :
  st_size b > MAX_FILE_SIZE ->
  sendfile_begin client filename target (Some b) st0 s =
  Rejected (log_message ("[ERROR] File '" +:+ filename +:+ "' from user '"
                         +:+ Client.username (client_at s client) +:+ "' exceeds size limit")
              (send_to_client (Client.socket (client_at s client))
                 ("[ERROR] File exceeds size limit (3MB)." +:+ LF) s)).
Proof.
  intros Hsize. unfold sendfile_begin. rewrite name_ok. simpl.
  destruct target_online as [r ->]. simpl.
  destruct (Z.gtb_spec (st_size b) MAX_FILE_SIZE); [done|lia].
Qed.

Lemma acquire_slots_Some q q' :
  acquire_slots q = Some q' <-> 0 < slots q /\ q' = set_slots (slots q - 1) q.
Proof.
  unfold acquire_slots. destruct (Z.gtb_spec (slots q) 0); split.
  - intros [= <-]. split; [lia|done].
  - by intros [_ ->].
  - discriminate.
  - intros [? _]. lia.
Qed.

Lemma acquire_slots_None q : acquire_slots q = None <-> slots q <= 0.
Proof.
  unfold acquire_slots. destruct (Z.gtb_spec (slots q) 0); split; try done; lia.
Qed.

End Sendfile.

Lemma enqueue_and_report_trace fast client filename target st now s :
  trace (enqueue_and_report fast client filename target st now s) =
  trace s ++
  if fast then
    [Send (Client.socket (client_at s client)) ("[SUCCESS] File added to upload queue." +:+ LF);
     Log ("[FILE-QUEUE] Upload '" +:+ filename +:+ "' from "
          +:+ Client.username (client_at s client) +:+ " added to queue. Queue size: "
          +:+ pretty (count (upload_queue s) + 1));
     Stdout ("[COMMAND] " +:+ Client.username (client_at s client)
             +:+ " initiated file transfer to " +:+ target +:+ LF)]
  else
    [Send (Client.socket (client_at s client)) ("[SUCCESS] File queued for upload." +:+ LF);
     Log ("[FILE-QUEUE] Upload '" +:+ filename +:+ "' from "
          +:+ Client.username (client_at s client)
          +:+ " added to queue after wait. Queue size: "
          +:+ pretty (count (upload_queue s) + 1))].
Proof.
  unfold enqueue_and_report, report_transfer.
  destruct fast; autorewrite with srv; simpl; by rewrite <- !app_assoc.
Qed.

Lemma enqueue_and_report_queue fast client filename target st now s :
  upload_queue (enqueue_and_report fast client filename target st now s) =
  post_items (enqueue_locked
                (make_transfer filename (Client.username (client_at s client)) target st now)
                (upload_queue s)).
Proof. unfold enqueue_and_report, report_transfer. by destruct fast. Qed.

(** C4 (as amended): the size limit is enforced only after a successful
    [stat].  For a request with an allowed file name and an online target:
    when [stat] succeeds with a size above 3 MiB the handler returns after
    sending the size error and logging the rejection, and the queue is
    unchanged; when [stat] fails the request is not rejected: with a free
    slot the record is stored at [rear] and the handler returns, with a full
    queue the handler tells the sender and waits for a slot. *)
Theorem sendfile_size_limit client filename target st0 now s :
  validate_filename filename = true ->
  is_Some (find_client_by_username target s) ->
  (forall b, st_size b > MAX_FILE_SIZE ->
     exists s', handle_file_send client filename target (Some b) st0 now s = FS_returned s' /\
       trace s' = trace s ++
         [Send (Client.socket (client_at s client)) ("[ERROR] File exceeds size limit (3MB)." +:+ LF);
          Log ("[ERROR] File '" +:+ filename +:+ "' from user '"
               +:+ Client.username (client_at s client) +:+ "' exceeds size limit")] /\
       upload_queue s' = upload_queue s /\ clients s' = clients s /\ rooms s' = rooms s) /\
  (0 < slots (upload_queue s) ->
     exists s', handle_file_send client filename target None st0 now s = FS_returned s' /\
       queue (upload_queue s') !! Z.to_nat (rear (upload_queue s)) =
         queue (enqueue_locked (make_transfer filename (Client.username (client_at s client))
                                              target st0 now) (upload_queue s))
           !! Z.to_nat (rear (upload_queue s)) /\
       count (upload_queue s') = count (upload_queue s) + 1 /\
       items (upload_queue s') = items (upload_queue s) + 1 /\
       slots (upload_queue s') = slots (upload_queue s) - 1) /\
  (slots (upload_queue s) <= 0 ->
     handle_file_send client filename target None st0 now s =
     FS_waiting st0 (send_to_client (Client.socket (client_at s client))
                       ("[INFO] Upload queue full. Waiting..." +:+ LF) s)).
Proof.
  intros Hname Htarget. unfold handle_file_send. split; [|split].
  - intros b Hb. rewrite sendfile_begin_oversize by done.
    eexists. split; [done|]. by srv_simpl.
  - intros Hslots. rewrite sendfile_begin_passed by done.
    destruct (acquire_slots (upload_queue s)) as [q|] eqn:E.
    + apply acquire_slots_Some in E as [_ ->].
      eexists. split; [done|]. rewrite enqueue_and_report_queue. by simpl.
    + apply acquire_slots_None in E. lia.
  - intros Hslots. rewrite sendfile_begin_passed by done.
    apply acquire_slots_None in Hslots. by rewrite Hslots.
Qed.

(** ** The circular buffer refines a FIFO list *)

Section Ring.

Variable cells : list FileTransfer.

Lemma rem_wrap a : 0 <= a -> Z.rem a MAX_UPLOAD_QUEUE = a mod MAX_UPLOAD_QUEUE.
Proof. intros Ha. by apply Z.rem_mod_nonneg. Qed.

Lemma cells_from_snoc n : forall start,
  0 <= start < MAX_UPLOAD_QUEUE ->
  cells_from cells start (S n) =
  cells_from cells start n ++ [cell cells ((start + Z.of_nat n) mod MAX_UPLOAD_QUEUE)].
Proof.
  induction n as [|n IH]; intros start Hs.
  - simpl. rewrite Z.add_0_r, Z.mod_small by done. done.
  - change (cells_from cells start (S (S n)))
      with (cell cells start :: cells_from cells (Z.rem (start + 1) MAX_UPLOAD_QUEUE) (S n)).
    rewrite rem_wrap by lia.
    rewrite IH by (apply Z.mod_pos_bound; done).
    simpl. rewrite rem_wrap by lia. do 3 f_equal.
    rewrite Z.add_mod_idemp_l by done.
    do 2 f_equal. lia.
Qed.

End Ring.

Lemma cells_from_insert_outside cells p t n : forall start,
  0 <= p -> 0 <= start < MAX_UPLOAD_QUEUE ->
  (forall k, 0 <= k < Z.of_nat n -> (start + k) mod MAX_UPLOAD_QUEUE <> p) ->
  cells_from (<[Z.to_nat p := t]> cells) start n = cells_from cells start n.
Proof.
  induction n as [|n IH]; intros start Hp Hs Hout; [done|].
  simpl. rewrite rem_wrap by lia. f_equal.
  - unfold cell. rewrite list_lookup_insert_ne; [done|].
    specialize (Hout 0). rewrite Z.add_0_r, Z.mod_small in Hout by done.
    intros Heq. apply Hout; lia.
  - apply IH; [done|by apply Z.mod_pos_bound|].
    intros k Hk. rewrite Z.add_mod_idemp_l by done.
    replace (start + 1 + k) with (start + (k + 1)) by lia. apply Hout. lia.
Qed.

Lemma ring_ok_enqueue t q :
  ring_ok q -> count q < MAX_UPLOAD_QUEUE -> ring_ok (enqueue_locked t q).
Proof.
  unfold ring_ok, enqueue_locked, MAX_UPLOAD_QUEUE. simpl.
  intros (Hlen & Hf & Hc & Hr) Hlt. rewrite length_insert.
  rewrite Z.rem_mod_nonneg by lia.
  repeat split; lia.
Qed.

(** Storing at [rear] appends to the list the buffer stands for. *)
Lemma contents_enqueue t q :
  ring_ok q -> count q < MAX_UPLOAD_QUEUE ->
  contents (enqueue_locked t q) = fifo_enqueue t (contents q).
Proof.
  intros (Hlen & Hf & Hc & Hr) Hlt. unfold contents, enqueue_locked, fifo_enqueue. simpl.
  replace (Z.to_nat (count q + 1)) with (S (Z.to_nat (count q))) by lia.
  rewrite cells_from_snoc by done.
  rewrite Z2Nat.id, <- Hr by lia. f_equal.
  - apply cells_from_insert_outside; [|done|].
    { rewrite Hr. by apply Z.mod_pos_bound. }
    intros k Hk. rewrite Hr. unfold MAX_UPLOAD_QUEUE in *.
    intros Heq. apply (f_equal (fun z => z mod 5)) in Heq.
    rewrite !Z.mod_mod in Heq by done.
    assert (Hd : (front q + count q - (front q + k)) mod 5 = 0).
    { rewrite Zminus_mod, Heq, Z.sub_diag. done. }
    replace (front q + count q - (front q + k)) with (count q - k) in Hd by lia.
    rewrite Z.mod_small in Hd; lia.
  - unfold cell. rewrite list_lookup_insert_eq; [done|].
    rewrite Hlen, Hr. unfold MAX_UPLOAD_QUEUE.
    pose proof (Z.mod_pos_bound (front q + count q) 5). lia.
Qed.

Lemma ring_ok_dequeue q :
  ring_ok q -> 0 < count q -> ring_ok (dequeue_locked q).2.
Proof.
  unfold ring_ok, dequeue_locked, MAX_UPLOAD_QUEUE. simpl.
  intros (Hlen & Hf & Hc & Hr) Hlt.
  rewrite Z.rem_mod_nonneg by lia.
  repeat split; lia.
Qed.

(** Reading at [front] takes the head of the list the buffer stands for. *)
Lemma contents_dequeue q :
  ring_ok q -> 0 < count q ->
  fifo_dequeue (contents q) = Some ((dequeue_locked q).1, contents (dequeue_locked q).2).
Proof.
  intros (Hlen & Hf & Hc & Hr) Hlt. unfold contents, dequeue_locked. simpl.
  replace (Z.to_nat (count q)) with (S (Z.to_nat (count q - 1))) by lia.
  done.
Qed.

Lemma enqueue_after_acquire t q :
  queue_ok q -> 0 < slots q ->
  let q' := post_items (enqueue_locked t (set_slots (slots q - 1) q)) in
  contents q' = contents q ++ [t] /\
  slots q' = slots q - 1 /\ items q' = items q + 1 /\ count q' = count q + 1.
Proof.
  intros (Hring & Hs & Hi & Hcap & Hic) Hpos. simpl. split; [|done].
  change (contents (enqueue_locked t (set_slots (slots q - 1) q)) = contents q ++ [t]).
  rewrite contents_enqueue; [done|done|simpl; lia].
Qed.

(** C3. A [/sendfile] with an allowed name, an online target and no size
    rejection takes one of two courses.  If a permit of [slots] is free, the
    record is appended to the queue at once, the sender gets
    "[SUCCESS] File added to upload queue." and a FILE-QUEUE line with the
    queue size of that moment is logged.  If none is free, the sender first
    gets "[INFO] Upload queue full. Waiting..." and the handler waits: as
    long as no permit is free it does not go on, and once one is, it takes
    it, appends the record, sends "[SUCCESS] File queued for upload." and
    logs the FILE-QUEUE line with the queue size of that moment. *)
Theorem sendfile_backpressure client filename target stat_result st0 now s :
  validate_filename filename = true ->
  is_Some (find_client_by_username target s) ->
  match stat_result with Some b => st_size b <= MAX_FILE_SIZE | None => True end ->
  queue_ok (upload_queue s) ->
  let st := default st0 stat_result in
  (0 < slots (upload_queue s) ->
     exists s', handle_file_send client filename target stat_result st0 now s = FS_returned s' /\
       contents (upload_queue s') =
         contents (upload_queue s) ++
         [make_transfer filename (Client.username (client_at s client)) target st now] /\
       slots (upload_queue s') = slots (upload_queue s) - 1 /\
       items (upload_queue s') = items (upload_queue s) + 1 /\
       count (upload_queue s') = count (upload_queue s) + 1 /\
       trace s' = trace s ++
         [Send (Client.socket (client_at s client))
               ("[SUCCESS] File added to upload queue." +:+ LF);
          Log ("[FILE-QUEUE] Upload '" +:+ filename +:+ "' from "
               +:+ Client.username (client_at s client) +:+ " added to queue. Queue size: "
               +:+ pretty (count (upload_queue s')));
          Stdout ("[COMMAND] " +:+ Client.username (client_at s client)
                  +:+ " initiated file transfer to " +:+ target +:+ LF)]) /\
  (slots (upload_queue s) <= 0 ->
     exists s1, handle_file_send client filename target stat_result st0 now s = FS_waiting st s1 /\
       trace s1 = trace s ++
         [Send (Client.socket (client_at s client))
               ("[INFO] Upload queue full. Waiting..." +:+ LF)] /\
       upload_queue s1 = upload_queue s /\
       forall now' s2, queue_ok (upload_queue s2) ->
         (slots (upload_queue s2) <= 0 ->
            handle_file_send_resume client filename target st now' s2 = None) /\
         (0 < slots (upload_queue s2) ->
            exists s3, handle_file_send_resume client filename target st now' s2 = Some s3 /\
              contents (upload_queue s3) =
                contents (upload_queue s2) ++
                [make_transfer filename (Client.username (client_at s2 client)) target st now'] /\
              slots (upload_queue s3) = slots (upload_queue s2) - 1 /\
              items (upload_queue s3) = items (upload_queue s2) + 1 /\
              count (upload_queue s3) = count (upload_queue s2) + 1 /\
              trace s3 = trace s2 ++
                [Send (Client.socket (client_at s2 client))
                      ("[SUCCESS] File queued for upload." +:+ LF);
                 Log ("[FILE-QUEUE] Upload '" +:+ filename +:+ "' from "
                      +:+ Client.username (client_at s2 client)
                      +:+ " added to queue after wait. Queue size: "
                      +:+ pretty (count (upload_queue s3)))])).
Proof.
  intros Hname Htarget Hsize Hq st. unfold handle_file_send.
  rewrite sendfile_begin_passed by done. split.
  - intros Hslots.
    destruct (acquire_slots (upload_queue s)) as [q|] eqn:E;
      [|apply acquire_slots_None in E; lia].
    apply acquire_slots_Some in E as [_ ->].
    eexists. split; [done|].
    rewrite enqueue_and_report_queue, enqueue_and_report_trace.
    rewrite !client_at_set_upload_queue.
    destruct (enqueue_after_acquire
                (make_transfer filename (Client.username (client_at s client)) target st now)
                _ Hq Hslots) as (Hc & Hs & Hi & Hn).
    repeat (split; [done|]). done.
  - intros Hslots. apply acquire_slots_None in Hslots. rewrite Hslots.
    eexists. split; [done|]. split; [done|]. split; [done|].
    intros now' s2 Hq2. unfold handle_file_send_resume. split.
    + intros H2. apply acquire_slots_None in H2. by rewrite H2.
    + intros H2.
      destruct (acquire_slots (upload_queue s2)) as [q|] eqn:E;
        [|apply acquire_slots_None in E; lia].
      apply acquire_slots_Some in E as [_ ->].
      eexists. split; [done|].
      rewrite enqueue_and_report_queue, enqueue_and_report_trace.
      rewrite !client_at_set_upload_queue.
      destruct (enqueue_after_acquire
                  (make_transfer filename (Client.username (client_at s2 client)) target st now')
                  _ Hq2 H2) as (Hc & Hs & Hi & Hn).
      repeat (split; [done|]). done.
Qed.

Lemma queue_ok_init : queue_ok upload_queue_init.
Proof. unfold queue_ok, ring_ok. vm_compute. intuition congruence. Qed.

Lemma sendfile_backpressure_witness :
  validate_filename "a.txt" = true /\
  is_Some (find_client_by_username "alice" example_two_users) /\
  queue_ok (upload_queue example_two_users) /\
  exists s', handle_file_send 1 "a.txt" "alice" (Some (mk_stat 33188 10)) (mk_stat 0 0) 100
               example_two_users = FS_returned s' /\
             contents (upload_queue s') =
               [mkFileTransfer "a.txt" "bob" "alice" 10 None 100] /\
             count (upload_queue s') = 1.
Proof.
  assert (Hname : validate_filename "a.txt" = true) by reflexivity.
  assert (Htarget : is_Some (find_client_by_username "alice" example_two_users))
    by (exists 0%nat; reflexivity).
  assert (Hq : queue_ok (upload_queue example_two_users)) by exact queue_ok_init.
  assert (Hsize : st_size (mk_stat 33188 10) <= MAX_FILE_SIZE) by (vm_compute; discriminate).
  repeat (split; [assumption|]).
  destruct (sendfile_backpressure 1 "a.txt" "alice" (Some (mk_stat 33188 10)) (mk_stat 0 0)
              100 example_two_users Hname Htarget Hsize Hq) as [Hfast _].
  destruct Hfast as (s' & Hs' & Hc & _ & _ & Hn & _); [reflexivity|].
  exists s'. split; [exact Hs'|]. split; [exact Hc | exact Hn].
Defined.

Lemma sendfile_size_limit_witness :
  validate_filename "big.txt" = true /\
  is_Some (find_client_by_username "alice" example_two_users) /\
  exists s', handle_file_send 1 "big.txt" "alice" (Some (mk_stat 33188 4194304)) (mk_stat 0 0)
               100 example_two_users = FS_returned s' /\
             upload_queue s' = upload_queue example_two_users.
Proof.
  assert (Hname : validate_filename "big.txt" = true) by reflexivity.
  assert (Htarget : is_Some (find_client_by_username "alice" example_two_users))
    by (exists 0%nat; reflexivity).
  repeat (split; [assumption|]).
  destruct (sendfile_size_limit 1 "big.txt" "alice" (mk_stat 0 0) 100 example_two_users
              Hname Htarget) as [Hbig _].
  destruct (Hbig (mk_stat 33188 4194304)) as (s' & Hs' & _ & Hq & _); [reflexivity|].
  exists s'. split; [exact Hs' | exact Hq].
Defined.

(** C4, as stated, fails: with [bob] sending [a.txt] to the online [alice]
    and [stat] failing, the request is not rejected; the record is in the
    queue (with the fall-back size 1024) when the handler returns. *)
Lemma sendfile_stat_failure_counterexample :
  let outcome := handle_file_send 1 "a.txt" "alice" None (mk_stat 0 0) 100 example_two_users in
  (exists s', outcome = FS_returned s' /\
     contents (upload_queue s') = [mkFileTransfer "a.txt" "bob" "alice" 1024 None 100] /\
     last (trace s') = Some (Stdout ("[COMMAND] bob initiated file transfer to alice" +:+ LF))) /\
  ~ (exists s', outcome = FS_returned s' /\ upload_queue s' = upload_queue example_two_users).
Proof.
  split.
  - eexists. split; [reflexivity|]. split; reflexivity.
  - intros (s' & Hs' & Hq). vm_compute in Hs'. injection Hs' as <-.
    vm_compute in Hq. discriminate.
Qed.

(** ** Shutdown *)

Lemma notify_fold l : forall s n,
  foldl notify_client (s, n) l =
  (mkServer (clients s) (rooms s) (upload_queue s) (server_socket s) (server_running s)
            (trace s ++ map goodbye (filter (fun c => Client.active c = true) l)),
   n + Z.of_nat (length (filter (fun c => Client.active c = true) l))).
Proof.
  induction l as [|c l IH]; intros s n.
  - simpl. rewrite app_nil_r, Z.add_0_r. by destruct s.
  - simpl. unfold notify_client at 2. simpl.
    destruct (Client.active c) eqn:E.
    + rewrite IH, filter_cons_True by done. simpl.
      rewrite <- app_assoc. f_equal. lia.
    + rewrite IH, filter_cons_False by congruence. done.
Qed.

Lemma halted_stuck y y' : halted y = true -> ~ step y y'.
Proof. intros Hh Hstep. destruct Hstep; congruence. Qed.

(** C7 (as amended): on [SIGINT] the handler clears [server_running], sends
    the goodbye line to each active session in slot order, logs SHUTDOWN with
    their number, closes the listening socket, closes the log file and then
    calls [exit]; the upload queue and both its semaphores are left as they
    were, so no permit of [items] is posted, and after [exit] no thread of the
    process takes a further step. *)
Theorem signal_handler_shutdown s :
  let s' := signal_handler SIGINT s in
  server_running s' = false /\
  upload_queue s' = upload_queue s /\
  clients s' = clients s /\ rooms s' = rooms s /\
  trace s' =
    trace s ++
    [Stdout (LF +:+ "[SHUTDOWN] SIGINT received. Shutting down server..." +:+ LF)] ++
    map goodbye (active_clients s) ++
    [Log ("[SHUTDOWN] SIGINT received. Disconnecting "
          +:+ pretty (Z.of_nat (length (active_clients s))) +:+ " clients, saving logs.");
     Close (server_socket s); LogClose; Exit 0] /\
  forall y, server y = signal_begin s -> halted y = false ->
    step y (mkSystem s' (sessions y) (worker y) true (committed y) (taken y) (delivered y)) /\
    forall y', ~ step (mkSystem s' (sessions y) (worker y) true
                                (committed y) (taken y) (delivered y)) y'.
Proof.
  unfold signal_handler. simpl. unfold signal_finish.
  rewrite notify_fold. simpl.
  repeat (split; [done|]). split.
  - unfold active_clients. by rewrite <- !app_assoc.
  - intros y Hy Hh. split; [|intros y'; by apply halted_stuck].
    pose proof (step_signal_finish y Hh) as Hstep.
    unfold sys_signal_finish in Hstep.
    rewrite Hy in Hstep. unfold signal_finish in Hstep.
    rewrite notify_fold in Hstep. by apply Hstep.
Qed.

(** C7, as stated, fails: the handler posts nothing on [items].  With two
    sessions online and an empty queue the semaphore is still 0 when the
    handler is done, so a worker inside [sem_wait(&items)] is not released. *)
Lemma signal_handler_sentinel_counterexample :
  let s' := signal_handler SIGINT example_two_users in
  items (upload_queue s') = items (upload_queue example_two_users) /\
  items (upload_queue s') <> items (upload_queue example_two_users) + 1 /\
  acquire_items (upload_queue s') = None /\
  last (trace s') = Some (Exit 0).
Proof. vm_compute. repeat split; congruence. Qed.

(** ** Lookup by user name *)

Lemma find_client_keys u s s' :
  lookup_key <$> clients s' = lookup_key <$> clients s ->
  find_client_by_username u s' = find_client_by_username u s.
Proof.
  intros Hk. unfold find_client_by_username.
  pose proof (list_find_fmap lookup_key (fun k => k.1 = true /\ k.2 = u)) as Hf.
  assert (Hs : forall l, fst <$> list_find (named u) l =
                         fst <$> list_find (fun k => k.1 = true /\ k.2 = u) (lookup_key <$> l)).
  { intros l. rewrite Hf.
    assert (list_find (named u) l =
            list_find ((fun k : bool * string => k.1 = true /\ k.2 = u) ∘ lookup_key) l) as ->
      by (apply list_find_ext; intros x; done).
    by destruct (list_find _ l) as [[i c]|]. }
  by rewrite !Hs, Hk.
Qed.

Lemma find_client_Some u s i :
  find_client_by_username u s = Some i <->
  exists c, clients s !! i = Some c /\ Client.active c = true /\ Client.username c = u /\
            forall j d, clients s !! j = Some d -> (j < i)%nat ->
                        ~ (Client.active d = true /\ Client.username d = u).
Proof.
  unfold find_client_by_username. split.
  - destruct (list_find _ _) as [[k c]|] eqn:E; [|discriminate].
    intros [= <-]. apply list_find_Some in E as (Hl & [Ha Hu] & Hfirst).
    exists c. repeat split; try done; intros j d Hj Hlt; by apply Hfirst.
  - intros (c & Hl & Ha & Hu & Hfirst).
    assert (E : list_find (named u) (clients s) = Some (i, c)).
    { apply list_find_Some. repeat split; try done; intros j d Hj Hlt; by apply Hfirst. }
    by rewrite E.
Qed.

Lemma find_client_None u s :
  find_client_by_username u s = None <->
  forall j d, clients s !! j = Some d -> ~ (Client.active d = true /\ Client.username d = u).
Proof.
  unfold find_client_by_username.
  destruct (list_find _ _) as [[k c]|] eqn:E.
  - apply list_find_Some in E as (Hl & Hp & _). split; [discriminate|].
    intros H. by destruct (H k c Hl).
  - split; [|done]. intros _ j d Hj Hp.
    rewrite list_find_None in E. rewrite Forall_forall in E.
    apply (E d); [|done]. apply list_elem_of_lookup. by exists j.
Qed.

Lemma keys_set_client s i c :
  lookup_key c = lookup_key (client_at s i) ->
  lookup_key <$> clients (set_client i c s) = lookup_key <$> clients s.
Proof.
  intros Hk. unfold set_client. simpl.
  destruct (decide (i < length (clients s))%nat) as [Hi|Hi].
  - rewrite list_fmap_insert, Hk. apply list_insert_id.
    rewrite list_lookup_fmap. unfold client_at.
    destruct (lookup_lt_is_Some_2 (clients s) i Hi) as [d ->]. done.
  - rewrite list_insert_ge; [done|lia].
Qed.

(** ** What leaving a room changes *)

Lemma leave_locked_clients i s : clients (leave_locked i s) = clients s.
Proof. unfold leave_locked. by destruct (list_find _ _) as [[k r]|]. Qed.

Lemma leave_locked_trace i s : trace (leave_locked i s) = trace s.
Proof. unfold leave_locked. by destruct (list_find _ _) as [[k r]|]. Qed.

Lemma leave_locked_client_at i s j : client_at (leave_locked i s) j = client_at s j.
Proof. unfold client_at. by rewrite leave_locked_clients. Qed.

Lemma handle_leave_room_clients i s :
  clients (handle_leave_room i s) =
  if strlen (Client.current_room (client_at s i)) =? 0 then clients s
  else <[i := Client.set_current_room EmptyString (client_at s i)]> (clients s).
Proof.
  unfold handle_leave_room. destruct (_ =? 0); [done|].
  unfold set_client. srv_simpl. by rewrite leave_locked_client_at, leave_locked_clients.
Qed.

Lemma handle_leave_room_rooms i s :
  rooms (handle_leave_room i s) =
  if strlen (Client.current_room (client_at s i)) =? 0 then rooms s
  else rooms (leave_locked i s).
Proof. unfold handle_leave_room. by destruct (_ =? 0). Qed.

Lemma handle_leave_room_keys i s :
  lookup_key <$> clients (handle_leave_room i s) = lookup_key <$> clients s.
Proof.
  rewrite handle_leave_room_clients. destruct (_ =? 0); [done|].
  by apply (keys_set_client s).
Qed.

Lemma strlen_zero s : strlen s = 0 <-> s = EmptyString.
Proof. unfold strlen. destruct s; simpl; split; try done; lia. Qed.

Lemma handle_leave_room_current_room i s :
  (i < length (clients s))%nat ->
  Client.current_room (client_at (handle_leave_room i s) i) = EmptyString.
Proof.
  intros Hi. unfold client_at at 1. rewrite handle_leave_room_clients.
  destruct (Z.eqb_spec (strlen (Client.current_room (client_at s i))) 0) as [Hz|Hz].
  - by apply strlen_zero in Hz.
  - by rewrite list_lookup_insert_eq.
Qed.

Lemma handle_leave_room_other i s j :
  i <> j -> client_at (handle_leave_room i s) j = client_at s j.
Proof.
  intros Hne. unfold client_at at 1. rewrite handle_leave_room_clients.
  destruct (_ =? 0); [done|]. by rewrite list_lookup_insert_ne.
Qed.

Lemma handle_leave_room_same_fields i s j :
  let c := client_at s j in let c' := client_at (handle_leave_room i s) j in
  Client.socket c' = Client.socket c /\ Client.username c' = Client.username c /\
  Client.active c' = Client.active c /\ Client.addr c' = Client.addr c.
Proof.
  simpl. destruct (decide (i = j)) as [<-|Hne]; [|by rewrite handle_leave_room_other].
  unfold client_at at 1 3 5 7. rewrite handle_leave_room_clients.
  destruct (_ =? 0); [done|].
  destruct (decide (i < length (clients s))%nat) as [Hi|Hi].
  - by rewrite list_lookup_insert_eq.
  - rewrite list_insert_ge by lia. done.
Qed.

(** ** Teardown order *)

Lemma cleanup_leave_keys i s :
  lookup_key <$> clients (cleanup_leave i s) = lookup_key <$> clients s.
Proof. unfold cleanup_leave. destruct (_ >? 0); [apply handle_leave_room_keys|done]. Qed.

Lemma cleanup_leave_same_fields i s j :
  let c := client_at s j in let c' := client_at (cleanup_leave i s) j in
  Client.socket c' = Client.socket c /\ Client.username c' = Client.username c /\
  Client.active c' = Client.active c /\ Client.addr c' = Client.addr c.
Proof.
  unfold cleanup_leave. destruct (_ >? 0); [apply handle_leave_room_same_fields|done].
Qed.

Lemma cleanup_leave_current_room i s :
  (i < length (clients s))%nat ->
  Client.current_room (client_at (cleanup_leave i s) i) = EmptyString.
Proof.
  intros Hi. unfold cleanup_leave.
  destruct (Z.gtb_spec (strlen (Client.current_room (client_at s i))) 0) as [Hz|Hz].
  - by apply handle_leave_room_current_room.
  - apply strlen_zero. unfold strlen in *. lia.
Qed.

Lemma cleanup_log_clients i s : clients (cleanup_log i s) = clients s.
Proof. unfold cleanup_log. by destruct (_ >? 0). Qed.

Lemma cleanup_log_client_at i s j : client_at (cleanup_log i s) j = client_at s j.
Proof. unfold client_at. by rewrite cleanup_log_clients. Qed.

Lemma cleanup_before_close_trace i s :
  exists evs, trace (cleanup_log i (cleanup_leave i s)) = trace s ++ evs /\ Forall no_close evs.
Proof.
  assert (H1 : exists evs, trace (cleanup_leave i s) = trace s ++ evs /\ Forall no_close evs).
  { unfold cleanup_leave, handle_leave_room. destruct (_ >? 0).
    - destruct (_ =? 0).
      + eexists. split; [srv_simpl; reflexivity|]. by repeat constructor.
      + unfold set_client. srv_simpl. rewrite leave_locked_trace.
        eexists. split; [reflexivity|]. by repeat constructor.
    - exists []. split; [by rewrite app_nil_r|constructor]. }
  destruct H1 as (evs & Ht & Hn). unfold cleanup_log. destruct (_ >? 0).
  - srv_simpl. rewrite Ht. rewrite <- app_assoc.
    eexists. split; [reflexivity|].
    apply Forall_app. split; [done|]. by repeat constructor.
  - by exists evs.
Qed.

Lemma cleanup_point_active n i s :
  Client.active (client_at s i) = true ->
  cleanup_point n i s = run (take n (cleanup_statements i)) s.
Proof. unfold cleanup_point. by intros ->. Qed.

Lemma cleanup_client_all i s : cleanup_client i s = cleanup_point 6 i s.
Proof. unfold cleanup_client, cleanup_point. by destruct (Client.active _). Qed.

Lemma find_client_inactive u s i :
  Client.active (client_at s i) = false -> find_client_by_username u s <> Some i.
Proof.
  intros Hi Hf. apply find_client_Some in Hf as (c & Hl & Ha & _).
  rewrite (client_at_lookup _ _ _ Hl) in Hi. congruence.
Qed.

(** C8 (as amended): [cleanup_client] first takes the session out of its
    room, then closes its socket and stores -1, and only with the following
    statement clears [active].  For a registered session with an open socket:
    up to the close no [Close] is emitted and a lookup by its name returns
    it with its socket; right after the close the lookup still returns it,
    now with socket -1; from the next statement on, and when
    [cleanup_client] has returned, the lookup no longer returns it. *)
Theorem cleanup_client_order client s :
  (client < length (clients s))%nat ->
  Client.active (client_at s client) = true ->
  Client.socket (client_at s client) <> -1 ->
  find_client_by_username (Client.username (client_at s client)) s = Some client ->
  let u := Client.username (client_at s client) in
  let fd := Client.socket (client_at s client) in
  Client.current_room (client_at (cleanup_point 1 client s) client) = EmptyString /\
  (exists evs, trace (cleanup_point 2 client s) = trace s ++ evs /\ Forall no_close evs) /\
  (forall n, (n <= 2)%nat ->
     find_client_by_username u (cleanup_point n client s) = Some client /\
     Client.socket (client_at (cleanup_point n client s) client) = fd) /\
  trace (cleanup_point 3 client s) = trace (cleanup_point 2 client s) ++ [Close fd] /\
  find_client_by_username u (cleanup_point 3 client s) = Some client /\
  Client.socket (client_at (cleanup_point 3 client s) client) = -1 /\
  (forall n, (4 <= n)%nat ->
     find_client_by_username u (cleanup_point n client s) <> Some client) /\
  find_client_by_username u (cleanup_client client s) <> Some client.
Proof.
  intros Hi Hact Hsock Hfind u fd.
  pose proof (cleanup_leave_same_fields client s client) as (Hs1 & Hu1 & Ha1 & _).
  pose proof (cleanup_leave_keys client s) as Hk1.
  set (s1 := cleanup_leave client s) in *.
  pose proof (cleanup_log_clients client s1) as Hc2.
  set (s2 := cleanup_log client s1) in *.
  assert (Hat2 : client_at s2 client = client_at s1 client)
    by (unfold client_at; by rewrite Hc2).
  assert (Hk2 : lookup_key <$> clients s2 = lookup_key <$> clients s) by (by rewrite Hc2).
  assert (Hlen2 : length (clients s2) = length (clients s)).
  { apply (f_equal length) in Hk2. by rewrite !length_fmap in Hk2. }
  assert (Hs3 : cleanup_close client s2 =
                set_client client (Client.set_socket (-1) (client_at s2 client))
                  (emit (Close fd) s2)).
  { unfold cleanup_close. rewrite Hat2, Hs1.
    destruct (Z.eqb_spec (Client.socket (client_at s client)) (-1)); [done|].
    simpl. by rewrite client_at_emit, Hat2. }
  assert (Hk3 : lookup_key <$> clients (cleanup_close client s2) = lookup_key <$> clients s).
  { rewrite Hs3, <- Hk2. apply (keys_set_client (emit (Close fd) s2)). done. }
  assert (Hat3 : client_at (cleanup_close client s2) client
                 = Client.set_socket (-1) (client_at s2 client)).
  { rewrite Hs3. apply client_at_set_client_eq. rewrite clients_emit. lia. }
  assert (Hlen3 : length (clients (cleanup_close client s2)) = length (clients s)).
  { apply (f_equal length) in Hk3. by rewrite !length_fmap in Hk3. }
  assert (Hoff : forall s', (client < length (clients s'))%nat ->
            Client.active (client_at (cleanup_deactivate client s') client) = false).
  { intros s' Hs'. unfold cleanup_deactivate. by rewrite client_at_set_client_eq. }
  set (s4 := cleanup_deactivate client (cleanup_close client s2)) in *.
  assert (Ha4 : Client.active (client_at s4 client) = false) by (apply Hoff; lia).
  assert (Hlen4 : length (clients s4) = length (clients s)).
  { unfold s4, cleanup_deactivate. by rewrite clients_set_client, length_insert. }
  assert (Ha5 : Client.active (client_at (cleanup_clear_username client s4) client) = false).
  { unfold cleanup_clear_username. rewrite client_at_set_client_eq by lia. done. }
  assert (Ha6 : Client.active (client_at (cleanup_clear_room client
                   (cleanup_clear_username client s4)) client) = false).
  { unfold cleanup_clear_room. rewrite client_at_set_client_eq; [done|].
    unfold cleanup_clear_username. rewrite clients_set_client, length_insert. lia. }
  assert (Hlate : forall n, (4 <= n)%nat ->
            find_client_by_username u (cleanup_point n client s) <> Some client).
  { intros n Hn. rewrite cleanup_point_active by done.
    do 4 (destruct n as [|n]; [lia|]).
    destruct n as [|n]; [apply find_client_inactive; exact Ha4|].
    destruct n as [|n]; [apply find_client_inactive; exact Ha5|].
    apply find_client_inactive. destruct n; exact Ha6. }
  rewrite !cleanup_point_active by done. simpl.
  fold s1 s2 s4.
  split; [by apply cleanup_leave_current_room|].
  split; [apply cleanup_before_close_trace|].
  split.
  { intros n Hn.
    destruct n as [|[|[|n]]]; [| | |lia];
      rewrite !cleanup_point_active by done; simpl; fold s1; fold s2.
    - done.
    - by rewrite (find_client_keys u s s1), Hs1.
    - by rewrite (find_client_keys u s s2), Hat2, Hs1. }
  split; [rewrite Hs3; by srv_simpl|].
  split; [by rewrite (find_client_keys u s)|].
  split; [by rewrite Hat3|].
  split; [done|].
  rewrite cleanup_client_all. apply Hlate. lia.
Qed.

Lemma cleanup_client_order_witness :
  (0 < length (clients example_alice))%nat /\
  Client.active (client_at example_alice 0) = true /\
  Client.socket (client_at example_alice 0) <> -1 /\
  find_client_by_username "alice" example_alice = Some 0%nat /\
  find_client_by_username "alice" (cleanup_point 3 0 example_alice) = Some 0%nat /\
  find_client_by_username "alice" (cleanup_client 0 example_alice) <> Some 0%nat.
Proof.
  assert (H1 : (0 < length (clients example_alice))%nat) by (vm_compute; lia).
  assert (H2 : Client.active (client_at example_alice 0) = true) by reflexivity.
  assert (H3 : Client.socket (client_at example_alice 0) <> -1) by (vm_compute; discriminate).
  assert (H4 : find_client_by_username (Client.username (client_at example_alice 0))
                 example_alice = Some 0%nat) by reflexivity.
  do 4 (split; [assumption|]).
  destruct (cleanup_client_order 0 example_alice H1 H2 H3 H4)
    as (_ & _ & _ & _ & Hclosed & _ & _ & Hgone).
  split; [exact Hclosed | exact Hgone].
Defined.

(** C8, as stated, fails: with [alice] registered on descriptor 4, the state
    right after the third statement of [cleanup_client] has her socket closed
    and set to -1 while a lookup of her name still returns her slot, which is
    still active. *)
Lemma cleanup_closed_handle_counterexample :
  let s3 := cleanup_point 3 0 example_alice in
  find_client_by_username "alice" s3 = Some 0%nat /\
  Client.active (client_at s3 0) = true /\
  Client.socket (client_at s3 0) = -1 /\
  last (trace s3) = Some (Close 4).
Proof. vm_compute. done. Qed.

Lemma signal_handler_shutdown_witness :
  halted (system_init 3) = false /\
  step (with_server (signal_begin (server_init 3)) (system_init 3))
       (mkSystem (signal_handler SIGINT (server_init 3))
                 (sessions (system_init 3)) At_loop true [] [] []).
Proof.
  split; [reflexivity|].
  destruct (signal_handler_shutdown (server_init 3)) as (_ & _ & _ & _ & _ & H).
  destruct (H (with_server (signal_begin (server_init 3)) (system_init 3)) eq_refl eq_refl)
    as [Hstep _].
  exact Hstep.
Defined.

(** ** The registry invariant *)

Lemma wf_registry_same s s' :
  clients s' = clients s -> rooms s' = rooms s -> wf_registry s -> wf_registry s'.
Proof.
  unfold wf_registry, unique_usernames, distinct_sockets, rooms_ok, room_ok,
    room_names_unique, members_listed.
  intros -> ->. done.
Qed.

Lemma wf_registry_emit e s : wf_registry s -> wf_registry (emit e s).
Proof. by apply wf_registry_same. Qed.

Lemma clients_init fd i c :
  clients (server_init fd) !! i = Some c -> c = Client.initial.
Proof. intros H. by apply lookup_replicate in H as [-> _]. Qed.

Lemma rooms_init fd k r :
  rooms (server_init fd) !! k = Some r -> r = Room.initial.
Proof. intros H. by apply lookup_replicate in H as [-> _]. Qed.

Lemma wf_registry_init fd : wf_registry (server_init fd).
Proof.
  split; [done|]. split; [done|]. split; [|split; [|split; [|split]]].
  - intros i j ci cj Hi _ _ Ha. by rewrite (clients_init _ _ _ Hi) in Ha.
  - intros i j ci cj Hi _ _ Ha. by rewrite (clients_init _ _ _ Hi) in Ha.
  - intros k r Hk Ha. by rewrite (rooms_init _ _ _ Hk) in Ha.
  - intros k l r r' Hk _ Ha. by rewrite (rooms_init _ _ _ Hk) in Ha.
  - intros i c Hi Ha. by rewrite (clients_init _ _ _ Hi) in Ha.
Qed.
Lemma lookup_set_client s i c j d :
  clients (set_client i c s) !! j = Some d ->
  (i = j /\ d = c /\ (i < length (clients s))%nat) \/ (i <> j /\ clients s !! j = Some d).
Proof.
  rewrite clients_set_client. intros H.
  destruct (decide (i = j)) as [<-|Hne].
  - left. pose proof (lookup_lt_Some _ _ _ H) as Hlt. rewrite length_insert in Hlt.
    rewrite list_lookup_insert_eq in H by done. by injection H as <-.
  - right. by rewrite list_lookup_insert_ne in H.
Qed.

Lemma lookup_set_room s k r l r' :
  rooms (set_room k r s) !! l = Some r' ->
  (k = l /\ r' = r /\ (k < length (rooms s))%nat) \/ (k <> l /\ rooms s !! l = Some r').
Proof.
  rewrite rooms_set_room. intros H.
  destruct (decide (k = l)) as [<-|Hne].
  - left. pose proof (lookup_lt_Some _ _ _ H) as Hlt. rewrite length_insert in Hlt.
    rewrite list_lookup_insert_eq in H by done. by injection H as <-.
  - right. by rewrite list_lookup_insert_ne in H.
Qed.

(** Replacing one slot, the rooms untouched. *)
Lemma wf_set_client s i c c' :
  wf_registry s -> clients s !! i = Some c ->
  (Client.active c' = true -> forall j cj, j <> i -> clients s !! j = Some cj ->
     Client.active cj = true ->
     (Client.username c' <> Client.username cj \/
      Client.username c' = EmptyString \/ Client.username cj = EmptyString) /\
     Client.socket c' <> Client.socket cj) ->
  ((exists k r, rooms s !! k = Some r /\ Room.active r = true /\ i ∈ Room.members r) ->
     Client.active c' = true /\ Client.current_room c' = Client.current_room c) ->
  (Client.active c' = true -> Client.current_room c' <> EmptyString ->
     Client.active c = true /\ Client.current_room c' = Client.current_room c) ->
  wf_registry (set_client i c' s).
Proof.
  intros (Hlc & Hlr & Hu & Hs & Hr & Hn & Hm) Hi Hnew Hmem Hlist.
  split; [by rewrite clients_set_client, length_insert|]. split; [done|].
  split; [|split; [|split; [|split]]].
  - intros a b ca cb Ha Hb Hab Haa Hba.
    apply lookup_set_client in Ha as [(<- & -> & _)|[Hna Ha]];
      apply lookup_set_client in Hb as [(<- & -> & _)|[Hnb Hb]]; try done.
    + by destruct (Hnew Haa b cb).
    + destruct (Hnew Hba a ca) as [[?|[?|?]] _]; auto.
    + by apply (Hu a b).
  - intros a b ca cb Ha Hb Hab Haa Hba.
    apply lookup_set_client in Ha as [(<- & -> & _)|[Hna Ha]];
      apply lookup_set_client in Hb as [(<- & -> & _)|[Hnb Hb]]; try done.
    + by destruct (Hnew Haa b cb).
    + destruct (Hnew Hba a ca) as [_ ?]; auto.
    + by apply (Hs a b).
  - intros k r Hk Ha. destruct (Hr k r Hk Ha) as (Hname & Hne & Hnd & Hall).
    repeat split; try done. intros m Hin.
    destruct (Hall m Hin) as (cm & Hcm & Hact & Hroom).
    destruct (decide (m = i)) as [->|Hmi].
    + exists c'. rewrite clients_set_client, list_lookup_insert_eq
        by (by apply lookup_lt_Some in Hi).
      destruct Hmem as [Hc'a Hc'r]; [by exists k, r|].
      rewrite Hcm in Hi. injection Hi as <-. by rewrite Hc'r.
    + exists cm. by rewrite clients_set_client, list_lookup_insert_ne.
  - done.
  - intros a ca Ha Haa Hroom.
    apply lookup_set_client in Ha as [(<- & -> & _)|[Hna Ha]].
    + destruct (Hlist Haa Hroom) as [Hca Heq]. rewrite Heq in *.
      by apply (Hm i c).
    + by apply (Hm a ca).
Qed.
Lemma remove_member_subset i l m : m ∈ remove_member i l -> m ∈ l.
Proof.
  induction l as [|a l IH]; simpl; [done|].
  destruct (decide (a = i)); rewrite ?elem_of_cons; tauto.
Qed.

Lemma remove_member_other i l m : m ∈ l -> m <> i -> m ∈ remove_member i l.
Proof.
  induction l as [|a l IH]; simpl; [done|].
  rewrite elem_of_cons. intros [->|Hin] Hne.
  - destruct (decide (a = i)); [done|]. apply elem_of_cons. by left.
  - destruct (decide (a = i)); [done|]. apply elem_of_cons. right. by apply IH.
Qed.

Lemma remove_member_NoDup i l :
  NoDup l -> NoDup (remove_member i l) /\ i ∉ remove_member i l.
Proof.
  induction 1 as [|a l Hnotin Hnd [IH1 IH2]]; simpl.
  - split; [constructor|]. apply not_elem_of_nil.
  - destruct (decide (a = i)) as [->|Hne]; [done|]. split.
    + constructor; [|done]. intros Hin. by apply Hnotin, (remove_member_subset i).
    + rewrite elem_of_cons. intros [?|?]; [congruence|done].
Qed.

Lemma find_room_Some X s k r :
  list_find (room_named X) (rooms s) = Some (k, r) ->
  rooms s !! k = Some r /\ Room.active r = true /\ Room.name r = X.
Proof. intros H. apply list_find_Some in H as (Hk & [Ha Hn] & _). done. Qed.

Lemma find_room_None X s :
  list_find (room_named X) (rooms s) = None ->
  forall l r, rooms s !! l = Some r -> Room.active r = true -> Room.name r <> X.
Proof.
  intros H l r Hl Ha Hn. rewrite list_find_None, Forall_forall in H.
  apply (H r); [|done]. apply list_elem_of_lookup. by exists l.
Qed.

Lemma find_room_unique s k r :
  room_names_unique s -> rooms s !! k = Some r -> Room.active r = true ->
  list_find (room_named (Room.name r)) (rooms s) = Some (k, r).
Proof.
  intros Hn Hk Ha. apply list_find_Some. split; [done|]. split; [done|].
  intros j y Hj Hlt [Hya Hyn]. pose proof (Hn j k y r Hj Hk Hya Ha Hyn). lia.
Qed.

(** In a well-formed state a member of a room has the name of that room as
    its [current_room]; so a session is in one room at most. *)
Lemma member_room s k r i c :
  wf_registry s -> rooms s !! k = Some r -> Room.active r = true ->
  i ∈ Room.members r -> clients s !! i = Some c ->
  Client.active c = true /\ Client.current_room c = Room.name r /\
  Client.current_room c <> EmptyString.
Proof.
  intros (_ & _ & _ & _ & Hr & _ & _) Hk Ha Hin Hi.
  destruct (Hr k r Hk Ha) as (Hname & _ & _ & Hall).
  destruct (Hall i Hin) as (c' & Hc' & Hact & Hroom).
  rewrite Hi in Hc'. injection Hc' as <-. by rewrite Hroom.
Qed.

(** The critical section of [handle_leave_room] followed by the store that
    clears [current_room]. *)
Lemma wf_leave s i c :
  wf_registry s -> clients s !! i = Some c -> Client.active c = true ->
  Client.current_room c <> EmptyString ->
  wf_registry (set_client i (Client.set_current_room EmptyString c) (leave_locked i s)).
Proof.
  intros Hwf Hi Hact Hroom.
  pose proof Hwf as (Hlc & Hlr & Hu & Hs & Hr & Hn & Hm).
  destruct (Hm i c Hi Hact Hroom) as (k & r & Hk & Hra & Hrn & Hin).
  unfold leave_locked. rewrite (client_at_lookup _ _ _ Hi), <- Hrn.
  rewrite (find_room_unique s k r) by done.
  destruct (remove_member_NoDup i (Room.members r)) as [Hnd' Hnot'].
  { by destruct (Hr k r Hk Hra) as (_ & _ & ? & _). }
  set (ms := remove_member i (Room.members r)) in *.
  split; [by rewrite clients_set_client, length_insert|].
  split; [by rewrite rooms_set_client, rooms_set_room, length_insert|].
  split; [|split; [|split; [|split]]].
  - intros a b ca cb Ha Hb Hab Haa Hba.
    apply lookup_set_client in Ha as [(<- & -> & _)|[Hna Ha]];
      apply lookup_set_client in Hb as [(<- & -> & _)|[Hnb Hb]]; try done;
      rewrite ?clients_set_room in *; simpl in *.
    + by apply (Hu i b c cb).
    + by apply (Hu a i ca c).
    + by apply (Hu a b).
  - intros a b ca cb Ha Hb Hab Haa Hba.
    apply lookup_set_client in Ha as [(<- & -> & _)|[Hna Ha]];
      apply lookup_set_client in Hb as [(<- & -> & _)|[Hnb Hb]]; try done;
      rewrite ?clients_set_room in *; simpl in *.
    + by apply (Hs i b c cb).
    + by apply (Hs a i ca c).
    + by apply (Hs a b).
  - intros l r' Hl Hl'. rewrite rooms_set_client in Hl.
    assert (Hmem : forall m r0, m <> i ->
              (exists cm, clients s !! m = Some cm /\ Client.active cm = true /\
                          Client.current_room cm = Room.name r0) ->
              exists cm, clients (set_client i (Client.set_current_room EmptyString c)
                                   (set_room k (Room.mk (Room.name r) ms
                                      (if Z.of_nat (length ms) =? 0 then false
                                       else Room.active r)) s)) !! m = Some cm /\
                         Client.active cm = true /\ Client.current_room cm = Room.name r0).
    { intros m r0 Hmi (cm & Hcm & ? & ?). exists cm.
      by rewrite clients_set_client, list_lookup_insert_ne. }
    apply lookup_set_room in Hl as [(<- & -> & _)|[Hkl Hl]].
    + simpl in *. destruct (Hr k r Hk Hra) as (Hname & _ & _ & Hall).
      destruct (Z.eqb_spec (Z.of_nat (length ms)) 0) as [|Hlen]; [done|].
      repeat split; try done; simpl.
      * intros Hms. rewrite Hms in Hlen. simpl in Hlen. lia.
      * intros m Hm'. apply Hmem; [intros ->; done|].
        apply Hall. by apply (remove_member_subset i).
    + destruct (Hr l r' Hl Hl') as (Hname & Hne & Hnd & Hall).
      repeat split; try done. intros m Hm'. apply Hmem; [|by apply Hall].
      intros ->. destruct (member_room s l r' i c Hwf Hl Hl' Hm' Hi) as (_ & Heq & _).
      apply Hkl. apply (Hn k l r r'); try done. congruence.
  - intros a b ra rb Ha Hb Haa Hba Hnames. rewrite rooms_set_client in Ha, Hb.
    apply lookup_set_room in Ha as [(<- & -> & _)|[Hka Ha]];
      apply lookup_set_room in Hb as [(<- & -> & _)|[Hkb Hb]]; try done; simpl in *.
    + destruct (_ =? 0); [done|]. by apply (Hn k b r rb).
    + destruct (_ =? 0); [done|]. by apply (Hn a k ra r).
    + by apply (Hn a b ra rb).
  - intros a ca Ha Haa Hca.
    apply lookup_set_client in Ha as [(<- & -> & _)|[Hna Ha]]; [done|].
    rewrite clients_set_room in Ha.
    destruct (Hm a ca Ha Haa Hca) as (l & r' & Hl & Hl' & Hln & Hmin).
    destruct (decide (k = l)) as [<-|Hkl].
    + rewrite Hk in Hl. injection Hl as <-.
      assert (Hin' : a ∈ ms) by (by apply remove_member_other).
      exists k, (Room.mk (Room.name r) ms
                   (if Z.of_nat (length ms) =? 0 then false else Room.active r)).
      rewrite rooms_set_client, rooms_set_room, list_lookup_insert_eq
        by (by apply lookup_lt_Some in Hk).
      simpl. repeat split; try done.
      destruct (Z.eqb_spec (Z.of_nat (length ms)) 0) as [Hz|]; [|done].
      destruct ms; [by apply elem_of_nil in Hin'|simpl in Hz; lia].
    + exists l, r'. by rewrite rooms_set_client, rooms_set_room, list_lookup_insert_ne.
Qed.
Lemma client_at_active_lookup s i :
  Client.active (client_at s i) = true -> clients s !! i = Some (client_at s i).
Proof. unfold client_at. by destruct (clients s !! i). Qed.

Lemma wf_handle_leave_room s i :
  wf_registry s -> Client.active (client_at s i) = true ->
  wf_registry (handle_leave_room i s).
Proof.
  intros Hwf Hact. pose proof (client_at_active_lookup s i Hact) as Hi.
  destruct (Z.eqb_spec (strlen (Client.current_room (client_at s i))) 0) as [Hz|Hz].
  - unfold handle_leave_room. apply Z.eqb_eq in Hz. rewrite Hz. by apply wf_registry_emit.
  - apply (wf_registry_same
             (set_client i (Client.set_current_room EmptyString (client_at s i))
                (leave_locked i s))).
    + rewrite handle_leave_room_clients, clients_set_client, leave_locked_clients.
      by destruct (Z.eqb_spec (strlen (Client.current_room (client_at s i))) 0).
    + rewrite handle_leave_room_rooms.
      by destruct (Z.eqb_spec (strlen (Client.current_room (client_at s i))) 0).
    + apply wf_leave; try done. by rewrite <- strlen_zero.
Qed.

(** The append of [handle_join_room] to room slot [k], which is either the
    active room of that name or a free slot when no active room has it,
    followed by the store of [current_room]. *)
Lemma wf_join s i c k r0 X ms :
  wf_registry s -> clients s !! i = Some c -> Client.active c = true ->
  Client.current_room c = EmptyString -> X <> EmptyString ->
  rooms s !! k = Some r0 ->
  ((Room.active r0 = true /\ Room.name r0 = X /\ ms = Room.members r0) \/
   (Room.active r0 = false /\ ms = [] /\
    forall l r, rooms s !! l = Some r -> Room.active r = true -> Room.name r <> X)) ->
  wf_registry (set_client i (Client.set_current_room X c)
                 (set_room k (Room.mk X (ms ++ [i]) true) s)).
Proof.
  intros Hwf Hi Hact Hroom HX Hk Hcase.
  pose proof Hwf as (Hlc & Hlr & Hu & Hs & Hr & Hn & Hm).
  assert (Hout : forall l r, rooms s !! l = Some r -> Room.active r = true ->
                             ~ i ∈ Room.members r).
  { intros l r Hl Hla Hin.
    destruct (member_room s l r i c Hwf Hl Hla Hin Hi) as (_ & _ & Hne). done. }
  assert (Hms : NoDup ms /\ (i ∉ ms) /\ forall m, m ∈ ms ->
            exists cm, clients s !! m = Some cm /\ Client.active cm = true /\
                       Client.current_room cm = X).
  { destruct Hcase as [(Ha & <- & ->)|(_ & -> & _)].
    - destruct (Hr k r0 Hk Ha) as (_ & _ & Hnd & Hall). split; [done|]. split; [eauto|done].
    - split; [constructor|]. split; [apply not_elem_of_nil|].
      intros m Hin. by apply elem_of_nil in Hin. }
  destruct Hms as (Hnd & Hnotin & Hall).
  assert (Hkeep : forall m cm, m <> i -> clients s !! m = Some cm ->
            clients (set_client i (Client.set_current_room X c)
                       (set_room k (Room.mk X (ms ++ [i]) true) s)) !! m = Some cm).
  { intros m cm Hmi Hcm. by rewrite clients_set_client, list_lookup_insert_ne. }
  assert (Hself : clients (set_client i (Client.set_current_room X c)
                     (set_room k (Room.mk X (ms ++ [i]) true) s)) !! i
                  = Some (Client.set_current_room X c)).
  { rewrite clients_set_client, list_lookup_insert_eq; [done|].
    rewrite clients_set_room. by apply lookup_lt_Some in Hi. }
  split; [by rewrite clients_set_client, length_insert|].
  split; [by rewrite rooms_set_client, rooms_set_room, length_insert|].
  split; [|split; [|split; [|split]]].
  - intros a b ca cb Ha Hb Hab Haa Hba.
    apply lookup_set_client in Ha as [(<- & -> & _)|[Hna Ha]];
      apply lookup_set_client in Hb as [(<- & -> & _)|[Hnb Hb]]; try done;
      rewrite ?clients_set_room in *; simpl in *.
    + by apply (Hu i b c cb).
    + by apply (Hu a i ca c).
    + by apply (Hu a b).
  - intros a b ca cb Ha Hb Hab Haa Hba.
    apply lookup_set_client in Ha as [(<- & -> & _)|[Hna Ha]];
      apply lookup_set_client in Hb as [(<- & -> & _)|[Hnb Hb]]; try done;
      rewrite ?clients_set_room in *; simpl in *.
    + by apply (Hs i b c cb).
    + by apply (Hs a i ca c).
    + by apply (Hs a b).
  - intros l r' Hl Hl'. rewrite rooms_set_client in Hl.
    apply lookup_set_room in Hl as [(<- & -> & _)|[Hkl Hl]].
    + split; [done|]. split; [by destruct ms|]. split.
      * apply NoDup_app. split; [done|]. split; [|apply NoDup_singleton].
        intros m Hin Hin'. apply list_elem_of_singleton in Hin' as ->. done.
      * intros m Hin. simpl in Hin. apply elem_of_app in Hin as [Hin|Hin].
        -- destruct (Hall m Hin) as (cm & Hcm & Hcma & Hcmr).
           exists cm. split; [|done]. apply Hkeep; [|done]. intros ->. done.
        -- apply list_elem_of_singleton in Hin as ->.
           exists (Client.set_current_room X c). done.
    + destruct (Hr l r' Hl Hl') as (Hname & Hne & Hnd' & Hall').
      repeat split; try done. intros m Hin.
      destruct (Hall' m Hin) as (cm & Hcm & Hcma & Hcmr).
      exists cm. split; [|done]. apply Hkeep; [|done].
      intros ->. by apply (Hout l r').
  - intros a b ra rb Ha Hb Haa Hba Hnames. rewrite rooms_set_client in Ha, Hb.
    apply lookup_set_room in Ha as [(<- & -> & _)|[Hka Ha]];
      apply lookup_set_room in Hb as [(<- & -> & _)|[Hkb Hb]]; try done; simpl in *.
    + destruct Hcase as [(Hr0 & Hn0 & _)|(_ & _ & Hnone)].
      * apply (Hn k b r0 rb); try done. congruence.
      * by destruct (Hnone b rb Hb Hba).
    + destruct Hcase as [(Hr0 & Hn0 & _)|(_ & _ & Hnone)].
      * apply (Hn a k ra r0); try done. congruence.
      * by destruct (Hnone a ra Ha Haa).
    + by apply (Hn a b ra rb).
  - intros a ca Ha Haa Hca.
    apply lookup_set_client in Ha as [(<- & -> & _)|[Hna Ha]].
    + exists k, (Room.mk X (ms ++ [i]) true).
      rewrite rooms_set_client, rooms_set_room, list_lookup_insert_eq
        by (by apply lookup_lt_Some in Hk).
      repeat split; try done. simpl. apply elem_of_app. right. by apply list_elem_of_singleton.
    + rewrite clients_set_room in Ha.
      destruct (Hm a ca Ha Haa Hca) as (l & r' & Hl & Hl' & Hln & Hmin).
      destruct (decide (k = l)) as [<-|Hkl].
      * rewrite Hk in Hl. injection Hl as <-.
        destruct Hcase as [(Hr0 & Hn0 & ->)|(Hr0 & _)]; [|congruence].
        exists k, (Room.mk X (Room.members r0 ++ [i]) true).
        rewrite rooms_set_client, rooms_set_room, list_lookup_insert_eq
          by (by apply lookup_lt_Some in Hk).
        repeat split; try done; simpl; [congruence|]. apply elem_of_app. by left.
      * exists l, r'. by rewrite rooms_set_client, rooms_set_room, list_lookup_insert_ne.
Qed.
Lemma validate_room_name_nonempty X : validate_room_name X = true -> X <> EmptyString.
Proof. intros H ->. done. Qed.

Lemma room_at_lookup s k r : rooms s !! k = Some r -> room_at s k = r.
Proof. unfold room_at. by intros ->. Qed.

Lemma wf_handle_join_room s i X :
  wf_registry s -> Client.active (client_at s i) = true ->
  wf_registry (handle_join_room i X s).
Proof.
  intros Hwf Hact. unfold handle_join_room.
  destruct (validate_room_name X) eqn:HX; simpl; [|by apply wf_registry_emit].
  apply validate_room_name_nonempty in HX.
  set (s1 := if strlen (Client.current_room (client_at s i)) >? 0
             then handle_leave_room i s else s).
  assert (H1 : wf_registry s1 /\ Client.active (client_at s1 i) = true /\
               Client.current_room (client_at s1 i) = EmptyString).
  { unfold s1. destruct (Z.gtb_spec (strlen (Client.current_room (client_at s i))) 0) as [Hz|Hz].
    - split; [by apply wf_handle_leave_room|].
      destruct (handle_leave_room_same_fields i s i) as (_ & _ & -> & _).
      split; [done|]. apply handle_leave_room_current_room.
      apply client_at_active_lookup in Hact. by apply lookup_lt_Some in Hact.
    - split; [done|]. split; [done|]. apply strlen_zero. unfold strlen in *. lia. }
  clearbody s1. destruct H1 as (Hwf1 & Hact1 & Hroom1).
  pose proof (client_at_active_lookup s1 i Hact1) as Hi1.
  unfold find_or_create_room.
  destruct (list_find (room_named X) (rooms s1)) as [[k r]|] eqn:Efind.
  - apply find_room_Some in Efind as (Hk & Hra & Hrn).
    unfold join_locked. rewrite (room_at_lookup _ _ _ Hk).
    destruct (_ >=? MAX_CLIENTS); [by apply wf_registry_emit|].
    srv_simpl. do 3 apply wf_registry_emit. rewrite Hra, Hrn.
    apply (wf_join s1 i _ k r X (Room.members r)); try done. by left.
  - pose proof (find_room_None _ _ Efind) as Hnone.
    destruct (list_find room_free (rooms s1)) as [[k r]|] eqn:Efree;
      [|by apply wf_registry_emit].
    apply list_find_Some in Efree as (Hk & Hfree & _).
    unfold join_locked.
    assert (Hat : room_at (set_room k (Room.mk X [] true) s1) k = Room.mk X [] true).
    { unfold room_at. rewrite rooms_set_room, list_lookup_insert_eq; [done|].
      by apply lookup_lt_Some in Hk. }
    rewrite Hat. simpl. do 3 apply wf_registry_emit.
    eapply wf_registry_same;
      [| |apply (wf_join s1 i (client_at s1 i) k r X []); try done; by right].
    + by rewrite !clients_set_client.
    + rewrite !rooms_set_client, !rooms_set_room. by rewrite list_insert_insert_eq.
Qed.
Lemma not_member_without_room s i c :
  wf_registry s -> clients s !! i = Some c -> Client.current_room c = EmptyString ->
  ~ exists k r, rooms s !! k = Some r /\ Room.active r = true /\ i ∈ Room.members r.
Proof.
  intros Hwf Hi Hroom (k & r & Hk & Ha & Hin).
  by destruct (member_room s k r i c Hwf Hk Ha Hin Hi) as (_ & _ & ?).
Qed.

Lemma not_member_inactive s i c :
  wf_registry s -> clients s !! i = Some c -> Client.active c = false ->
  ~ exists k r, rooms s !! k = Some r /\ Room.active r = true /\ i ∈ Room.members r.
Proof.
  intros Hwf Hi Hoff (k & r & Hk & Ha & Hin).
  destruct (member_room s k r i c Hwf Hk Ha Hin Hi) as (? & _). congruence.
Qed.

Lemma wf_cleanup_leave s i :
  wf_registry s -> Client.active (client_at s i) = true ->
  wf_registry (cleanup_leave i s).
Proof.
  intros Hwf Hact. unfold cleanup_leave.
  destruct (_ >? 0); [by apply wf_handle_leave_room|done].
Qed.

(** What [cleanup_client] leaves in the tables: the rooms as the leave step
    left them, and the slot retired. *)
Lemma cleanup_client_registry s i :
  Client.active (client_at s i) = true ->
  rooms (cleanup_client i s) = rooms (cleanup_leave i s) /\
  clients (cleanup_client i s) =
    <[i := Client.mk (-1) EmptyString EmptyString
             (Client.addr (client_at s i)) false]> (clients (cleanup_leave i s)).
Proof.
  intros Hact. unfold cleanup_client. rewrite Hact. simpl.
  pose proof (cleanup_leave_same_fields i s i) as (Hs1 & Hu1 & Ha1 & Hd1).
  assert (Hlen1 : (i < length (clients (cleanup_leave i s)))%nat).
  { pose proof (cleanup_leave_keys i s) as Hk. apply (f_equal length) in Hk.
    rewrite !length_fmap in Hk. rewrite Hk.
    apply client_at_active_lookup in Hact. by apply lookup_lt_Some in Hact. }
  set (s1 := cleanup_leave i s) in *.
  pose proof (cleanup_log_clients i s1) as Hc2.
  assert (Hr2 : rooms (cleanup_log i s1) = rooms s1).
  { unfold cleanup_log. by destruct (_ >? 0). }
  assert (Hat2 : client_at (cleanup_log i s1) i = client_at s1 i)
    by apply cleanup_log_client_at.
  set (s2 := cleanup_log i s1) in *.
  assert (H3 : rooms (cleanup_close i s2) = rooms s1 /\
               clients (cleanup_close i s2) =
                 <[i := Client.set_socket (-1) (client_at s1 i)]> (clients s1)).
  { unfold cleanup_close. rewrite Hat2.
    destruct (Z.eqb_spec (Client.socket (client_at s1 i)) (-1)) as [Heq|Hne]; cbn [negb].
    - split; [done|]. rewrite Hc2. symmetry. apply list_insert_id.
      rewrite (client_at_active_lookup s1 i) by congruence.
      f_equal. destruct (client_at s1 i). simpl in *. by rewrite Heq.
    - by rewrite rooms_set_client, clients_set_client, client_at_emit, Hat2,
        rooms_emit, clients_emit, Hr2, Hc2. }
  destruct H3 as [Hr3 Hc3]. set (s3 := cleanup_close i s2) in *.
  assert (Hat3 : client_at s3 i = Client.set_socket (-1) (client_at s1 i)).
  { unfold client_at at 1. by rewrite Hc3, list_lookup_insert_eq. }
  split; [done|].
  assert (Hlen3 : (i < length (clients s3))%nat) by (by rewrite Hc3, length_insert).
  unfold cleanup_clear_username, cleanup_deactivate.
  rewrite (client_at_set_client_eq s3) by done.
  rewrite client_at_set_client_eq by (by rewrite clients_set_client, length_insert).
  rewrite Hat3, Hc3, !list_insert_insert_eq. f_equal.
  unfold Client.set_current_room, Client.set_username, Client.set_active,
    Client.set_socket. simpl. by rewrite Hd1.
Qed.

Lemma wf_cleanup_client s i : wf_registry s -> wf_registry (cleanup_client i s).
Proof.
  intros Hwf. destruct (Client.active (client_at s i)) eqn:Hact;
    [|unfold cleanup_client; by rewrite Hact].
  destruct (cleanup_client_registry s i Hact) as [Hr Hc].
  pose proof (wf_cleanup_leave s i Hwf Hact) as Hwf1.
  pose proof (cleanup_leave_same_fields i s i) as (_ & _ & Ha1 & _).
  pose proof (cleanup_leave_current_room i s) as Hroom1.
  set (s1 := cleanup_leave i s) in *.
  assert (Hi1 : clients s1 !! i = Some (client_at s1 i)).
  { apply client_at_active_lookup. congruence. }
  apply (wf_registry_same
           (set_client i (Client.mk (-1) EmptyString EmptyString
                            (Client.addr (client_at s i)) false) s1)); try done.
  apply (wf_set_client s1 i (client_at s1 i)); try done.
  intros Hmem. exfalso. apply (not_member_without_room s1 i (client_at s1 i)); try done.
  apply Hroom1. apply client_at_active_lookup in Hact. by apply lookup_lt_Some in Hact.
Qed.

Lemma wf_accept_connection s fd addr :
  wf_registry s -> fresh_fd fd s -> wf_registry (accept_connection fd addr s).2.
Proof.
  intros Hwf [_ Hfresh]. unfold accept_connection.
  destruct (list_find slot_free (clients s)) as [[i c]|] eqn:E; simpl;
    [|by do 2 apply wf_registry_emit].
  apply list_find_Some in E as (Hi & Hfree & _).
  apply (wf_set_client s i c); try done.
  - intros _ j cj Hj Hcj Hact. simpl. split; [tauto|].
    intros Heq. by apply (Hfresh j cj).
  - intros Hmem. exfalso. by apply (not_member_inactive s i c Hwf Hi Hfree).
Qed.

Lemma wf_login s i u : wf_registry s -> wf_registry (login i u s).2.
Proof.
  intros Hwf. unfold login. destruct (_ || _); simpl.
  - by apply wf_cleanup_client.
  - by do 4 apply wf_registry_emit.
Qed.

Lemma wf_naming_attempt s i received :
  wf_registry s -> wf_registry (naming_attempt i received s).2.
Proof.
  intros Hwf. unfold naming_attempt.
  destruct (server_running s && Client.active (client_at s i)) eqn:Hloop;
    [|by apply wf_cleanup_client].
  apply andb_prop in Hloop as [_ Hact].
  destruct received as [data|]; [|apply wf_cleanup_client; by apply wf_registry_emit].
  destruct (validate_username _) eqn:Hvalid; simpl; [|by do 2 apply wf_registry_emit].
  srv_simpl.
  destruct (find_client_by_username (received_line MAX_USERNAME_LEN data) s)
    as [j|] eqn:Hfind; simpl; [by do 3 apply wf_registry_emit|].
  apply wf_login.
  pose proof (client_at_active_lookup s i Hact) as Hi.
  apply (wf_set_client _ i (client_at s i)).
  - by apply wf_registry_emit.
  - done.
  - intros _ j cj Hj Hcj Hcja. simpl. rewrite clients_emit in Hcj. split.
    + left. intros Heq. rewrite find_client_None in Hfind. by apply (Hfind j cj).
    + destruct Hwf as (_ & _ & _ & Hs & _). by apply (Hs i j).
  - done.
  - done.
Qed.

(** ** Broadcast *)

Lemma emit_all_app evs evs' s : emit_all (evs ++ evs') s = emit_all evs' (emit_all evs s).
Proof. unfold emit_all. by rewrite foldl_app. Qed.

Lemma clients_emit_all evs s : clients (emit_all evs s) = clients s.
Proof. revert s. induction evs as [|e evs IH]; intros s; [done|]. simpl. by rewrite IH. Qed.

Lemma rooms_emit_all evs s : rooms (emit_all evs s) = rooms s.
Proof. revert s. induction evs as [|e evs IH]; intros s; [done|]. simpl. by rewrite IH. Qed.

Lemma upload_queue_emit_all evs s : upload_queue (emit_all evs s) = upload_queue s.
Proof. revert s. induction evs as [|e evs IH]; intros s; [done|]. simpl. by rewrite IH. Qed.

Lemma server_running_emit_all evs s : server_running (emit_all evs s) = server_running s.
Proof. revert s. induction evs as [|e evs IH]; intros s; [done|]. simpl. by rewrite IH. Qed.

Lemma trace_emit_all evs s : trace (emit_all evs s) = trace s ++ evs.
Proof.
  revert s. induction evs as [|e evs IH]; intros s; simpl.
  - by rewrite app_nil_r.
  - rewrite IH, trace_emit, <- app_assoc. done.
Qed.

Lemma broadcast_fold room_name message sender members : forall s0 s,
  clients s = clients s0 ->
  foldl (broadcast_member room_name message sender) s members =
  emit_all (broadcast_events room_name message sender s0 members) s.
Proof.
  induction members as [|j members IH]; intros s0 s Hc; [done|].
  simpl. rewrite emit_all_app. rewrite <- IH.
  - f_equal. unfold broadcast_member, client_at. rewrite Hc.
    by destruct (_ && _).
  - rewrite clients_emit_all. done.
Qed.

Lemma broadcast_to_room_events room_name message sender s :
  broadcast_to_room room_name message sender s =
  emit_all (match list_find (room_named room_name) (rooms s) with
            | Some (_, r) => broadcast_events room_name message sender s (Room.members r)
            | None => []
            end) s.
Proof.
  unfold broadcast_to_room. destruct (list_find _ _) as [[k r]|]; [|done].
  by apply broadcast_fold.
Qed.

Lemma new_events_app s s' evs : trace s' = trace s ++ evs -> new_events s s' = evs.
Proof. intros H. unfold new_events. by rewrite H, drop_app_length. Qed.

Lemma received_on_app fd evs evs' :
  received_on fd (evs ++ evs') = received_on fd evs ++ received_on fd evs'.
Proof. unfold received_on. by rewrite flat_map_app. Qed.

Lemma handle_broadcast_trace i message s :
  Client.current_room (client_at s i) <> EmptyString ->
  trace (handle_broadcast i message s) =
  trace s ++
  match list_find (room_named (Client.current_room (client_at s i))) (rooms s) with
  | Some (_, r) =>
      broadcast_events (Client.current_room (client_at s i)) message
        (Client.username (client_at s i)) s (Room.members r)
  | None => []
  end ++
  [Send (Client.socket (client_at s i)) ("[SUCCESS] Message broadcasted." +:+ LF);
   Log ("[BROADCAST] user '" +:+ Client.username (client_at s i) +:+ "': " +:+ message);
   Stdout ("[COMMAND] " +:+ Client.username (client_at s i) +:+ " broadcasted to '"
           +:+ Client.current_room (client_at s i) +:+ "'" +:+ LF)].
Proof.
  intros Hroom. unfold handle_broadcast.
  destruct (Z.eqb_spec (strlen (Client.current_room (client_at s i))) 0) as [Hz|_];
    [by apply strlen_zero in Hz|].
  srv_simpl. rewrite broadcast_to_room_events, trace_emit_all. by rewrite <- app_assoc.
Qed.

Lemma handle_broadcast_registry i message s :
  clients (handle_broadcast i message s) = clients s /\
  rooms (handle_broadcast i message s) = rooms s /\
  upload_queue (handle_broadcast i message s) = upload_queue s /\
  server_running (handle_broadcast i message s) = server_running s.
Proof.
  unfold handle_broadcast. destruct (_ =? 0); [done|].
  srv_simpl. rewrite broadcast_to_room_events.
  by rewrite clients_emit_all, rooms_emit_all, upload_queue_emit_all, server_running_emit_all.
Qed.
Lemma streq_false a b : streq a b = false <-> a <> b.
Proof. unfold streq. by rewrite String.eqb_neq. Qed.

Section Fanout.

Variables (s : Server) (room_name message sender : string).
Variables (j : nat) (cj : Client.t).

Hypothesis sockets : distinct_sockets s.
Hypothesis target : clients s !! j = Some cj.
Hypothesis target_active : Client.active cj = true.

(** A recipient loop over sessions none of which is to send to [j] leaves
    the descriptor of [j] alone. *)
Lemma broadcast_not_received members :
  (forall m, m ∈ members -> Client.active (client_at s m) = true) ->
  j ∉ members \/ Client.username cj = sender ->
  received_on (Client.socket cj)
    (broadcast_events room_name message sender s members) = [].
Proof.
  induction members as [|m members IH]; intros Hact Hj; [done|].
  simpl. rewrite received_on_app, IH; cycle 1.
  { intros m' Hm'. apply Hact. by right. }
  { destruct Hj as [Hj|Hj]; [left|by right]. intros Hin. apply Hj. by right. }
  rewrite app_nil_r.
  pose proof (Hact m (list_elem_of_here _ _)) as Hma. rewrite Hma. simpl.
  destruct (streq (Client.username (client_at s m)) sender) eqn:E; [done|].
  simpl. apply streq_false in E.
  destruct (Z.eqb_spec (Client.socket (client_at s m)) (Client.socket cj)) as [Heq|]; [|done].
  exfalso. destruct (decide (m = j)) as [->|Hne].
  - rewrite (client_at_lookup _ _ _ target) in E.
    destruct Hj as [Hj|Hj]; [|done]. apply Hj. by left.
  - apply (sockets m j (client_at s m) cj); try done.
    by apply client_at_active_lookup.
Qed.

(** A member other than the sender is sent the line once. *)
Lemma broadcast_received_once members :
  (forall m, m ∈ members -> Client.active (client_at s m) = true) ->
  NoDup members -> j ∈ members -> Client.username cj <> sender ->
  received_on (Client.socket cj)
    (broadcast_events room_name message sender s members)
  = [room_line room_name sender message].
Proof.
  induction members as [|m members IH]; intros Hact Hnd Hin Hname.
  - by apply elem_of_nil in Hin.
  - apply NoDup_cons in Hnd as [Hm Hnd]. simpl. rewrite received_on_app.
    destruct (decide (m = j)) as [->|Hne].
    + rewrite broadcast_not_received; [|intros m' Hm'; apply Hact; by right|by left].
      rewrite (client_at_lookup _ _ _ target), target_active.
      apply streq_false in Hname. rewrite Hname. simpl.
      by rewrite Z.eqb_refl.
    + apply elem_of_cons in Hin as [->|Hin]; [done|].
      rewrite IH; try done; [|intros m' Hm'; apply Hact; by right].
      pose proof (Hact m (list_elem_of_here _ _)) as Hma. rewrite Hma. simpl.
      destruct (streq (Client.username (client_at s m)) sender); [done|]. simpl.
      destruct (Z.eqb_spec (Client.socket (client_at s m)) (Client.socket cj)) as [Heq|];
        [|done].
      exfalso. apply (sockets m j (client_at s m) cj); try done.
      by apply client_at_active_lookup.
Qed.

End Fanout.
Lemma string_take_all n s : (String.length s <= n)%nat -> string_take n s = s.
Proof.
  revert n. induction s as [|a s IH]; intros [|n] Hn; simpl in *; try done; try lia.
  f_equal. apply IH. lia.
Qed.

Lemma room_line_fits room_name sender message :
  strlen room_name + strlen sender + strlen message + 6 <= BUFFER_SIZE - 1 ->
  room_line room_name sender message =
  "[" +:+ room_name +:+ "] " +:+ sender +:+ ": " +:+ message +:+ LF.
Proof.
  unfold strlen, room_line, snprintf, BUFFER_SIZE. intros Hfit.
  apply string_take_all. rewrite !length_app_string. cbn. lia.
Qed.

(** C2 (as amended): when a named session that is in a room broadcasts, each
    other session of that room is sent exactly one message, the line
    "[<room>] <sender>: <msg>" with its line feed cut to the 4095 bytes the
    format buffer holds (the whole line whenever it fits); the sender is sent
    only the success line; a session in no room or in another room is sent
    nothing. *)
Theorem broadcast_fanout i message s :
  wf_registry s ->
  Client.active (client_at s i) = true ->
  Client.username (client_at s i) <> EmptyString ->
  Client.current_room (client_at s i) <> EmptyString ->
  let room_name := Client.current_room (client_at s i) in
  let sender := Client.username (client_at s i) in
  let evs := new_events s (handle_broadcast i message s) in
  (forall j cj, clients s !! j = Some cj -> Client.active cj = true -> j <> i ->
     Client.current_room cj = room_name ->
     received_on (Client.socket cj) evs = [room_line room_name sender message]) /\
  received_on (Client.socket (client_at s i)) evs
    = ["[SUCCESS] Message broadcasted." +:+ LF] /\
  (forall j cj, clients s !! j = Some cj -> Client.active cj = true ->
     Client.current_room cj <> room_name ->
     received_on (Client.socket cj) evs = []) /\
  (strlen room_name + strlen sender + strlen message + 6 <= BUFFER_SIZE - 1 ->
   room_line room_name sender message =
   "[" +:+ room_name +:+ "] " +:+ sender +:+ ": " +:+ message +:+ LF).
Proof.
  intros Hwf Hact Hname Hroom room_name sender evs.
  set (X := Client.current_room (client_at s i)) in *.
  set (u := Client.username (client_at s i)) in *.
  subst room_name sender.
  pose proof Hwf as (Hlc & Hlr & Hu & Hs & Hr & Hn & Hm).
  pose proof (client_at_active_lookup s i Hact) as Hi.
  destruct (Hm i _ Hi Hact Hroom) as (k & r & Hk & Hra & Hrn & Hin).
  pose proof (find_room_unique s k r Hn Hk Hra) as Hfind. rewrite Hrn in Hfind.
  assert (Hevs : evs = broadcast_events X message u s (Room.members r) ++
            [Send (Client.socket (client_at s i)) ("[SUCCESS] Message broadcasted." +:+ LF);
             Log ("[BROADCAST] user '" +:+ u +:+ "': " +:+ message);
             Stdout ("[COMMAND] " +:+ u +:+ " broadcasted to '" +:+ X +:+ "'" +:+ LF)]).
  { unfold evs. apply new_events_app. rewrite handle_broadcast_trace by done.
    by rewrite Hfind. }
  clearbody evs. subst evs.
  destruct (Hr k r Hk Hra) as (_ & _ & Hnd & Hall).
  assert (Hmact : forall m, m ∈ Room.members r -> Client.active (client_at s m) = true).
  { intros m Hmin. destruct (Hall m Hmin) as (cm & Hcm & Hcma & _).
    by rewrite (client_at_lookup _ _ _ Hcm). }
  assert (Htail : forall j cj, clients s !! j = Some cj -> Client.active cj = true ->
            j <> i ->
            received_on (Client.socket cj)
              [Send (Client.socket (client_at s i)) ("[SUCCESS] Message broadcasted." +:+ LF);
               Log ("[BROADCAST] user '" +:+ u +:+ "': " +:+ message);
               Stdout ("[COMMAND] " +:+ u +:+ " broadcasted to '" +:+ X +:+ "'" +:+ LF)]
            = []).
  { intros j cj Hj Hcja Hji. simpl.
    destruct (Z.eqb_spec (Client.socket (client_at s i)) (Client.socket cj)) as [Heq|];
      [|done].
    exfalso. by apply (Hs i j (client_at s i) cj). }
  subst X u. split; [|split; [|split]].
  - intros j cj Hj Hcja Hji Hcjr. rewrite received_on_app, (Htail j cj) by done.
    rewrite app_nil_r. apply (broadcast_received_once s _ _ _ j cj); try done.
    + assert (Hcjr' : Client.current_room cj <> EmptyString) by congruence.
      destruct (Hm j cj Hj Hcja Hcjr') as (k' & r' & Hk' & Hra' & Hrn' & Hin').
      assert (k = k') as <- by (apply (Hn k k' r r'); try done; congruence).
      rewrite Hk in Hk'. by injection Hk' as <-.
    + destruct (Hu i j (client_at s i) cj Hi Hj) as [Hd|[He|He]]; try done; congruence.
  - rewrite received_on_app.
    rewrite (broadcast_not_received s _ _ _ i (client_at s i)); try done; [|by right].
    simpl. by rewrite Z.eqb_refl.
  - intros j cj Hj Hcja Hcjr.
    assert (Hji : j <> i).
    { intros ->. rewrite Hi in Hj. injection Hj as <-. done. }
    rewrite received_on_app, (Htail j cj) by done. rewrite app_nil_r.
    apply (broadcast_not_received s _ _ _ j cj); try done. left. intros Hjin.
    destruct (member_room s k r j cj Hwf Hk Hra Hjin Hj) as (_ & Heq & _).
    apply Hcjr. congruence.
  - apply room_line_fits.
Qed.
Lemma fresh_fd_Forall fd s :
  0 <= fd ->
  Forall (fun c => Client.active c = false \/ Client.socket c <> fd) (clients s) ->
  fresh_fd fd s.
Proof.
  intros Hfd Hall. split; [done|]. intros i c Hi Hact.
  rewrite Forall_forall in Hall. destruct (Hall c) as [Hoff|Hne]; try done.
  - apply list_elem_of_lookup. by exists i.
  - congruence.
Qed.

Lemma wf_example_alice : wf_registry example_alice.
Proof.
  apply wf_naming_attempt, wf_accept_connection; [apply wf_registry_init|].
  apply fresh_fd_Forall; [done|]. vm_compute. repeat constructor.
Qed.

Lemma wf_example_two_users : wf_registry example_two_users.
Proof.
  apply wf_naming_attempt, wf_accept_connection; [apply wf_example_alice|].
  apply fresh_fd_Forall; [done|]. vm_compute.
  repeat (constructor; [first [by left | by right]|]). constructor.
Qed.

Lemma wf_example_room : wf_registry example_room.
Proof.
  apply wf_handle_join_room; [apply wf_handle_join_room|]; try reflexivity.
  apply wf_example_two_users.
Qed.

Lemma broadcast_fanout_witness :
  wf_registry example_room /\
  Client.active (client_at example_room 0) = true /\
  Client.username (client_at example_room 0) <> EmptyString /\
  Client.current_room (client_at example_room 0) <> EmptyString /\
  received_on (Client.socket (client_at example_room 0))
    (new_events example_room (handle_broadcast 0 "hi" example_room))
    = ["[SUCCESS] Message broadcasted." +:+ LF].
Proof.
  assert (H1 : wf_registry example_room) by exact wf_example_room.
  assert (H2 : Client.active (client_at example_room 0) = true) by reflexivity.
  assert (H3 : Client.username (client_at example_room 0) <> EmptyString)
    by (vm_compute; discriminate).
  assert (H4 : Client.current_room (client_at example_room 0) <> EmptyString)
    by (vm_compute; discriminate).
  do 4 (split; [assumption|]).
  destruct (broadcast_fanout 0 "hi" example_room H1 H2 H3 H4) as (_ & Hsender & _).
  exact Hsender.
Defined.

(** C2, as stated, fails for a long message: [alice] and [bob] are in
    [room1] and [alice] broadcasts 4084 characters.  The line with its line
    feed would be 4100 bytes; [bob] is sent its first 4095 bytes, which is not
    the line of the claim. *)
Lemma broadcast_long_line_counterexample :
  let evs := new_events example_room (handle_broadcast 0 long_message example_room) in
  strlen long_message = 4084 /\
  received_on 5 evs = [string_take 4095 ("[room1] alice: " +:+ long_message +:+ LF)] /\
  received_on 5 evs <> ["[room1] alice: " +:+ long_message +:+ LF].
Proof.
  split; [reflexivity|]. split; [vm_compute; reflexivity|].
  intros H. apply (f_equal (fun l => String.length <$> l)) in H.
  vm_compute in H. discriminate.
Qed.

(** ** What the room handlers leave alone *)

Lemma find_or_create_room_clients X s : clients (find_or_create_room X s).2 = clients s.
Proof.
  unfold find_or_create_room.
  destruct (list_find (room_named X) (rooms s)) as [[k r]|]; [done|].
  by destruct (list_find room_free (rooms s)) as [[k r]|].
Qed.

Lemma join_locked_keys i k X s s' :
  join_locked i k X s = Some s' -> lookup_key <$> clients s' = lookup_key <$> clients s.
Proof.
  unfold join_locked. destruct (_ >=? MAX_CLIENTS); [done|]. intros [= <-].
  rewrite client_at_set_room.
  by rewrite (keys_set_client (set_room _ _ s)).
Qed.

Lemma handle_join_room_keys i X s :
  lookup_key <$> clients (handle_join_room i X s) = lookup_key <$> clients s.
Proof.
  unfold handle_join_room. destruct (validate_room_name X); simpl; [|done].
  set (s1 := if strlen (Client.current_room (client_at s i)) >? 0
             then handle_leave_room i s else s).
  assert (H1 : lookup_key <$> clients s1 = lookup_key <$> clients s).
  { unfold s1. destruct (_ >? 0); [apply handle_leave_room_keys|done]. }
  clearbody s1. rewrite <- H1.
  pose proof (find_or_create_room_clients X s1) as Hf.
  destruct (find_or_create_room X s1) as [[k|] s2]; simpl in Hf; [|by srv_simpl; rewrite Hf].
  destruct (join_locked i k X s2) as [s3|] eqn:Ej; srv_simpl; [|by rewrite Hf].
  rewrite (join_locked_keys _ _ _ _ _ Ej). by rewrite Hf.
Qed.

Lemma keys_client_at s s' j :
  lookup_key <$> clients s' = lookup_key <$> clients s ->
  Client.active (client_at s' j) = Client.active (client_at s j) /\
  Client.username (client_at s' j) = Client.username (client_at s j).
Proof.
  intros Hk. apply (f_equal (fun l => l !! j)) in Hk.
  rewrite !list_lookup_fmap in Hk. unfold client_at.
  destruct (clients s' !! j), (clients s !! j); simpl in *; try done.
  injection Hk as ? ?. done.
Qed.

(** ** Join followed by leave *)

Lemma leave_locked_rooms_only_member s i k r :
  wf_registry s -> rooms s !! k = Some r -> Room.active r = true ->
  Room.members r = [i] -> clients s !! i = Some (client_at s i) ->
  rooms (leave_locked i s) = <[k := Room.mk (Room.name r) [] false]> (rooms s).
Proof.
  intros Hwf Hk Ha Hms Hi.
  assert (Hin : i ∈ Room.members r) by (rewrite Hms; by left).
  destruct (member_room s k r i _ Hwf Hk Ha Hin Hi) as (_ & Hroom & _).
  destruct Hwf as (_ & _ & _ & _ & _ & Hn & _).
  unfold leave_locked. rewrite Hroom, (find_room_unique s k r) by done.
  rewrite rooms_set_room, Hms. simpl. by destruct (decide (i = i)).
Qed.

(** C9. For a session that is in no room, [/join X] with a valid name
    followed by [/leave] leaves its [current_room] empty again; if the join
    made it the only member of X, no room named X is active afterwards; and
    the registries are again well formed (in particular every active room
    has a member). *)
Theorem join_leave_round_trip i X s :
  wf_registry s ->
  Client.active (client_at s i) = true ->
  Client.current_room (client_at s i) = EmptyString ->
  validate_room_name X = true ->
  let s1 := handle_join_room i X s in
  let s2 := handle_leave_room i s1 in
  Client.current_room (client_at s2 i) = EmptyString /\
  ((exists k r, rooms s1 !! k = Some r /\ Room.active r = true /\
                Room.name r = X /\ Room.members r = [i]) ->
   forall k r, rooms s2 !! k = Some r -> Room.name r = X -> Room.active r = false) /\
  wf_registry s2.
Proof.
  intros Hwf Hact Hroom HX s1 s2.
  pose proof (wf_handle_join_room s i X Hwf Hact) as Hwf1. fold s1 in Hwf1.
  assert (Hact1 : Client.active (client_at s1 i) = true).
  { destruct (keys_client_at s s1 i (handle_join_room_keys i X s)) as [-> _]. done. }
  pose proof (client_at_active_lookup s1 i Hact1) as Hi1.
  split; [|split].
  - apply handle_leave_room_current_room. by apply lookup_lt_Some in Hi1.
  - intros (k & r & Hk & Ha & Hn & Hms) k' r' Hk' Hn'.
    assert (Hin : i ∈ Room.members r) by (rewrite Hms; by left).
    destruct (member_room s1 k r i _ Hwf1 Hk Ha Hin Hi1) as (_ & Hcr & Hne).
    unfold s2 in Hk'. rewrite handle_leave_room_rooms in Hk'.
    destruct (Z.eqb_spec (strlen (Client.current_room (client_at s1 i))) 0) as [Hz|_];
      [by apply strlen_zero in Hz|].
    rewrite (leave_locked_rooms_only_member s1 i k r) in Hk' by done.
    destruct (decide (k = k')) as [<-|Hkk].
    + rewrite list_lookup_insert_eq in Hk' by (by apply lookup_lt_Some in Hk).
      by injection Hk' as <-.
    + rewrite list_lookup_insert_ne in Hk' by done.
      destruct (Room.active r') eqn:Ha'; [|done].
      destruct Hwf1 as (_ & _ & _ & _ & _ & Hnu & _).
      exfalso. apply Hkk. apply (Hnu k k' r r'); try done. congruence.
  - by apply wf_handle_leave_room.
Qed.

Lemma join_leave_round_trip_witness :
  wf_registry example_two_users /\
  Client.active (client_at example_two_users 0) = true /\
  Client.current_room (client_at example_two_users 0) = EmptyString /\
  validate_room_name "room1" = true /\
  Client.current_room
    (client_at (handle_leave_room 0 (handle_join_room 0 "room1" example_two_users)) 0)
  = EmptyString /\
  forall k r,
    rooms (handle_leave_room 0 (handle_join_room 0 "room1" example_two_users)) !! k = Some r ->
    Room.name r = "room1" -> Room.active r = false.
Proof.
  assert (H1 : wf_registry example_two_users) by exact wf_example_two_users.
  assert (H2 : Client.active (client_at example_two_users 0) = true) by reflexivity.
  assert (H3 : Client.current_room (client_at example_two_users 0) = EmptyString)
    by reflexivity.
  assert (H4 : validate_room_name "room1" = true) by reflexivity.
  do 4 (split; [assumption|]).
  destruct (join_leave_round_trip 0 "room1" example_two_users H1 H2 H3 H4)
    as (Hroom & Hgone & _).
  split; [exact Hroom|]. apply Hgone.
  exists 0%nat, (Room.mk "room1" [0%nat] true). repeat split; reflexivity.
Defined.


(** ** What each operation leaves alone *)

Lemma leave_locked_frame i s :
  upload_queue (leave_locked i s) = upload_queue s /\
  server_running (leave_locked i s) = server_running s.
Proof. unfold leave_locked. by destruct (list_find _ _) as [[k r]|]. Qed.

Lemma handle_leave_room_frame i s :
  upload_queue (handle_leave_room i s) = upload_queue s /\
  server_running (handle_leave_room i s) = server_running s.
Proof.
  unfold handle_leave_room. destruct (_ =? 0); [done|].
  srv_simpl. apply leave_locked_frame.
Qed.

Lemma handle_join_room_frame i X s :
  upload_queue (handle_join_room i X s) = upload_queue s /\
  server_running (handle_join_room i X s) = server_running s.
Proof.
  unfold handle_join_room. destruct (validate_room_name X); simpl; [|done].
  set (s1 := if strlen (Client.current_room (client_at s i)) >? 0
             then handle_leave_room i s else s).
  assert (H1 : upload_queue s1 = upload_queue s /\ server_running s1 = server_running s).
  { unfold s1. destruct (_ >? 0); [apply handle_leave_room_frame|done]. }
  clearbody s1. destruct H1 as [<- <-].
  unfold find_or_create_room.
  destruct (list_find (room_named X) (rooms s1)) as [[k r]|].
  - unfold join_locked. by destruct (_ >=? MAX_CLIENTS).
  - destruct (list_find room_free (rooms s1)) as [[k r]|]; [|done].
    unfold join_locked. by destruct (_ >=? MAX_CLIENTS).
Qed.

Lemma handle_whisper_frame i target message s :
  clients (handle_whisper i target message s) = clients s /\
  rooms (handle_whisper i target message s) = rooms s /\
  upload_queue (handle_whisper i target message s) = upload_queue s /\
  server_running (handle_whisper i target message s) = server_running s.
Proof. unfold handle_whisper. by destruct (find_client_by_username _ _). Qed.

Lemma run_command_frame i cmd s :
  upload_queue (run_command i cmd s) = upload_queue s /\
  server_running (run_command i cmd s) = server_running s.
Proof.
  destruct cmd; simpl; try done.
  - apply handle_join_room_frame.
  - apply handle_leave_room_frame.
  - by destruct (handle_broadcast_registry i message s) as (_ & _ & ? & ?).
  - by destruct (handle_whisper_frame i target message s) as (_ & _ & ? & ?).
Qed.

Lemma run_command_keys i cmd s :
  lookup_key <$> clients (run_command i cmd s) = lookup_key <$> clients s.
Proof.
  destruct cmd; simpl; try done.
  - apply handle_join_room_keys.
  - apply handle_leave_room_keys.
  - by destruct (handle_broadcast_registry i message s) as (-> & _).
  - by destruct (handle_whisper_frame i target message s) as (-> & _).
Qed.

Lemma wf_run_command i cmd s :
  wf_registry s -> Client.active (client_at s i) = true ->
  wf_registry (run_command i cmd s).
Proof.
  intros Hwf Hact. destruct cmd; simpl; try by apply wf_registry_emit.
  - by apply wf_handle_join_room.
  - by apply wf_handle_leave_room.
  - destruct (handle_broadcast_registry i message s) as (Hc & Hr & _).
    by apply (wf_registry_same s).
  - destruct (handle_whisper_frame i target message s) as (Hc & Hr & _).
    by apply (wf_registry_same s).
Qed.

Lemma cleanup_client_frame i s :
  upload_queue (cleanup_client i s) = upload_queue s /\
  server_running (cleanup_client i s) = server_running s.
Proof.
  unfold cleanup_client. destruct (Client.active _); simpl; [|done].
  unfold cleanup_clear_room, cleanup_clear_username, cleanup_deactivate. srv_simpl.
  assert (H3 : forall s', upload_queue (cleanup_close i s') = upload_queue s' /\
                          server_running (cleanup_close i s') = server_running s').
  { intros s'. unfold cleanup_close. by destruct (negb _). }
  assert (H2 : forall s', upload_queue (cleanup_log i s') = upload_queue s' /\
                          server_running (cleanup_log i s') = server_running s').
  { intros s'. unfold cleanup_log. by destruct (_ >? 0). }
  assert (H1 : upload_queue (cleanup_leave i s) = upload_queue s /\
               server_running (cleanup_leave i s) = server_running s).
  { unfold cleanup_leave. destruct (_ >? 0); [apply handle_leave_room_frame|done]. }
  destruct (H3 (cleanup_log i (cleanup_leave i s))) as [-> ->].
  destruct (H2 (cleanup_leave i s)) as [-> ->]. done.
Qed.

Lemma cleanup_client_others i s j :
  i <> j -> client_at (cleanup_client i s) j = client_at s j.
Proof.
  intros Hne. destruct (Client.active (client_at s i)) eqn:Hact;
    [|unfold cleanup_client; by rewrite Hact].
  destruct (cleanup_client_registry s i Hact) as [_ Hc].
  unfold client_at at 1. rewrite Hc, list_lookup_insert_ne by done.
  unfold cleanup_leave. destruct (_ >? 0); [|done].
  by apply handle_leave_room_other.
Qed.

Lemma quit_session_frame i q s :
  upload_queue (quit_session i q s) = upload_queue s /\
  server_running (quit_session i q s) = server_running s.
Proof.
  destruct q; simpl;
    match goal with |- context [cleanup_client i ?s'] =>
      destruct (cleanup_client_frame i s') as [-> ->] end; done.
Qed.

Lemma quit_session_others i q s j :
  i <> j -> client_at (quit_session i q s) j = client_at s j.
Proof. intros Hne. destruct q; simpl; by rewrite cleanup_client_others. Qed.

Lemma wf_quit_session i q s : wf_registry s -> wf_registry (quit_session i q s).
Proof.
  intros Hwf. destruct q; simpl; apply wf_cleanup_client;
    first [done | by apply wf_registry_emit].
Qed.
Lemma accept_connection_frame fd addr s :
  upload_queue (accept_connection fd addr s).2 = upload_queue s /\
  server_running (accept_connection fd addr s).2 = server_running s.
Proof. unfold accept_connection. by destruct (list_find _ _) as [[i c]|]. Qed.

Lemma accept_connection_slot fd addr s i :
  (accept_connection fd addr s).1 = Some i ->
  Client.active (client_at s i) = false /\
  Client.active (client_at (accept_connection fd addr s).2 i) = true /\
  forall j, i <> j -> client_at (accept_connection fd addr s).2 j = client_at s j.
Proof.
  unfold accept_connection.
  destruct (list_find slot_free (clients s)) as [[k c]|] eqn:E; simpl; [|done].
  intros [= ->]. apply list_find_Some in E as (Hi & Hfree & _).
  rewrite (client_at_lookup _ _ _ Hi). split; [done|]. split.
  - rewrite client_at_set_client_eq; [done|]. by apply lookup_lt_Some in Hi.
  - intros j Hne. by apply client_at_set_client_ne.
Qed.

Lemma accept_connection_full fd addr s :
  (accept_connection fd addr s).1 = None ->
  clients (accept_connection fd addr s).2 = clients s.
Proof. unfold accept_connection. by destruct (list_find _ _) as [[i c]|]. Qed.

Lemma login_frame i u s :
  upload_queue (login i u s).2 = upload_queue s /\
  server_running (login i u s).2 = server_running s.
Proof. unfold login. destruct (_ || _); simpl; [apply cleanup_client_frame|done]. Qed.

Lemma naming_attempt_frame i received s :
  upload_queue (naming_attempt i received s).2 = upload_queue s /\
  server_running (naming_attempt i received s).2 = server_running s.
Proof.
  unfold naming_attempt. destruct (_ && _); [|apply cleanup_client_frame].
  destruct received as [data|].
  - destruct (validate_username _); simpl; [|done].
    srv_simpl. destruct (find_client_by_username _ s); simpl; [done|].
    match goal with |- context [login i ?u ?s'] =>
      destruct (login_frame i u s') as [-> ->] end. done.
  - simpl. match goal with |- context [cleanup_client i ?s'] =>
      destruct (cleanup_client_frame i s') as [-> ->] end. done.
Qed.

Lemma login_others i u s j :
  i <> j -> client_at (login i u s).2 j = client_at s j.
Proof.
  intros Hne. unfold login. destruct (_ || _); simpl; [|done].
  by apply cleanup_client_others.
Qed.

Lemma naming_attempt_others i received s j :
  i <> j -> client_at (naming_attempt i received s).2 j = client_at s j.
Proof.
  intros Hne. unfold naming_attempt.
  destruct (_ && _); [|by apply cleanup_client_others].
  destruct received as [data|].
  - destruct (validate_username _); simpl; [|done].
    srv_simpl. destruct (find_client_by_username _ s); simpl; [done|].
    rewrite login_others by done. by rewrite client_at_set_client_ne.
  - simpl. by rewrite cleanup_client_others.
Qed.

Lemma naming_attempt_active i received s :
  (naming_attempt i received s).1 <> Naming_closed ->
  Client.active (client_at (naming_attempt i received s).2 i) = true.
Proof.
  unfold naming_attempt.
  destruct (server_running s) eqn:Hrun; simpl; [|done].
  destruct (Client.active (client_at s i)) eqn:Hact; simpl; [|done].
  destruct received as [data|]; [|done].
  destruct (validate_username _); simpl; [|done].
  srv_simpl. destruct (find_client_by_username _ s); simpl; [done|].
  pose proof (client_at_active_lookup s i Hact) as Hi.
  unfold login. rewrite server_running_set_client, server_running_emit, Hrun.
  rewrite client_at_set_client_eq by (rewrite clients_emit; by apply lookup_lt_Some in Hi).
  simpl. rewrite Hact. simpl. srv_simpl. intros _.
  rewrite client_at_set_client_eq by (rewrite clients_emit; by apply lookup_lt_Some in Hi).
  done.
Qed.

Lemma sendfile_begin_frame i filename target stat_result st0 s :
  match sendfile_begin i filename target stat_result st0 s with
  | Rejected s' | Must_wait _ s' =>
      clients s' = clients s /\ rooms s' = rooms s /\
      upload_queue s' = upload_queue s /\ server_running s' = server_running s
  | Got_slot _ s' =>
      clients s' = clients s /\ rooms s' = rooms s /\
      acquire_slots (upload_queue s) = Some (upload_queue s') /\
      server_running s' = server_running s
  end.
Proof.
  unfold sendfile_begin. destruct (validate_filename filename); simpl; [|done].
  destruct (find_client_by_username target s); [|done].
  destruct (match stat_result with Some b => _ | None => _ end); [done|].
  by destruct (acquire_slots (upload_queue s)) eqn:E.
Qed.

Lemma report_transfer_frame fast i filename target s :
  clients (report_transfer fast i filename target s) = clients s /\
  rooms (report_transfer fast i filename target s) = rooms s /\
  upload_queue (report_transfer fast i filename target s) = upload_queue s /\
  server_running (report_transfer fast i filename target s) = server_running s.
Proof. unfold report_transfer. by destruct fast. Qed.

Lemma deliver_frame t s :
  clients (deliver t s) = clients s /\ rooms (deliver t s) = rooms s /\
  upload_queue (deliver t s) = upload_queue s /\
  server_running (deliver t s) = server_running s.
Proof. unfold deliver. by destruct (find_client_by_username _ _). Qed.

Lemma signal_finish_frame s :
  clients (signal_finish s) = clients s /\ rooms (signal_finish s) = rooms s /\
  upload_queue (signal_finish s) = upload_queue s /\
  server_running (signal_finish s) = server_running s.
Proof. unfold signal_finish. by rewrite notify_fold. Qed.

(** ** Sums over the session threads *)

Lemma total_insert f l i pc pc' :
  l !! i = Some pc -> total f (<[i := pc']> l) = total f l - f pc + f pc'.
Proof.
  revert i. induction l as [|a l IH]; intros [|i] Hi; simpl in *; try done.
  - injection Hi as ->. lia.
  - rewrite (IH i Hi). lia.
Qed.

Lemma total_at_rest l :
  Forall session_at_rest l -> total holds_slot l = 0 /\ total unpublished l = 0.
Proof.
  induction 1 as [|pc l Hpc _ [IH1 IH2]]; simpl; [done|].
  rewrite IH1, IH2. by destruct pc.
Qed.

(** ** The invariants along the steps of the system *)

Ltac step_cases Hstep :=
  destruct Hstep as
    [ y fd addr Hh Hfresh
    | y i received Hh Hpc
    | y i cmd Hh Hpc Hloop
    | y i q Hh Hpc Hq
    | y i fname target stat_result st0 Hh Hpc Hloop
    | y i fname target st q Hh Hpc Hacq
    | y i fast fname target st now Hh Hpc
    | y i fast fname target Hh Hpc
    | y i fast fname target Hh Hpc
    | y Hh Hw
    | y q Hh Hw Hacq
    | y Hh Hw
    | y Hh Hw
    | y t Hh Hw
    | y Hh Hw
    | y Hh Hrun
    | y Hh Hrun ].

Ltac unfold_steps :=
  unfold sys_accept, sys_naming, sys_command, sys_quit, sys_sendfile, sys_sendfile_wake,
    sys_sendfile_commit, sys_sendfile_publish, sys_sendfile_report, sys_worker_loop,
    sys_worker_wake, sys_worker_check, sys_worker_take, sys_worker_deliver,
    sys_worker_release, sys_signal_begin, sys_signal_finish.

Lemma loop_condition_active i s :
  loop_condition i s = true -> Client.active (client_at s i) = true.
Proof. unfold loop_condition. by intros [_ ?]%andb_prop. Qed.

Lemma step_wf_registry y y' :
  step y y' -> wf_registry (server y) -> wf_registry (server y').
Proof.
  intros Hstep Hwf. step_cases Hstep; unfold_steps; simpl.
  - pose proof (wf_accept_connection (server y) fd addr Hwf Hfresh) as Hwf'.
    destruct (accept_connection fd addr (server y)) as [[i|] s']; done.
  - pose proof (wf_naming_attempt (server y) i received Hwf) as Hwf'.
    destruct (naming_attempt i received (server y)) as [r s']; done.
  - apply wf_run_command; [done|]. by apply loop_condition_active.
  - by apply wf_quit_session.
  - pose proof (sendfile_begin_frame i fname target stat_result st0 (server y)) as Hf.
    destruct (sendfile_begin _ _ _ _ _ _) as [s'|st s'|st s'];
      destruct Hf as (Hc & Hr & _); by apply (wf_registry_same (server y)).
  - done.
  - done.
  - done.
  - destruct (report_transfer_frame fast i fname target (server y)) as (Hc & Hr & _).
    by apply (wf_registry_same (server y)).
  - done.
  - done.
  - done.
  - done.
  - destruct (deliver_frame t (server y)) as (Hc & Hr & _).
    by apply (wf_registry_same (server y)).
  - done.
  - done.
  - destruct (signal_finish_frame (server y)) as (Hc & Hr & _).
    by apply (wf_registry_same (server y)).
Qed.

Lemma threads_ok_same y y' :
  sessions y' = sessions y ->
  (forall j, Client.active (client_at (server y') j) = Client.active (client_at (server y) j)) ->
  threads_ok y -> threads_ok y'.
Proof.
  intros Hs Ha [Hlen Hpc]. split; [by rewrite Hs|].
  intros i pc Hi Hne. rewrite Ha. apply (Hpc i pc); [|done]. by rewrite <- Hs.
Qed.

Lemma threads_ok_clients y s' :
  clients s' = clients (server y) -> threads_ok y -> threads_ok (with_server s' y).
Proof.
  intros Hc. apply threads_ok_same; [done|]. intros j. simpl. unfold client_at. by rewrite Hc.
Qed.

Lemma threads_ok_active y i pc :
  threads_ok y -> sessions y !! i = Some pc -> pc <> At_free ->
  Client.active (client_at (server y) i) = true.
Proof. intros [_ Hpc]. apply Hpc. Qed.

Lemma threads_ok_ext y1 y2 :
  sessions y2 = sessions y1 -> server y2 = server y1 -> threads_ok y1 -> threads_ok y2.
Proof. unfold threads_ok. by intros -> ->. Qed.

(** A step of the thread of slot [i]. *)
Lemma threads_ok_slot y s' i pc' :
  (forall j, i <> j ->
     Client.active (client_at s' j) = Client.active (client_at (server y) j)) ->
  (pc' <> At_free -> Client.active (client_at s' i) = true) ->
  threads_ok y -> threads_ok (with_session i pc' (with_server s' y)).
Proof.
  intros Ha Hi [Hlen Hpc]. split; [simpl; by rewrite length_insert|].
  intros j pc Hj Hne. simpl in *.
  destruct (decide (i = j)) as [<-|Hij].
  - apply lookup_lt_Some in Hj as Hlt. rewrite length_insert in Hlt.
    rewrite list_lookup_insert_eq in Hj by done. injection Hj as <-. by apply Hi.
  - rewrite list_lookup_insert_ne in Hj by done. rewrite Ha by done. by apply (Hpc j pc).
Qed.

Lemma threads_ok_slot_same y s' i pc pc' :
  clients s' = clients (server y) -> sessions y !! i = Some pc -> pc <> At_free ->
  threads_ok y -> threads_ok (with_session i pc' (with_server s' y)).
Proof.
  intros Hc Hi Hne Hok.
  assert (Hat : forall j, client_at s' j = client_at (server y) j)
    by (intros j; unfold client_at; by rewrite Hc).
  apply threads_ok_slot; try done.
  - intros j _. by rewrite Hat.
  - intros _. rewrite Hat. by apply (threads_ok_active y i pc).
Qed.

Lemma step_threads_ok y y' : step y y' -> threads_ok y -> threads_ok y'.
Proof.
  intros Hstep Hok. step_cases Hstep; unfold_steps.
  - pose proof (accept_connection_slot fd addr (server y)) as Hslot.
    pose proof (accept_connection_full fd addr (server y)) as Hfull.
    destruct (accept_connection fd addr (server y)) as [[i|] s']; simpl in *.
    + destruct (Hslot i eq_refl) as (_ & Hon & Hothers).
      apply threads_ok_slot; try done. intros j Hne. by rewrite Hothers.
    + apply threads_ok_clients; [|done]. by apply Hfull.
  - pose proof (naming_attempt_others i received (server y)) as Hothers.
    pose proof (naming_attempt_active i received (server y)) as Hon.
    destruct (naming_attempt i received (server y)) as [r s']; simpl in *.
    apply threads_ok_slot; try done.
    + intros j Hne. by rewrite Hothers.
    + intros Hfree. apply Hon. by destruct r.
  - apply (threads_ok_same y); [done| |done]. intros j. simpl.
    by destruct (keys_client_at (server y) _ j (run_command_keys i cmd (server y))).
  - apply threads_ok_slot; try done. intros j Hne. by rewrite quit_session_others.
  - pose proof (sendfile_begin_frame i fname target stat_result st0 (server y)) as Hf.
    destruct (sendfile_begin _ _ _ _ _ _) as [s'|st s'|st s']; destruct Hf as (Hc & _).
    + by apply threads_ok_clients.
    + by apply (threads_ok_slot_same y s' i At_command).
    + by apply (threads_ok_slot_same y s' i At_command).
  - by apply (threads_ok_slot_same y _ i (At_sendfile_wait fname target st)).
  - apply (threads_ok_ext
             (with_session i (At_sendfile_commit fast fname target)
                (with_server (commit_transfer
                   (make_transfer fname (Client.username (client_at (server y) i))
                      target st now) (server y)) y))); try done.
    by apply (threads_ok_slot_same y _ i (At_sendfile_slot fast fname target st)).
  - by apply (threads_ok_slot_same y _ i (At_sendfile_commit fast fname target)).
  - apply (threads_ok_slot_same y _ i (At_sendfile_report fast fname target)); try done.
    by destruct (report_transfer_frame fast i fname target (server y)) as (-> & _).
  - by apply (threads_ok_ext y).
  - by apply (threads_ok_ext (with_server (set_upload_queue q (server y)) y));
      [..|apply threads_ok_clients].
  - by apply (threads_ok_ext y).
  - by apply (threads_ok_ext
                (with_server (set_upload_queue (dequeue_locked (upload_queue (server y))).2
                                (server y)) y)); [..|apply threads_ok_clients].
  - apply (threads_ok_ext (with_server (deliver t (server y)) y)); try done.
    apply threads_ok_clients; [|done]. by destruct (deliver_frame t (server y)) as (-> & _).
  - by apply (threads_ok_ext
                (with_server (set_upload_queue (post_slots (upload_queue (server y)))
                                (server y)) y)); [..|apply threads_ok_clients].
  - by apply threads_ok_clients.
  - apply (threads_ok_ext (with_server (signal_finish (server y)) y)); try done.
    apply threads_ok_clients; [|done].
    by destruct (signal_finish_frame (server y)) as (-> & _).
Qed.
Lemma total_insert_same f l i pc' :
  (forall pc, l !! i = Some pc -> f pc = f pc') -> total f (<[i := pc']> l) = total f l.
Proof.
  intros Hsame. destruct (l !! i) as [pc|] eqn:Hi.
  - rewrite (total_insert f l i pc pc' Hi), (Hsame pc eq_refl). lia.
  - rewrite list_insert_ge; [done|]. by apply lookup_ge_None.
Qed.

Lemma total_bounds l :
  0 <= total unpublished l /\ total unpublished l <= total holds_slot l.
Proof. induction l as [|pc l [IH1 IH2]]; simpl; [done|]. destruct pc; simpl; lia. Qed.

(** A session that holds a permit without a record in the buffer leaves
    room for one. *)
Lemma total_slot_pending l i fast filename target st :
  l !! i = Some (At_sendfile_slot fast filename target st) ->
  total unpublished l + 1 <= total holds_slot l.
Proof.
  intros Hi.
  pose proof (total_insert unpublished l i _ At_free Hi) as Hu.
  pose proof (total_insert holds_slot l i _ At_free Hi) as Hh.
  pose proof (total_bounds (<[i := At_free]> l)). simpl in *. lia.
Qed.

Lemma queue_inv_server s' y :
  upload_queue s' = upload_queue (server y) -> queue_inv y -> queue_inv (with_server s' y).
Proof. unfold queue_inv. simpl. by intros ->. Qed.

Lemma queue_inv_session s' y i pc' :
  upload_queue s' = upload_queue (server y) ->
  (forall pc, sessions y !! i = Some pc ->
     holds_slot pc = holds_slot pc' /\ unpublished pc = unpublished pc') ->
  queue_inv y -> queue_inv (with_session i pc' (with_server s' y)).
Proof.
  unfold queue_inv. simpl. intros -> Hpc.
  rewrite !total_insert_same; [done|..]; intros pc Hi; by destruct (Hpc pc Hi).
Qed.

Lemma acquire_items_Some q q' :
  acquire_items q = Some q' <-> 0 < items q /\ q' = set_items (items q - 1) q.
Proof.
  unfold acquire_items. destruct (Z.gtb_spec (items q) 0); split.
  - intros [= <-]. split; [lia|done].
  - by intros [_ ->].
  - discriminate.
  - intros [? _]. lia.
Qed.

(** Taking a permit of [slots] at the start of an enqueue. *)
Lemma queue_inv_acquire y s' i pc fast filename target st :
  acquire_slots (upload_queue (server y)) = Some (upload_queue s') ->
  sessions y !! i = Some pc -> holds_slot pc = 0 -> unpublished pc = 0 ->
  queue_inv y ->
  queue_inv (with_session i (At_sendfile_slot fast filename target st) (with_server s' y)).
Proof.
  unfold queue_inv. simpl. intros Hacq Hi Hh Hu (Hring & Hs & Hit & Hperm & Hcount & Hc & Ht).
  apply acquire_slots_Some in Hacq as [Hpos ->].
  rewrite (total_insert holds_slot _ _ _ _ Hi), (total_insert unpublished _ _ _ _ Hi).
  simpl. split; [exact Hring|]. repeat split; try done; try lia.
Qed.

Lemma step_queue_inv y y' :
  step y y' -> wf_registry (server y) -> threads_ok y -> queue_inv y -> queue_inv y'.
Proof.
  intros Hstep Hwf Hok Hinv. step_cases Hstep; unfold_steps.
  - pose proof (accept_connection_slot fd addr (server y)) as Hslot.
    destruct (accept_connection_frame fd addr (server y)) as [Hq _].
    destruct (accept_connection fd addr (server y)) as [[i|] s']; simpl in *.
    + apply queue_inv_session; try done. intros pc Hi.
      destruct (Hslot i eq_refl) as (Hoff & _).
      destruct pc; try done; pose proof (threads_ok_active y i _ Hok Hi) as Hact;
        rewrite Hact in Hoff; done.
    + by apply queue_inv_server.
  - destruct (naming_attempt_frame i received (server y)) as [Hq _].
    destruct (naming_attempt i received (server y)) as [r s']; simpl in *.
    apply queue_inv_session; try done. intros pc Hi. rewrite Hpc in Hi.
    injection Hi as <-. by destruct r.
  - apply queue_inv_server; [|done]. by destruct (run_command_frame i cmd (server y)).
  - apply queue_inv_session; try done.
    + by destruct (quit_session_frame i q (server y)).
    + intros pc Hi. rewrite Hpc in Hi. by injection Hi as <-.
  - pose proof (sendfile_begin_frame i fname target stat_result st0 (server y)) as Hf.
    destruct (sendfile_begin _ _ _ _ _ _) as [s'|st s'|st s'];
      destruct Hf as (_ & _ & Hq & _).
    + by apply queue_inv_server.
    + by apply (queue_inv_acquire y s' i At_command).
    + apply queue_inv_session; try done. intros pc Hi. rewrite Hpc in Hi.
      by injection Hi as <-.
  - by apply (queue_inv_acquire y _ i (At_sendfile_wait fname target st)).
  - destruct Hinv as (Hring & Hs & Hit & Hperm & Hcount & Hc & Ht).
    pose proof (total_slot_pending _ _ _ _ _ _ Hpc) as Hpend.
    pose proof (total_bounds (sessions y)) as [Hu0 _].
    assert (Hwu : worker_untaken (worker y) <= worker_holds (worker y))
      by (destruct (worker y); simpl; lia).
    assert (Hlt : count (upload_queue (server y)) < MAX_UPLOAD_QUEUE) by lia.
    unfold queue_inv. simpl.
    rewrite (total_insert holds_slot _ _ _ _ Hpc), (total_insert unpublished _ _ _ _ Hpc).
    simpl. split; [by apply ring_ok_enqueue|]. repeat split; try done; try lia.
    rewrite contents_enqueue by done. unfold fifo_enqueue. by rewrite Hc, app_assoc.
  - destruct Hinv as (Hring & Hs & Hit & Hperm & Hcount & Hc & Ht).
    unfold queue_inv. simpl.
    rewrite (total_insert holds_slot _ _ _ _ Hpc), (total_insert unpublished _ _ _ _ Hpc).
    simpl. split; [exact Hring|]. repeat split; try done; lia.
  - apply queue_inv_session; try done.
    + by destruct (report_transfer_frame fast i fname target (server y)) as (_ & _ & ? & _).
    + intros pc Hi. rewrite Hpc in Hi. by injection Hi as <-.
  - unfold queue_inv in *. simpl. rewrite Hw in Hinv.
    by destruct (server_running (server y)).
  - destruct Hinv as (Hring & Hs & Hit & Hperm & Hcount & Hc & Ht).
    apply acquire_items_Some in Hacq as [Hpos ->]. rewrite Hw in *.
    unfold queue_inv. simpl in *. split; [exact Hring|]. repeat split; try done; lia.
  - unfold queue_inv in *. simpl. rewrite Hw in Hinv.
    by destruct (server_running (server y)).
  - destruct Hinv as (Hring & Hs & Hit & Hperm & Hcount & Hc & Ht).
    rewrite Hw in *. simpl in *.
    pose proof (total_bounds (sessions y)) as [Hu0 _].
    assert (Hpos : 0 < count (upload_queue (server y))) by lia.
    pose proof (ring_ok_dequeue _ Hring Hpos) as Hring'.
    pose proof (contents_dequeue _ Hring Hpos) as Hdeq.
    unfold queue_inv. simpl. split; [done|]. repeat split; try done; try lia.
    + rewrite Hc. destruct (contents (upload_queue (server y))) as [|t l]; [done|].
      simpl in Hdeq. injection Hdeq as -> ->. by rewrite <- app_assoc.
    + rewrite Ht. by rewrite app_nil_r.
  - destruct Hinv as (Hring & Hs & Hit & Hperm & Hcount & Hc & Ht).
    rewrite Hw in *. destruct (deliver_frame t (server y)) as (_ & _ & Hq & _).
    unfold queue_inv. simpl in *. rewrite Hq. split; [exact Hring|].
    repeat split; try done. by rewrite app_nil_r.
  - destruct Hinv as (Hring & Hs & Hit & Hperm & Hcount & Hc & Ht).
    rewrite Hw in *. unfold queue_inv. simpl in *.
    split; [exact Hring|]. repeat split; try done; lia.
  - by apply queue_inv_server.
  - destruct (signal_finish_frame (server y)) as (_ & _ & Hq & _).
    unfold queue_inv in *. simpl. by rewrite Hq.
Qed.

(** ** Reachable states *)

Lemma system_inv_init fd : system_inv (system_init fd).
Proof.
  split; [apply wf_registry_init|]. split.
  - split; [done|]. intros i pc Hi Hne.
    change (sessions (system_init fd)) with (replicate (Z.to_nat MAX_CLIENTS) At_free) in Hi.
    apply lookup_replicate in Hi as [-> _]. done.
  - unfold queue_inv. simpl. split; [by destruct queue_ok_init|].
    repeat split; try done.
Qed.

Lemma step_system_inv y y' : step y y' -> system_inv y -> system_inv y'.
Proof.
  intros Hstep (Hwf & Hok & Hq). split; [|split].
  - by apply (step_wf_registry y).
  - by apply (step_threads_ok y).
  - by apply (step_queue_inv y).
Qed.

Lemma reachable_system_inv y : reachable y -> system_inv y.
Proof.
  intros [fd Hrtc]. revert y Hrtc. apply rtc_ind_r.
  - apply system_inv_init.
  - intros y z _ Hstep IH. by apply (step_system_inv y).
Qed.

Lemma reachable_step y y' : reachable y -> step y y' -> reachable y'.
Proof. intros [fd Hrtc] Hstep. exists fd. by eapply rtc_r. Qed.

Lemma reachable_init fd : reachable (system_init fd).
Proof. by exists fd. Qed.

Ltac fresh_fd_tac :=
  apply fresh_fd_Forall; [done|]; vm_compute;
  repeat (constructor; [first [by left | by right]|]); constructor.

(** Reachability of a state written as a composition of moves: peel the
    last move and check that it is enabled. *)
Ltac enabled := vm_compute; reflexivity.

Ltac reach :=
  first [
  match goal with
  | H : reachable ?y1 |- reachable ?y2 => constr_eq y1 y2; exact H
  end |
  lazymatch goal with
  | |- reachable (system_init _) => apply reachable_init
  | |- reachable (sys_accept ?fd ?addr ?y) =>
      apply (reachable_step y); [reach | apply (step_accept y fd addr); [enabled|fresh_fd_tac]]
  | |- reachable (sys_naming ?i ?r ?y) =>
      apply (reachable_step y); [reach | apply (step_naming y i r); enabled]
  | |- reachable (sys_sendfile ?i ?f ?t ?sr ?st0 ?y) =>
      apply (reachable_step y); [reach | apply (step_sendfile y i f t sr st0); enabled]
  | |- reachable (sys_sendfile_commit ?i ?fast ?f ?t ?st ?now ?y) =>
      apply (reachable_step y);
      [reach | apply (step_sendfile_commit y i fast f t st now); enabled]
  | |- reachable (sys_sendfile_publish ?i ?fast ?f ?t ?y) =>
      apply (reachable_step y); [reach | apply (step_sendfile_publish y i fast f t); enabled]
  | |- reachable (sys_sendfile_report ?i ?fast ?f ?t ?y) =>
      apply (reachable_step y); [reach | apply (step_sendfile_report y i fast f t); enabled]
  | |- reachable (sys_worker_loop ?y) =>
      apply (reachable_step y); [reach | apply (step_worker_loop y); enabled]
  | |- reachable (sys_worker_wake ?q ?y) =>
      apply (reachable_step y); [reach | apply (step_worker_wake y q); enabled]
  | |- reachable (sys_worker_check ?y) =>
      apply (reachable_step y); [reach | apply (step_worker_check y); enabled]
  | |- reachable (sys_worker_take ?y) =>
      apply (reachable_step y); [reach | apply (step_worker_take y); enabled]
  | |- reachable (sys_worker_deliver ?t ?y) =>
      apply (reachable_step y); [reach | apply (step_worker_deliver y t); enabled]
  | |- reachable (sys_worker_release ?y) =>
      apply (reachable_step y); [reach | apply (step_worker_release y); enabled]
  end ].

Lemma reachable_example_conflict : reachable example_system_conflict.
Proof. unfold example_system_conflict. reach. Qed.

Lemma reachable_example_two_users : reachable example_system_two_users.
Proof.
  pose proof reachable_example_conflict as H.
  unfold example_system_two_users. reach.
Qed.

Lemma reachable_example_queued : reachable example_system_queued.
Proof.
  pose proof reachable_example_two_users as H.
  unfold example_system_queued. reach.
Qed.

Lemma reachable_example_delivered : reachable example_system_delivered.
Proof.
  pose proof reachable_example_queued as H.
  unfold example_system_delivered. reach.
Qed.

(** ** Sessions in the command loop are named *)

Lemma validate_username_nonempty u : validate_username u = true -> u <> EmptyString.
Proof. intros H ->. done. Qed.

Lemma naming_attempt_named i received s :
  (naming_attempt i received s).1 = Naming_done ->
  Client.username (client_at (naming_attempt i received s).2 i) <> EmptyString.
Proof.
  unfold naming_attempt.
  destruct (server_running s) eqn:Hrun; simpl; [|done].
  destruct (Client.active (client_at s i)) eqn:Hact; simpl; [|done].
  destruct received as [data|]; [|done].
  destruct (validate_username _) eqn:Hvalid; simpl; [|done].
  srv_simpl. destruct (find_client_by_username _ s); simpl; [done|].
  pose proof (client_at_active_lookup s i Hact) as Hi.
  unfold login. rewrite server_running_set_client, server_running_emit, Hrun.
  rewrite client_at_set_client_eq by (rewrite clients_emit; by apply lookup_lt_Some in Hi).
  simpl. rewrite Hact. simpl. srv_simpl. intros _.
  rewrite client_at_set_client_eq by (rewrite clients_emit; by apply lookup_lt_Some in Hi).
  simpl. by apply validate_username_nonempty.
Qed.

Lemma names_ok_ext y1 y2 :
  sessions y2 = sessions y1 -> server y2 = server y1 -> names_ok y1 -> names_ok y2.
Proof. unfold names_ok. by intros -> ->. Qed.

Lemma names_ok_slot y s' i pc' :
  (forall j, i <> j ->
     Client.username (client_at s' j) = Client.username (client_at (server y) j)) ->
  (past_naming pc' -> Client.username (client_at s' i) <> EmptyString) ->
  names_ok y -> names_ok (with_session i pc' (with_server s' y)).
Proof.
  intros Hu Hi Hok j pc Hj Hpast. simpl in *.
  destruct (decide (i = j)) as [<-|Hij].
  - apply lookup_lt_Some in Hj as Hlt. rewrite length_insert in Hlt.
    rewrite list_lookup_insert_eq in Hj by done. injection Hj as <-. by apply Hi.
  - rewrite list_lookup_insert_ne in Hj by done. rewrite Hu by done. by apply (Hok j pc).
Qed.

Lemma names_ok_clients y s' :
  lookup_key <$> clients s' = lookup_key <$> clients (server y) ->
  names_ok y -> names_ok (with_server s' y).
Proof.
  intros Hk Hok j pc Hj Hpast. simpl in *.
  destruct (keys_client_at (server y) s' j Hk) as [_ ->]. by apply (Hok j pc).
Qed.

Lemma names_ok_slot_same y s' i pc pc' :
  clients s' = clients (server y) -> sessions y !! i = Some pc -> past_naming pc ->
  names_ok y -> names_ok (with_session i pc' (with_server s' y)).
Proof.
  intros Hc Hi Hpast Hok.
  assert (Hat : forall j, client_at s' j = client_at (server y) j)
    by (intros j; unfold client_at; by rewrite Hc).
  apply names_ok_slot; try done.
  - intros j _. by rewrite Hat.
  - intros _. rewrite Hat. by apply (Hok i pc).
Qed.

Lemma step_names_ok y y' : step y y' -> names_ok y -> names_ok y'.
Proof.
  intros Hstep Hok. step_cases Hstep; unfold_steps.
  - pose proof (accept_connection_slot fd addr (server y)) as Hslot.
    pose proof (accept_connection_full fd addr (server y)) as Hfull.
    destruct (accept_connection fd addr (server y)) as [[i|] s']; simpl in *.
    + destruct (Hslot i eq_refl) as (_ & _ & Hothers).
      apply names_ok_slot; try done. intros j Hne. by rewrite Hothers.
    + apply names_ok_clients; [|done]. by rewrite Hfull.
  - pose proof (naming_attempt_others i received (server y)) as Hothers.
    pose proof (naming_attempt_named i received (server y)) as Hnamed.
    destruct (naming_attempt i received (server y)) as [r s']; simpl in *.
    apply names_ok_slot; try done.
    + intros j Hne. by rewrite Hothers.
    + intros Hpast. apply Hnamed. by destruct r.
  - apply names_ok_clients; [|done]. apply run_command_keys.
  - apply names_ok_slot; try done. intros j Hne. by rewrite quit_session_others.
  - pose proof (sendfile_begin_frame i fname target stat_result st0 (server y)) as Hf.
    destruct (sendfile_begin _ _ _ _ _ _) as [s'|st s'|st s']; destruct Hf as (Hc & _).
    + apply names_ok_clients; [|done]. by rewrite Hc.
    + by apply (names_ok_slot_same y s' i At_command).
    + by apply (names_ok_slot_same y s' i At_command).
  - by apply (names_ok_slot_same y _ i (At_sendfile_wait fname target st)).
  - apply (names_ok_ext
             (with_session i (At_sendfile_commit fast fname target)
                (with_server (commit_transfer
                   (make_transfer fname (Client.username (client_at (server y) i))
                      target st now) (server y)) y))); try done.
    by apply (names_ok_slot_same y _ i (At_sendfile_slot fast fname target st)).
  - by apply (names_ok_slot_same y _ i (At_sendfile_commit fast fname target)).
  - apply (names_ok_slot_same y _ i (At_sendfile_report fast fname target)); try done.
    by destruct (report_transfer_frame fast i fname target (server y)) as (-> & _).
  - by apply (names_ok_ext y).
  - by apply (names_ok_ext (with_server (set_upload_queue q (server y)) y));
      [..|apply names_ok_clients].
  - by apply (names_ok_ext y).
  - by apply (names_ok_ext
                (with_server (set_upload_queue (dequeue_locked (upload_queue (server y))).2
                                (server y)) y)); [..|apply names_ok_clients].
  - apply (names_ok_ext (with_server (deliver t (server y)) y)); try done.
    apply names_ok_clients; [|done]. by destruct (deliver_frame t (server y)) as (-> & _).
  - by apply (names_ok_ext
                (with_server (set_upload_queue (post_slots (upload_queue (server y)))
                                (server y)) y)); [..|apply names_ok_clients].
  - by apply names_ok_clients.
  - apply (names_ok_ext (with_server (signal_finish (server y)) y)); try done.
    apply names_ok_clients; [|done].
    by destruct (signal_finish_frame (server y)) as (-> & _).
Qed.

Lemma reachable_names_ok y : reachable y -> names_ok y.
Proof.
  intros [fd Hrtc]. revert y Hrtc. apply rtc_ind_r.
  - intros i pc Hi Hpast.
    change (sessions (system_init fd)) with (replicate (Z.to_nat MAX_CLIENTS) At_free) in Hi.
    apply lookup_replicate in Hi as [-> _]. done.
  - intros y z _ Hstep IH. by apply (step_names_ok y).
Qed.

(** What the handlers may assume of the state they start in: every
    reachable state has well-formed registries and a well-formed queue, and a
    session in the command loop is active and named. *)
Lemma reachable_wf_registry y : reachable y -> wf_registry (server y).
Proof. intros Hy. by destruct (reachable_system_inv y Hy). Qed.

Lemma reachable_queue_ok y : reachable y -> queue_ok (upload_queue (server y)).
Proof.
  intros Hy. destruct (reachable_system_inv y Hy) as (_ & _ & Hq).
  destruct Hq as (Hring & Hs & Hi & Hperm & Hcount & _).
  pose proof (total_bounds (sessions y)) as [Hu0 Hu1].
  assert (Hw : 0 <= worker_untaken (worker y) <= worker_holds (worker y))
    by (destruct (worker y); simpl; lia).
  repeat split; try done; try apply Hring; lia.
Qed.

Lemma reachable_command_session y i :
  reachable y -> sessions y !! i = Some At_command ->
  Client.active (client_at (server y) i) = true /\
  Client.username (client_at (server y) i) <> EmptyString.
Proof.
  intros Hy Hi. split.
  - destruct (reachable_system_inv y Hy) as (_ & Hok & _).
    by apply (threads_ok_active y i At_command).
  - by apply (reachable_names_ok y Hy i At_command).
Qed.

(** ** User names *)

Lemma names_kept_refl s : names_kept s s.
Proof. intros j c Hj. exists c. split; [done|]. by right; right. Qed.

Lemma names_kept_trans s1 s2 s3 : names_kept s1 s2 -> names_kept s2 s3 -> names_kept s1 s3.
Proof.
  intros H12 H23 j c3 Hj. destruct (H23 j c3 Hj) as (c2 & Hc2 & Hk23).
  destruct (H12 j c2 Hc2) as (c1 & Hc1 & Hk12). exists c1. split; [done|].
  unfold key_kept, lookup_key in *.
  destruct Hk23 as [?|[?|Heq]]; [by left|by right; left|].
  injection Heq as Ha Hu. rewrite Ha, Hu.
  destruct Hk12 as [?|[?|?]]; [by left|by right; left|by right; right].
Qed.

Lemma names_kept_keys s s' :
  lookup_key <$> clients s' = lookup_key <$> clients s -> names_kept s s'.
Proof.
  intros Hk j c' Hj. apply (f_equal (fun l => l !! j)) in Hk.
  rewrite !list_lookup_fmap, Hj in Hk.
  destruct (clients s !! j) as [c|]; simpl in Hk; [|done]. injection Hk as Ha Hu.
  exists c. split; [done|]. right; right. unfold lookup_key. by rewrite Ha, Hu.
Qed.

Lemma names_kept_set_client s i c' :
  key_kept (client_at s i) c' -> names_kept s (set_client i c' s).
Proof.
  intros Hk j d Hj. apply lookup_set_client in Hj as [(<- & -> & Hlt)|[Hne Hj]].
  - destruct (lookup_lt_is_Some_2 _ _ Hlt) as [c Hc]. exists c. split; [done|].
    by rewrite (client_at_lookup _ _ _ Hc) in Hk.
  - exists d. split; [done|]. by right; right.
Qed.

Lemma unique_names_kept s s' : names_kept s s' -> unique_usernames s -> unique_usernames s'.
Proof.
  intros Hk Hu a b ca cb Ha Hb Hab Haa Hba.
  destruct (Hk a ca Ha) as (ca0 & Ha0 & Hka). destruct (Hk b cb Hb) as (cb0 & Hb0 & Hkb).
  unfold key_kept, lookup_key in *.
  destruct Hka as [?|[?|Hka]]; [congruence|tauto|].
  destruct Hkb as [?|[?|Hkb]]; [congruence|tauto|].
  injection Hka as Ha1 Ha2. injection Hkb as Hb1 Hb2. rewrite Ha2, Hb2.
  apply (Hu a b); congruence.
Qed.

Lemma names_kept_statement i s f :
  f ∈ cleanup_statements i -> names_kept s (f s).
Proof.
  unfold cleanup_statements. rewrite !elem_of_cons, elem_of_nil.
  intros [->|[->|[->|[->|[->|[->|[]]]]]]].
  - apply names_kept_keys, cleanup_leave_keys.
  - apply names_kept_keys. by rewrite cleanup_log_clients.
  - unfold cleanup_close. destruct (negb _); [|apply names_kept_refl].
    apply names_kept_keys.
    by rewrite (keys_set_client (emit (Close (Client.socket (client_at s i))) s)).
  - apply names_kept_set_client. by left.
  - apply names_kept_set_client. by right; left.
  - apply names_kept_set_client. by right; right.
Qed.

Lemma names_kept_run fs i : forall s,
  (forall f, f ∈ fs -> f ∈ cleanup_statements i) -> names_kept s (run fs s).
Proof.
  induction fs as [|f fs IH]; intros s Hin; [apply names_kept_refl|].
  change (run (f :: fs) s) with (run fs (f s)).
  apply (names_kept_trans _ (f s)).
  - apply (names_kept_statement i). apply Hin. by left.
  - apply IH. intros g Hg. apply Hin. by right.
Qed.

Lemma names_kept_cleanup_point n i s : names_kept s (cleanup_point n i s).
Proof.
  unfold cleanup_point. destruct (Client.active _); [|apply names_kept_refl].
  apply (names_kept_run _ i). intros f Hf.
  apply elem_of_take in Hf as (k & Hk & _). apply list_elem_of_lookup. by exists k.
Qed.

Lemma names_kept_cleanup_client i s : names_kept s (cleanup_client i s).
Proof. rewrite cleanup_client_all. apply names_kept_cleanup_point. Qed.

Lemma unique_register s i u :
  unique_usernames s -> find_client_by_username u s = None ->
  unique_usernames (set_client i (Client.set_username u (client_at s i)) s).
Proof.
  intros Hu Hfind a b ca cb Ha Hb Hab Haa Hba. rewrite find_client_None in Hfind.
  apply lookup_set_client in Ha as [(<- & -> & _)|[Hna Ha]];
    apply lookup_set_client in Hb as [(<- & -> & _)|[Hnb Hb]]; try done; simpl.
  - left. intros Heq. by apply (Hfind b cb).
  - left. intros Heq. by apply (Hfind a ca).
  - by apply (Hu a b).
Qed.

Lemma unique_naming_attempt i received s :
  unique_usernames s -> unique_usernames (naming_attempt i received s).2.
Proof.
  intros Hu. unfold naming_attempt.
  destruct (_ && _);
    [|apply (unique_names_kept s); [apply names_kept_cleanup_client|done]].
  destruct received as [data|]; simpl;
    [|eapply unique_names_kept; [apply names_kept_cleanup_client|done]].
  destruct (validate_username _); simpl; [|done].
  unfold send_to_client at 1. rewrite find_client_emit.
  destruct (find_client_by_username _ s) eqn:Hfind; simpl; [done|].
  pose proof (unique_register (emit (Send (Client.socket (client_at s i))
                "Enter username (max 16 chars, alphanumeric): ") s) i _ Hu Hfind) as Hu'.
  unfold login. destruct (_ || _); simpl; [|done].
  eapply unique_names_kept; [apply names_kept_cleanup_client|done].
Qed.

Lemma naming_attempt_conflict i data s j :
  server_running s = true -> Client.active (client_at s i) = true ->
  validate_username (received_line MAX_USERNAME_LEN data) = true ->
  find_client_by_username (received_line MAX_USERNAME_LEN data) s = Some j ->
  naming_attempt i (Some data) s =
  (Naming_again,
   log_message ("[REJECTED] Duplicate username attempted: "
                +:+ received_line MAX_USERNAME_LEN data)
     (send_to_client (Client.socket (client_at s i))
        ("[ERROR] Username already taken. Choose another." +:+ LF)
        (send_to_client (Client.socket (client_at s i))
           "Enter username (max 16 chars, alphanumeric): " s))).
Proof.
  intros Hrun Hact Hvalid Hfind. unfold naming_attempt.
  rewrite Hrun, Hact, Hvalid. simpl.
  unfold send_to_client at 1. rewrite find_client_emit, Hfind. done.
Qed.



(** ** The upload queue *)

(** With every session and the worker between two queue operations, no
    permit is held and no record is stored but unannounced. *)
Lemma balance_at_rest y :
  reachable y -> at_rest y ->
  slots (upload_queue (server y)) + items (upload_queue (server y)) = MAX_UPLOAD_QUEUE /\
  count (upload_queue (server y)) = items (upload_queue (server y)).
Proof.
  intros Hy [Hsessions Hworker].
  destruct (reachable_system_inv y Hy) as (_ & _ & Hq).
  destruct Hq as (_ & _ & _ & Hperm & Hcount & _).
  destruct (total_at_rest _ Hsessions) as [Hh Hu].
  rewrite Hh in Hperm. rewrite Hu in Hcount.
  destruct (worker y); simpl in *; try done; lia.
Qed.

(** C6. In every reachable state in which no queue operation is under way
    the two semaphores add up to the capacity 5 and [count] equals [items].
    [main] starts the queue so (5, 0 and 0), and a whole enqueue (acquire
    [slots], critical section, post [items]) as well as a whole dequeue
    (acquire [items], critical section, post [slots]) lead from a balanced
    queue to a balanced queue. *)
Theorem queue_balance :
  (forall y, reachable y -> at_rest y ->
     slots (upload_queue (server y)) + items (upload_queue (server y)) = MAX_UPLOAD_QUEUE /\
     count (upload_queue (server y)) = items (upload_queue (server y))) /\
  (slots upload_queue_init = MAX_UPLOAD_QUEUE /\ items upload_queue_init = 0 /\
   count upload_queue_init = 0) /\
  (forall t q q1,
     slots q + items q = MAX_UPLOAD_QUEUE -> count q = items q ->
     acquire_slots q = Some q1 ->
     let q2 := post_items (enqueue_locked t q1) in
     slots q2 + items q2 = MAX_UPLOAD_QUEUE /\ count q2 = items q2) /\
  (forall q q1,
     slots q + items q = MAX_UPLOAD_QUEUE -> count q = items q ->
     acquire_items q = Some q1 ->
     let q2 := post_slots (dequeue_locked q1).2 in
     slots q2 + items q2 = MAX_UPLOAD_QUEUE /\ count q2 = items q2).
Proof.
  split; [|split; [done|split]].
  - exact balance_at_rest.
  - intros t q q1 Hb Hc Hacq. apply acquire_slots_Some in Hacq as [_ ->]. simpl. lia.
  - intros q q1 Hb Hc Hacq. apply acquire_items_Some in Hacq as [_ ->]. simpl. lia.
Qed.

Lemma at_rest_example_delivered : at_rest example_system_delivered.
Proof. split; [vm_compute; repeat constructor|exact I]. Qed.

Lemma queue_balance_witness :
  reachable example_system_delivered /\ at_rest example_system_delivered /\
  slots (upload_queue (server example_system_delivered))
  + items (upload_queue (server example_system_delivered)) = MAX_UPLOAD_QUEUE /\
  count (upload_queue (server example_system_delivered))
  = items (upload_queue (server example_system_delivered)).
Proof.
  destruct queue_balance as (Hrest & _).
  split; [exact reachable_example_delivered|].
  split; [exact at_rest_example_delivered|].
  exact (Hrest _ reachable_example_delivered at_rest_example_delivered).
Defined.

Lemma contents_nonempty q : contents q <> [] -> 0 < count q.
Proof.
  intros Hne. destruct (Z.ltb_spec 0 (count q)) as [|Hle]; [done|].
  exfalso. apply Hne. unfold contents.
  by replace (Z.to_nat (count q)) with 0%nat by lia.
Qed.

(** One round of the worker on a queue at rest that is not empty: it takes
    the head record and delivers it. *)
Lemma worker_round y :
  reachable y -> halted y = false -> server_running (server y) = true ->
  worker y = At_loop -> at_rest y -> contents (upload_queue (server y)) <> [] ->
  exists y' t rest,
    rtc step y y' /\ contents (upload_queue (server y)) = t :: rest /\
    contents (upload_queue (server y')) = rest /\
    delivered y' = delivered y ++ [t] /\ committed y' = committed y /\
    worker y' = At_loop /\ sessions y' = sessions y /\
    server y' = set_upload_queue (upload_queue (server y')) (deliver t (server y)).
Proof.
  intros Hy Hh Hrun Hw Hrest Hne.
  destruct (reachable_system_inv y Hy) as (_ & _ & Hq).
  destruct Hq as (Hring & _ & _ & _ & _ & _ & _).
  destruct (balance_at_rest y Hy Hrest) as [_ Hcount].
  pose proof (contents_nonempty _ Hne) as Hpos.
  set (q := upload_queue (server y)) in *.
  set (q1 := set_items (items q - 1) q).
  assert (Hacq : acquire_items q = Some q1) by (apply acquire_items_Some; split; [lia|done]).
  pose proof (contents_dequeue q1 Hring Hpos) as Hdeq.
  set (t := (dequeue_locked q1).1) in *. set (q2 := (dequeue_locked q1).2) in *.
  set (y1 := sys_worker_loop y).
  set (y2 := sys_worker_wake q1 y1).
  set (y3 := sys_worker_check y2).
  set (y4 := sys_worker_take y3).
  set (y5 := sys_worker_deliver t y4).
  set (y6 := sys_worker_release y5).
  assert (H1 : step y y1) by (by apply step_worker_loop).
  assert (H2 : step y1 y2).
  { apply step_worker_wake; try done. unfold y1, sys_worker_loop. simpl. by rewrite Hrun. }
  assert (H3 : step y2 y3) by (by apply step_worker_check).
  assert (H4 : step y3 y4).
  { apply step_worker_take; try done. unfold y3, sys_worker_check. simpl. by rewrite Hrun. }
  assert (E4 : y4 = mkSystem (set_upload_queue q2 (server y)) (sessions y) (At_sleep t)
                      (halted y) (committed y) (taken y ++ [t]) (delivered y)).
  { reflexivity. }
  assert (H5 : step y4 y5) by (apply step_worker_deliver; by rewrite E4).
  assert (H6 : step y5 y6) by (apply step_worker_release; unfold y5; by rewrite E4).
  exists y6, t, (contents q2).
  split; [by do 6 (eapply rtc_l; [eassumption|])|].
  change (contents q1) with (contents q) in Hdeq.
  split; [destruct (contents q) as [|t' l']; [done|]; simpl in Hdeq; congruence|].
  unfold y6, y5, sys_worker_release, sys_worker_deliver. rewrite E4. simpl.
  destruct (deliver_frame t (set_upload_queue q2 (server y))) as (_ & _ & -> & _).
  repeat split; try done. simpl. unfold deliver.
  rewrite (find_client_keys _ (server y) (set_upload_queue q2 (server y))) by done.
  by destruct (find_client_by_username (receiver t) (server y)).
Qed.



(** * Further properties of the server *)

(** ** Lookup by user name *)

(** X1. [find_client_by_username] returns the lowest active slot that holds
    the name and never a slot that is not active; it returns nothing exactly
    when no active slot holds the name.  In a well-formed registry a
    non-empty name is held by one active session at most, so the lookup
    returns a slot exactly when that slot is active and holds the name. *)
Theorem find_client_by_username_exact u s :
  (forall i, find_client_by_username u s = Some i ->
     Client.active (client_at s i) = true /\ Client.username (client_at s i) = u /\
     forall j, (j < i)%nat ->
       ~ (Client.active (client_at s j) = true /\ Client.username (client_at s j) = u)) /\
  (find_client_by_username u s = None <->
     forall j c, clients s !! j = Some c -> Client.active c = true -> Client.username c <> u) /\
  (wf_registry s -> u <> EmptyString ->
   forall i c, clients s !! i = Some c -> Client.active c = true -> Client.username c = u ->
     find_client_by_username u s = Some i).
Proof.
  split; [|split].
  - intros i Hi. apply find_client_Some in Hi as (c & Hc & Hact & Hu & Hlow).
    rewrite (client_at_lookup _ _ _ Hc). repeat split; try done.
    intros j Hj [Haj Huj].
    assert (Hjl : (j < length (clients s))%nat) by (apply lookup_lt_Some in Hc; lia).
    destruct (lookup_lt_is_Some_2 _ _ Hjl) as [d Hd].
    rewrite (client_at_lookup _ _ _ Hd) in Haj, Huj. by apply (Hlow j d).
  - rewrite find_client_None. split.
    + intros H j c Hc Hact Hu. by apply (H j c).
    + intros H j c Hc [Hact Hu]. by apply (H j c).
  - intros Hwf Hne i c Hc Hact Hu.
    destruct (find_client_by_username u s) as [j|] eqn:Ej.
    + f_equal. apply find_client_Some in Ej as (d & Hd & Hdact & Hdu & _).
      destruct (decide (j = i)) as [|Hji]; [done|].
      destruct Hwf as (_ & _ & Huniq & _).
      destruct (Huniq j i d c Hd Hc Hji Hdact Hact) as [H|[H|H]]; congruence.
    + exfalso. rewrite find_client_None in Ej. by apply (Ej i c).
Qed.

Lemma find_client_by_username_exact_witness :
  wf_registry example_two_users /\ "bob" <> EmptyString /\
  find_client_by_username "bob" example_two_users = Some 1%nat.
Proof.
  split; [exact wf_example_two_users|]. split; [done|].
  destruct (find_client_by_username_exact "bob" example_two_users) as (_ & _ & H).
  apply (H wf_example_two_users ltac:(done) 1%nat (client_at example_two_users 1));
    reflexivity.
Defined.

(** ** Rooms *)

(** X2. [find_or_create_room] returns the active room of the given name
    when there is one, and then changes nothing; otherwise it turns the
    lowest slot that is not active into an active room of that name with no
    member, and leaves every other slot alone; with no such slot either it
    returns a null pointer and changes nothing, and then all rooms are active
    under other names.  It never touches the sessions or sends anything, and
    asking again for the same name returns the same slot and changes
    nothing. *)
Theorem find_or_create_room_outcome X s :
  let res := (find_or_create_room X s).1 in
  let s' := (find_or_create_room X s).2 in
  clients s' = clients s /\ trace s' = trace s /\ upload_queue s' = upload_queue s /\
  match res with
  | Some k =>
      (exists r, rooms s' !! k = Some r /\ Room.active r = true /\ Room.name r = X) /\
      (forall l, l <> k -> rooms s' !! l = rooms s !! l) /\
      (forall l r, rooms s !! l = Some r -> Room.active r = true -> Room.name r = X ->
                   s' = s /\ (k <= l)%nat) /\
      ((forall l r, rooms s !! l = Some r -> Room.active r = true -> Room.name r <> X) ->
       rooms s' !! k = Some (Room.mk X [] true) /\
       Room.active (room_at s k) = false /\
       forall l, (l < k)%nat -> Room.active (room_at s l) = true) /\
      find_or_create_room X s' = (Some k, s')
  | None =>
      s' = s /\
      forall l r, rooms s !! l = Some r -> Room.active r = true /\ Room.name r <> X
  end.
Proof.
  unfold find_or_create_room.
  destruct (list_find (room_named X) (rooms s)) as [[k r]|] eqn:Efind; simpl.
  - do 3 (split; [done|]).
    apply list_find_Some in Efind as (Hk & [Hact Hname] & Hlow).
    split; [by exists r|]. split; [done|]. split; [|split].
    + intros l r' Hl Hact' Hname'. split; [done|].
      destruct (decide (k <= l)%nat) as [|Hlt]; [done|]. exfalso.
      apply (Hlow l r'); [done|lia|done].
    + intros Hnone. exfalso. by apply (Hnone k r).
    + assert (E : list_find (room_named X) (rooms s) = Some (k, r)).
      { apply list_find_Some. done. }
      by rewrite E.
  - pose proof (find_room_None _ _ Efind) as Hnone.
    destruct (list_find room_free (rooms s)) as [[k r]|] eqn:Efree; simpl.
    + do 3 (split; [done|]).
      apply list_find_Some in Efree as (Hk & Hfree & Hlow).
      pose proof (lookup_lt_Some _ _ _ Hk) as Hlt.
      assert (Hnew : <[k := Room.mk X [] true]> (rooms s) !! k = Some (Room.mk X [] true))
        by (by apply list_lookup_insert_eq).
      split; [by exists (Room.mk X [] true)|].
      split; [intros l Hl; by apply list_lookup_insert_ne|].
      split; [intros l r' Hl Hact' Hname'; by destruct (Hnone l r')|].
      split.
      * intros _. split; [done|]. split.
        -- by rewrite (room_at_lookup _ _ _ Hk).
        -- intros l Hl.
           assert (Hll : (l < length (rooms s))%nat) by lia.
           destruct (lookup_lt_is_Some_2 _ _ Hll) as [r' Hr'].
           rewrite (room_at_lookup _ _ _ Hr').
           destruct (Room.active r') eqn:E; [done|]. exfalso. by apply (Hlow l r').
      * assert (E : list_find (room_named X) (<[k := Room.mk X [] true]> (rooms s))
                    = Some (k, Room.mk X [] true)).
        { apply list_find_Some. split; [done|]. split; [done|].
          intros l r' Hl Hlk [Hact' Hname'].
          rewrite list_lookup_insert_ne in Hl by lia. by destruct (Hnone l r'). }
        by rewrite E.
    + do 3 (split; [done|]). split; [done|].
      intros l r Hl. rewrite list_find_None in Efree.
      rewrite Forall_forall in Efree.
      assert (Hin : r ∈ rooms s) by (apply list_elem_of_lookup; by exists l).
      specialize (Efree r Hin). unfold room_free in Efree.
      destruct (Room.active r) eqn:E; [|done]. split; [done|]. by apply (Hnone l r).
Qed.

Lemma find_or_create_room_outcome_witness :
  rooms (find_or_create_room "room2" example_room).2 !! 1%nat = Some (Room.mk "room2" [] true) /\
  Room.active (room_at example_room 1) = false.
Proof.
  pose proof (find_or_create_room_outcome "room2" example_room) as H.
  destruct H as (_ & _ & _ & H).
  change ((find_or_create_room "room2" example_room).1) with (Some 1%nat) in H.
  destruct H as (_ & _ & _ & H & _).
  destruct H as (H1 & H2 & _); [|by split].
  intros l r Hl Hact Hname.
  destruct l as [|l]; [vm_compute in Hl; injection Hl as <-; discriminate Hname|].
  do 9 (destruct l as [|l]; [vm_compute in Hl; injection Hl as <-; discriminate Hact|]).
  vm_compute in Hl. discriminate Hl.
Defined.

(** Distinct numbers below [n] are [n] at most. *)
Lemma NoDup_bounded_length (l : list nat) n :
  NoDup l -> (forall m, m ∈ l -> (m < n)%nat) -> (length l <= n)%nat.
Proof.
  intros Hnd Hlt.
  assert (Hsub : l ⊆+ seq 0 n).
  { apply NoDup_submseteq; [done|]. intros m Hm. apply elem_of_seq. specialize (Hlt m Hm). lia. }
  apply submseteq_length in Hsub. by rewrite length_seq in Hsub.
Qed.

(** A room has space for a session that is in no room: its members are
    distinct sessions other than this one. *)
Lemma room_has_space s i k r :
  wf_registry s -> clients s !! i = Some (client_at s i) ->
  Client.current_room (client_at s i) = EmptyString ->
  rooms s !! k = Some r -> Room.active r = true ->
  Room.member_count r < MAX_CLIENTS.
Proof.
  intros Hwf Hi Hroom Hk Hact.
  pose proof (not_member_without_room s i _ Hwf Hi Hroom) as Hnot.
  destruct Hwf as (Hlen & _ & _ & _ & Hrooms & _).
  destruct (Hrooms k r Hk Hact) as (_ & _ & Hnd & Hmem).
  assert (Hni : i ∉ Room.members r) by (intros Hin; apply Hnot; by exists k, r).
  assert (Hb : (length (i :: Room.members r) <= Z.to_nat MAX_CLIENTS)%nat).
  { apply NoDup_bounded_length; [by constructor|].
    intros m Hm. rewrite <- Hlen. apply elem_of_cons in Hm as [->|Hm].
    - by apply lookup_lt_Some in Hi.
    - destruct (Hmem m Hm) as (c & Hc & _). by apply lookup_lt_Some in Hc. }
  unfold Room.member_count. simpl in Hb. unfold MAX_CLIENTS in *. lia.
Qed.

Lemma last_snoc_Some {A} (l : list A) x : last (l ++ [x]) = Some x.
Proof. by rewrite last_snoc. Qed.

Lemma received_on_send_eq fd msg :
  received_on fd [Send fd msg] = [msg].
Proof. simpl. by rewrite Z.eqb_refl. Qed.

(** What the optional [handle_leave_room] at the start of a join leaves
    behind. *)
Lemma leave_before_join s i :
  wf_registry s -> Client.active (client_at s i) = true ->
  let s1 := if strlen (Client.current_room (client_at s i)) >? 0
            then handle_leave_room i s else s in
  wf_registry s1 /\ Client.active (client_at s1 i) = true /\
  Client.current_room (client_at s1 i) = EmptyString /\
  Client.socket (client_at s1 i) = Client.socket (client_at s i) /\
  Client.username (client_at s1 i) = Client.username (client_at s i) /\
  exists evs, trace s1 = trace s ++ evs.
Proof.
  intros Hwf Hact. simpl.
  destruct (Z.gtb_spec (strlen (Client.current_room (client_at s i))) 0) as [Hz|Hz].
  - split; [by apply wf_handle_leave_room|].
    destruct (handle_leave_room_same_fields i s i) as (-> & -> & -> & _).
    split; [done|]. split.
    { apply handle_leave_room_current_room.
      apply client_at_active_lookup in Hact. by apply lookup_lt_Some in Hact. }
    do 2 (split; [done|]).
    unfold handle_leave_room.
    destruct (Z.eqb_spec (strlen (Client.current_room (client_at s i))) 0) as [E|_]; [lia|].
    srv_simpl. rewrite leave_locked_trace. eauto.
  - split; [done|]. split; [done|]. split; [apply strlen_zero; unfold strlen in *; lia|].
    do 2 (split; [done|]). exists []. by rewrite app_nil_r.
Qed.

(** The two ways a join with a valid name can end. *)
Lemma handle_join_room_cases i X s :
  wf_registry s -> Client.active (client_at s i) = true ->
  validate_room_name X = true ->
  let s' := handle_join_room i X s in
  let fd := Client.socket (client_at s i) in
  (Client.current_room (client_at s' i) = X /\
   (exists k r ms, rooms s' !! k = Some r /\ Room.active r = true /\ Room.name r = X /\
                   Room.members r = ms ++ [i] /\ i ∉ ms) /\
   last (received_on fd (new_events s s'))
     = Some (snprintf 256 ("[SUCCESS] Joined room '" +:+ X +:+ "'" +:+ LF)))
  \/
  (Client.current_room (client_at s' i) = EmptyString /\
   (forall l r, rooms s' !! l = Some r -> Room.active r = true /\ Room.name r <> X) /\
   last (received_on fd (new_events s s')) = Some ("[ERROR] Unable to join room." +:+ LF)).
Proof.
  intros Hwf Hact HX s' fd.
  unfold s', handle_join_room. rewrite HX. simpl.
  destruct (leave_before_join s i Hwf Hact) as (Hwf1 & Hact1 & Hroom1 & Hsock1 & Hname1 & evs & Hevs).
  set (s1 := if strlen (Client.current_room (client_at s i)) >? 0
             then handle_leave_room i s else s) in *.
  clearbody s1.
  pose proof (client_at_active_lookup s1 i Hact1) as Hi1.
  pose proof (lookup_lt_Some _ _ _ Hi1) as Hilt.
  assert (Hjoin : forall k r s2,
            rooms s2 !! k = Some r -> Room.active r = true -> Room.name r = X ->
            Room.member_count r < MAX_CLIENTS -> i ∉ Room.members r ->
            clients s2 = clients s1 -> trace s2 = trace s1 ->
            match join_locked i k X s2 with
            | None => False
            | Some s3 =>
                let c := client_at s3 i in
                let s4 := printf ("[COMMAND] " +:+ Client.username c +:+ " joined room '"
                                  +:+ X +:+ "'" +:+ LF)
                            (log_message ("[JOIN] user '" +:+ Client.username c
                                          +:+ "' joined room '" +:+ X +:+ "'")
                               (send_to_client (Client.socket c)
                                  (snprintf 256 ("[SUCCESS] Joined room '" +:+ X +:+ "'" +:+ LF))
                                  s3)) in
                Client.current_room (client_at s4 i) = X /\
                (exists k r ms, rooms s4 !! k = Some r /\ Room.active r = true /\
                   Room.name r = X /\ Room.members r = ms ++ [i] /\ i ∉ ms) /\
                last (received_on fd (new_events s s4))
                  = Some (snprintf 256 ("[SUCCESS] Joined room '" +:+ X +:+ "'" +:+ LF))
            end).
  { intros k r s2 Hk Hract Hrname Hspace Hni Hc2 Ht2.
    assert (Hat2 : forall j, client_at s2 j = client_at s1 j)
      by (intros j; unfold client_at; by rewrite Hc2).
    unfold join_locked. rewrite (room_at_lookup _ _ _ Hk).
    destruct (Z.geb_spec (Room.member_count r) MAX_CLIENTS) as [Hfull|_]; [lia|].
    srv_simpl.
    assert (Hlt2 : (i < length (clients s2))%nat) by (by rewrite Hc2).
    rewrite !client_at_set_client_eq by (by rewrite clients_set_room).
    split; [done|]. split.
    - exists k, (Room.mk (Room.name r) (Room.members r ++ [i]) (Room.active r)), (Room.members r).
      split; [|done]. apply list_lookup_insert_eq. by apply lookup_lt_Some in Hk.
    - simpl. rewrite Hat2, Hsock1.
      match goal with |- context [new_events s ?t] =>
        assert (Htr : trace t = trace s ++ evs ++
                  [Send (Client.socket (client_at s i))
                        (snprintf 256 ("[SUCCESS] Joined room '" +:+ X +:+ "'" +:+ LF))] ++
                  [Log ("[JOIN] user '" +:+ Client.username (client_at s1 i)
                        +:+ "' joined room '" +:+ X +:+ "'");
                   Stdout ("[COMMAND] " +:+ Client.username (client_at s1 i)
                           +:+ " joined room '" +:+ X +:+ "'" +:+ LF)])
      end.
      { simpl. rewrite Ht2, Hevs. by rewrite <- !app_assoc. }
      rewrite (new_events_app _ _ _ Htr). rewrite !received_on_app.
      unfold fd. rewrite received_on_send_eq. simpl. rewrite ?app_nil_r. apply last_snoc_Some. }
  unfold find_or_create_room.
  destruct (list_find (room_named X) (rooms s1)) as [[k r]|] eqn:Efind.
  - left. apply find_room_Some in Efind as (Hk & Hract & Hrname).
    specialize (Hjoin k r s1 Hk Hract Hrname).
    assert (Hspace : Room.member_count r < MAX_CLIENTS)
      by (by apply (room_has_space s1 i k r)).
    assert (Hni : i ∉ Room.members r).
    { intros Hin. apply (not_member_without_room s1 i _ Hwf1 Hi1 Hroom1). by exists k, r. }
    specialize (Hjoin Hspace Hni eq_refl eq_refl).
    by destruct (join_locked i k X s1) as [s3|].
  - pose proof (find_room_None _ _ Efind) as Hnone.
    destruct (list_find room_free (rooms s1)) as [[k r]|] eqn:Efree.
    + left. apply list_find_Some in Efree as (Hk & _ & _).
      assert (Hk2 : rooms (set_room k (Room.mk X [] true) s1) !! k = Some (Room.mk X [] true)).
      { rewrite rooms_set_room. apply list_lookup_insert_eq. by apply lookup_lt_Some in Hk. }
      assert (Hni : i ∉ Room.members (Room.mk X [] true)) by apply not_elem_of_nil.
      specialize (Hjoin k _ _ Hk2 eq_refl eq_refl ltac:(done) Hni eq_refl eq_refl).
      by destruct (join_locked i k X (set_room k (Room.mk X [] true) s1)) as [s3|].
    + right. split; [done|]. split.
      * intros l r Hl. rewrite list_find_None, Forall_forall in Efree.
        assert (Hin : r ∈ rooms s1) by (apply list_elem_of_lookup; by exists l).
        specialize (Efree r Hin). unfold room_free in Efree.
        destruct (Room.active r) eqn:E; [|done]. split; [done|]. by apply (Hnone l r).
      * unfold fd. rewrite Hsock1.
        assert (Htr : trace (send_to_client (Client.socket (client_at s i))
                               ("[ERROR] Unable to join room." +:+ LF) s1)
                      = trace s ++ evs ++ [Send (Client.socket (client_at s i))
                                                ("[ERROR] Unable to join room." +:+ LF)]).
        { srv_simpl. by rewrite Hevs, <- app_assoc. }
        rewrite (new_events_app _ _ _ Htr), received_on_app, received_on_send_eq.
        apply last_snoc_Some.
Qed.

(** X3. A join with a valid room name, in a well-formed registry, ends in
    one of two ways.  Either the session gets the reply
    "[SUCCESS] Joined room 'X'" last, its [current_room] is X and it is
    the last member of the active room X; or all ten room slots are active
    under other names, the session is told "[ERROR] Unable to join room."
    and is left in no room, its previous room included.  The reply
    "[ERROR] Room is full." is never the outcome: the members of a room are
    distinct sessions, so a session outside finds fewer than fifteen.  The
    registry is well formed again in both cases. *)
Theorem handle_join_room_outcome i X s :
  wf_registry s -> Client.active (client_at s i) = true ->
  validate_room_name X = true ->
  let s' := handle_join_room i X s in
  let fd := Client.socket (client_at s i) in
  wf_registry s' /\
  ((Client.current_room (client_at s' i) = X /\
    (exists k r ms, rooms s' !! k = Some r /\ Room.active r = true /\ Room.name r = X /\
                    Room.members r = ms ++ [i] /\ i ∉ ms) /\
    last (received_on fd (new_events s s'))
      = Some (snprintf 256 ("[SUCCESS] Joined room '" +:+ X +:+ "'" +:+ LF)))
   \/
   (Client.current_room (client_at s' i) = EmptyString /\
    (forall l r, rooms s' !! l = Some r -> Room.active r = true /\ Room.name r <> X) /\
    last (received_on fd (new_events s s')) = Some ("[ERROR] Unable to join room." +:+ LF))).
Proof.
  intros Hwf Hact HX s' fd. split.
  - by apply wf_handle_join_room.
  - by apply handle_join_room_cases.
Qed.

Lemma handle_join_room_outcome_witness :
  wf_registry example_two_users /\ Client.active (client_at example_two_users 0) = true /\
  validate_room_name "room1" = true /\
  wf_registry (handle_join_room 0 "room1" example_two_users).
Proof.
  split; [exact wf_example_two_users|]. split; [reflexivity|]. split; [reflexivity|].
  exact (proj1 (handle_join_room_outcome 0 "room1" example_two_users
                  wf_example_two_users eq_refl eq_refl)).
Defined.

Lemma filter_all {A} (P : A -> Prop) `{!forall x, Decision (P x)} (l : list A) :
  Forall P l -> filter P l = l.
Proof.
  induction 1 as [|a l Ha _ IH]; [done|]. rewrite filter_cons_True by done. by rewrite IH.
Qed.

(** On a list without repetition the shifting loop of [handle_leave_room]
    removes the session and keeps the others in their order. *)
Lemma remove_member_filter i l :
  NoDup l -> remove_member i l = filter (fun m => m <> i) l.
Proof.
  induction 1 as [|a l Ha Hnd IH]; simpl; [done|].
  destruct (decide (a = i)) as [->|Hne].
  - rewrite filter_cons_False by (intros H; by apply H).
    symmetry. apply filter_all. apply Forall_forall. intros m Hm ->. done.
  - rewrite filter_cons_True by done. by rewrite IH.
Qed.

(** X4. A session that is in a room and leaves it, in a well-formed
    registry: it is taken out of the member list of that room, the other
    members keep their order, and the room stays active exactly when another
    member remains; no other room and no other session changes; the
    session's [current_room] is empty afterwards and all it is sent is
    "[SUCCESS] Left room '<room>'". *)
Theorem handle_leave_room_effect i s :
  wf_registry s -> Client.active (client_at s i) = true ->
  Client.current_room (client_at s i) <> EmptyString ->
  let c := client_at s i in
  let s' := handle_leave_room i s in
  exists k r,
    rooms s !! k = Some r /\ Room.active r = true /\
    Room.name r = Client.current_room c /\ i ∈ Room.members r /\
    rooms s' = <[k := Room.mk (Room.name r) (filter (fun m => m <> i) (Room.members r))
                              (bool_decide (Room.members r <> [i]))]> (rooms s) /\
    clients s' = <[i := Client.set_current_room EmptyString c]> (clients s) /\
    upload_queue s' = upload_queue s /\
    new_events s s' =
      [Send (Client.socket c)
            (snprintf 256 ("[SUCCESS] Left room '" +:+ Client.current_room c +:+ "'" +:+ LF));
       Log ("[LEAVE] user '" +:+ Client.username c +:+ "' left room '"
            +:+ Client.current_room c +:+ "'")].
Proof.
  intros Hwf Hact Hroom c s'.
  pose proof (client_at_active_lookup s i Hact) as Hi.
  pose proof Hwf as (_ & _ & _ & _ & Hrooms & Huniq & Hlisted).
  destruct (Hlisted i _ Hi Hact Hroom) as (k & r & Hk & Hract & Hname & Hin).
  exists k, r. do 4 (split; [done|]).
  assert (Hz : (strlen (Client.current_room (client_at s i)) =? 0) = false).
  { apply Z.eqb_neq. intros E. by apply strlen_zero in E. }
  destruct (Hrooms k r Hk Hract) as (_ & _ & Hnd & _).
  split; [|split; [|split]].
  - unfold s'. rewrite handle_leave_room_rooms, Hz. unfold leave_locked.
    rewrite <- Hname, (find_room_unique s k r Huniq Hk Hract).
    rewrite rooms_set_room. f_equal.
    rewrite (remove_member_filter _ _ Hnd). f_equal.
    rewrite Hract.
    destruct (Z.eqb_spec (Z.of_nat (length (filter (fun m => m <> i) (Room.members r)))) 0)
      as [E|E].
    + symmetry. apply bool_decide_eq_false. intros Hne. apply Hne.
      assert (Hnil : filter (fun m => m <> i) (Room.members r) = [])
        by (apply nil_length_inv; lia).
      destruct (Room.members r) as [|a l] eqn:El; [by apply elem_of_nil in Hin|].
      assert (Ha : a = i).
      { destruct (decide (a = i)) as [|Hne']; [done|].
        rewrite filter_cons_True in Hnil by done. done. }
      subst a. f_equal. destruct l as [|b l]; [done|].
      apply NoDup_cons in Hnd as [Hni _].
      assert (Hb : b <> i) by (intros ->; apply Hni; left).
      rewrite filter_cons_False in Hnil by (intros H; by apply H).
      rewrite filter_cons_True in Hnil by done. done.
    + symmetry. apply bool_decide_eq_true. intros El. apply E. rewrite El.
      rewrite filter_cons_False by (intros H; by apply H). done.
  - unfold s'. by rewrite handle_leave_room_clients, Hz.
  - unfold s'. by destruct (handle_leave_room_frame i s) as [-> _].
  - apply new_events_app. unfold s', handle_leave_room. rewrite Hz.
    srv_simpl. by rewrite leave_locked_trace.
Qed.

Lemma handle_leave_room_effect_witness :
  wf_registry example_room /\ Client.active (client_at example_room 0) = true /\
  Client.current_room (client_at example_room 0) <> EmptyString /\
  exists k r, rooms example_room !! k = Some r /\
    rooms (handle_leave_room 0 example_room) =
      <[k := Room.mk (Room.name r) (filter (fun m => m <> 0%nat) (Room.members r))
                     (bool_decide (Room.members r <> [0%nat]))]> (rooms example_room).
Proof.
  assert (H3 : Client.current_room (client_at example_room 0) <> EmptyString).
  { intros H. vm_compute in H. discriminate H. }
  split; [exact wf_example_room|]. split; [reflexivity|]. split; [exact H3|].
  destruct (handle_leave_room_effect 0 example_room wf_example_room eq_refl H3)
    as (k & r & Hk & _ & _ & _ & Hrooms & _).
  exists k, r. split; [exact Hk|exact Hrooms].
Defined.

(** ** Whisper *)

Ltac socket_cases :=
  simpl;
  repeat match goal with
         | |- context [?a =? ?b] => destruct (Z.eqb_spec a b); try congruence
         end;
  try done.

Lemma string_app_length a b : strlen (a +:+ b) = strlen a + strlen b.
Proof. unfold strlen. rewrite length_app_string. lia. Qed.

(** X5. A whisper to a user that is online, in a well-formed registry: the
    target is sent exactly one message, the line
    "[WHISPER from <sender>]: <message>" cut to the 4095 bytes of the format
    buffer (the whole line when it fits), and the sender exactly the line
    "[SUCCESS] Whisper sent."; a sender who whispers to itself gets both, in
    that order; no other session is sent anything, whatever room it is in,
    and no table changes.  When no active session has the target name the
    only effect is the reply "[ERROR] User not found or offline." *)
Theorem handle_whisper_delivery i target message s :
  wf_registry s -> Client.active (client_at s i) = true ->
  let me := client_at s i in
  let line := snprintf BUFFER_SIZE
                ("[WHISPER from " +:+ Client.username me +:+ "]: " +:+ message +:+ LF) in
  let s' := handle_whisper i target message s in
  let evs := new_events s s' in
  (forall t, find_client_by_username target s = Some t ->
     (t <> i ->
        received_on (Client.socket (client_at s t)) evs = [line] /\
        received_on (Client.socket me) evs = ["[SUCCESS] Whisper sent." +:+ LF]) /\
     (t = i ->
        received_on (Client.socket me) evs = [line; "[SUCCESS] Whisper sent." +:+ LF]) /\
     (forall j cj, clients s !! j = Some cj -> Client.active cj = true -> j <> i -> j <> t ->
        received_on (Client.socket cj) evs = [])) /\
  (find_client_by_username target s = None ->
     evs = [Send (Client.socket me) ("[ERROR] User not found or offline." +:+ LF)]) /\
  clients s' = clients s /\ rooms s' = rooms s /\ upload_queue s' = upload_queue s /\
  (strlen (Client.username me) + strlen message + 18 <= BUFFER_SIZE - 1 ->
   line = "[WHISPER from " +:+ Client.username me +:+ "]: " +:+ message +:+ LF).
Proof.
  intros Hwf Hact me line s' evs.
  pose proof (client_at_active_lookup s i Hact) as Hi.
  destruct (handle_whisper_frame i target message s) as (Hc & Hr & Hq & _).
  split; [|split; [|split; [done|split; [done|split; [done|]]]]].
  - intros t Ht.
    assert (Hevs : evs = [Send (Client.socket (client_at s t)) line;
                          Send (Client.socket me) ("[SUCCESS] Whisper sent." +:+ LF);
                          Log ("[WHISPER] " +:+ Client.username me +:+ " to " +:+ target
                               +:+ ": " +:+ message);
                          Stdout ("[COMMAND] " +:+ Client.username me +:+ " sent whisper to "
                                  +:+ target +:+ LF)]).
    { apply new_events_app. unfold s', handle_whisper. rewrite Ht. by srv_simpl. }
    apply find_client_Some in Ht as (ct & Hct & Htact & _).
    rewrite (client_at_lookup _ _ _ Hct) in Hevs.
    rewrite (client_at_lookup _ _ _ Hct).
    destruct Hwf as (_ & _ & _ & Hsock & _).
    rewrite Hevs. split; [|split].
    + intros Hne.
      pose proof (Hsock t i ct me Hct Hi Hne Htact Hact) as Hd.
      socket_cases.
    + intros ->. assert (ct = client_at s i) by congruence. subst ct.
      socket_cases.
    + intros j cj Hj Hjact Hji Hjt.
      pose proof (Hsock j i cj me Hj Hi Hji Hjact Hact) as Hd1.
      pose proof (Hsock j t cj ct Hj Hct Hjt Hjact Htact) as Hd2.
      socket_cases.
  - intros Hnone. apply new_events_app. unfold s', handle_whisper. rewrite Hnone. by srv_simpl.
  - intros Hfit. unfold line, snprintf. apply string_take_all.
    rewrite !length_app_string. unfold strlen, BUFFER_SIZE in *. simpl. lia.
Qed.

Lemma handle_whisper_delivery_witness :
  wf_registry example_two_users /\ Client.active (client_at example_two_users 0) = true /\
  find_client_by_username "bob" example_two_users = Some 1%nat /\
  received_on 5 (new_events example_two_users (handle_whisper 0 "bob" "hello" example_two_users))
  = ["[WHISPER from alice]: hello" +:+ LF].
Proof.
  split; [exact wf_example_two_users|]. split; [reflexivity|]. split; [reflexivity|].
  destruct (handle_whisper_delivery 0 "bob" "hello" example_two_users
              wf_example_two_users eq_refl) as (H & _).
  destruct (H 1%nat eq_refl) as (H1 & _).
  destruct H1 as [H1 _]; [done|]. exact H1.
Defined.

(** ** Session teardown *)

Lemma closed_fds_app evs evs' : closed_fds (evs ++ evs') = closed_fds evs ++ closed_fds evs'.
Proof. unfold closed_fds. by rewrite flat_map_app. Qed.

Lemma closed_fds_no_close evs : Forall no_close evs -> closed_fds evs = [].
Proof.
  induction 1 as [|e evs He _ IH]; [done|]. destruct e; simpl in *; try done.
Qed.

Lemma cleanup_client_trace i s :
  Client.active (client_at s i) = true ->
  exists evs, Forall no_close evs /\
    trace (cleanup_client i s) =
      trace s ++ evs ++
      (if Client.socket (client_at s i) =? -1 then []
       else [Close (Client.socket (client_at s i))]).
Proof.
  intros Hact. unfold cleanup_client. rewrite Hact. simpl.
  destruct (cleanup_before_close_trace i s) as (evs & Ht & Hn).
  pose proof (cleanup_leave_same_fields i s i) as (Hs1 & _).
  pose proof (cleanup_log_client_at i (cleanup_leave i s) i) as Hat2.
  set (s2 := cleanup_log i (cleanup_leave i s)) in *.
  exists evs. split; [done|].
  unfold cleanup_clear_room, cleanup_clear_username, cleanup_deactivate.
  rewrite ?trace_set_client. unfold cleanup_close. rewrite Hat2, Hs1.
  destruct (Z.eqb_spec (Client.socket (client_at s i)) (-1)) as [E|E]; cbn [negb].
  - by rewrite Ht, app_nil_r.
  - rewrite ?trace_set_client, ?trace_emit. simpl. rewrite Ht. by rewrite <- app_assoc.
Qed.

(** X6. [cleanup_client] on an active session, in a well-formed registry:
    the slot ends up free (not active, socket -1, no name, no room), the
    session is a member of no active room, no other session changes and the
    registry is well formed again; the descriptor of the session is closed
    exactly once and nothing else is closed; the name of the session is no
    longer found by a lookup; and a second [cleanup_client] on the slot does
    nothing at all. *)
Theorem cleanup_client_effect i s :
  wf_registry s -> Client.active (client_at s i) = true ->
  let c := client_at s i in
  let s' := cleanup_client i s in
  client_at s' i = Client.mk (-1) EmptyString EmptyString (Client.addr c) false /\
  (forall j, j <> i -> client_at s' j = client_at s j) /\
  (forall k r, rooms s' !! k = Some r -> Room.active r = true -> i ∉ Room.members r) /\
  wf_registry s' /\
  closed_fds (new_events s s') =
    (if Client.socket c =? -1 then [] else [Client.socket c]) /\
  (Client.username c <> EmptyString ->
   find_client_by_username (Client.username c) s' = None) /\
  cleanup_client i s' = s'.
Proof.
  intros Hwf Hact c s'.
  pose proof (client_at_active_lookup s i Hact) as Hi.
  pose proof (lookup_lt_Some _ _ _ Hi) as Hlt.
  destruct (cleanup_client_registry s i Hact) as [Hr Hc].
  pose proof (wf_cleanup_client s i Hwf) as Hwf'.
  assert (Hlen1 : length (clients (cleanup_leave i s)) = length (clients s)).
  { pose proof (cleanup_leave_keys i s) as Hk. apply (f_equal length) in Hk.
    by rewrite !length_fmap in Hk. }
  assert (Hat : client_at s' i = Client.mk (-1) EmptyString EmptyString (Client.addr c) false).
  { unfold client_at at 1. unfold s'. rewrite Hc, list_lookup_insert_eq; [done|].
    by rewrite Hlen1. }
  assert (Hothers : forall j, j <> i -> client_at s' j = client_at s j).
  { intros j Hne. by apply cleanup_client_others. }
  assert (Hlen' : length (clients s') = length (clients s)).
  { unfold s'. by rewrite Hc, length_insert. }
  split; [done|]. split; [done|]. split; [|split; [done|split; [|split]]].
  - intros k r Hk Hract Hin.
    assert (Hi' : clients s' !! i = Some (client_at s' i)).
    { unfold client_at. destruct (lookup_lt_is_Some_2 (clients s') i) as [d Hd]; [lia|].
      by rewrite Hd. }
    apply (not_member_inactive s' i (client_at s' i) Hwf' Hi'); [by rewrite Hat|].
    by exists k, r.
  - destruct (cleanup_client_trace i s Hact) as (evs & Hn & Ht).
    unfold s'. rewrite (new_events_app _ _ _ Ht), closed_fds_app, (closed_fds_no_close _ Hn).
    fold c. by destruct (Client.socket c =? -1).
  - intros Hname. apply find_client_None. intros j d Hj [Hdact Hdname].
    destruct (decide (j = i)) as [->|Hne].
    + rewrite (client_at_lookup _ _ _ Hj) in Hat. rewrite Hat in Hdact. done.
    + pose proof (Hothers j Hne) as Hsame.
      rewrite (client_at_lookup _ _ _ Hj) in Hsame.
      assert (Hj0 : clients s !! j = Some d).
      { pose proof (lookup_lt_Some _ _ _ Hj) as Hjl. rewrite Hlen' in Hjl.
        destruct (lookup_lt_is_Some_2 _ _ Hjl) as [d0 Hd0].
        rewrite (client_at_lookup _ _ _ Hd0) in Hsame. by rewrite Hsame. }
      destruct Hwf as (_ & _ & Huniq & _).
      destruct (Huniq j i d c Hj0 Hi Hne Hdact Hact) as [H|[H|H]]; congruence.
  - unfold cleanup_client at 1. by rewrite Hat.
Qed.

Lemma cleanup_client_effect_witness :
  wf_registry example_room /\ Client.active (client_at example_room 1) = true /\
  closed_fds (new_events example_room (cleanup_client 1 example_room)) = [5] /\
  find_client_by_username "bob" (cleanup_client 1 example_room) = None.
Proof.
  split; [exact wf_example_room|]. split; [reflexivity|].
  destruct (cleanup_client_effect 1 example_room wf_example_room eq_refl)
    as (_ & _ & _ & _ & Hclose & Hfind & _).
  split; [exact Hclose|]. apply Hfind. intros H. vm_compute in H. discriminate H.
Defined.

(** ** Registration *)

Section ReceivedName.
#[local] Arguments String.append !_ _ / : simpl nomatch.

Lemma length_string_take n s : (String.length (string_take n s) <= n)%nat.
Proof.
  revert s. induction n as [|n IH]; intros [|a s]; simpl; try lia.
  specialize (IH s). lia.
Qed.

Lemma length_cut_at c s : (String.length (cut_at c s) <= String.length s)%nat.
Proof. induction s as [|a s IH]; simpl; [done|]. destruct (Ascii.eqb a c); simpl; lia. Qed.

Lemma string_take_app name rest :
  string_take (String.length name) (name +:+ rest) = name.
Proof. induction name as [|a name IH]; simpl; [by destruct rest|]. by rewrite IH. Qed.

Lemma string_take_app_more n name rest :
  (String.length name <= n)%nat ->
  string_take n (name +:+ rest) = name +:+ string_take (n - String.length name) rest.
Proof.
  revert n. induction name as [|a name IH]; intros n Hn; simpl in *.
  - by rewrite Nat.sub_0_r.
  - destruct n as [|n]; [lia|]. simpl. rewrite IH by lia. done.
Qed.

(** An alphanumeric name contains no character that is not alphanumeric,
    so cutting at such a character passes over it. *)
Lemma cut_at_alnum c name rest :
  is_alnum c = false -> all_alnum name = true ->
  cut_at c (name +:+ rest) = name +:+ cut_at c rest.
Proof.
  intros Hc. induction name as [|a name IH]; simpl; [done|].
  destruct (is_alnum a) eqn:Ha; [|done]. intros Hall.
  destruct (Ascii.eqb_spec a c) as [->|_]; [congruence|]. by rewrite IH.
Qed.

Lemma validate_username_alnum u :
  validate_username u = true ->
  all_alnum u = true /\ 0 < strlen u <= MAX_USERNAME_LEN.
Proof.
  unfold validate_username.
  destruct (Z.eqb_spec (strlen u) 0) as [|Hz]; [done|].
  destruct (Z.gtb_spec (strlen u) MAX_USERNAME_LEN) as [|Hl]; [done|]. simpl.
  intros ->. split; [done|]. unfold strlen in *. lia.
Qed.

Lemma append_nil_r (s : string) : s +:+ EmptyString = s.
Proof. induction s as [|a s IH]; simpl; [done|]. by rewrite IH. Qed.

Lemma one_line_received limit data : one_line (received_line limit data) = true.
Proof.
  unfold received_line. generalize (string_take (Z.to_nat limit) data). intros s.
  induction s as [|a s IH]; simpl; [done|].
  destruct (Ascii.eqb_spec a NUL) as [->|Hn]; simpl; [done|].
  destruct (Ascii.eqb_spec a (ascii_of_nat 10)) as [->|Hl]; simpl; [done|].
  rewrite IH.
  destruct (Ascii.eqb_spec a (ascii_of_nat 10)); [done|].
  by destruct (Ascii.eqb_spec a NUL).
Qed.

(** X7. The line a loop of [client_handler] works on, out of the bytes one
    [recv] stored: never longer than the limit given to [recv], and without
    line feed or NUL.  In the registration loop the limit is 16: for a valid
    name followed by a line feed the line is the name, whatever follows; for
    input that goes on after 16 valid characters it is those 16 characters.
    So a name that is too long is cut to its first 16 bytes, not refused. *)
Theorem received_name :
  (forall limit data, 0 <= limit ->
     strlen (received_line limit data) <= limit /\
     one_line (received_line limit data) = true) /\
  (forall name rest, validate_username name = true ->
     received_line MAX_USERNAME_LEN (name +:+ LF +:+ rest) = name /\
     (strlen name = MAX_USERNAME_LEN ->
      received_line MAX_USERNAME_LEN (name +:+ rest) = name)).
Proof.
  split.
  - intros limit data Hlimit. split; [|apply one_line_received].
    unfold received_line, strlen.
    pose proof (length_cut_at (ascii_of_nat 10)
                  (cut_at NUL (string_take (Z.to_nat limit) data))).
    pose proof (length_cut_at NUL (string_take (Z.to_nat limit) data)).
    pose proof (length_string_take (Z.to_nat limit) data).
    lia.
  - intros name rest Hvalid. destruct (validate_username_alnum _ Hvalid) as [Hall Hlen].
    assert (Hn : (String.length name <= Z.to_nat MAX_USERNAME_LEN)%nat)
      by (unfold strlen in Hlen; lia).
    split.
    + unfold received_line. rewrite string_take_app_more by done.
      rewrite (cut_at_alnum NUL) by done.
      rewrite (cut_at_alnum (ascii_of_nat 10)) by done.
      destruct (Z.to_nat MAX_USERNAME_LEN - String.length name)%nat; simpl.
      * apply append_nil_r.
      * apply append_nil_r.
    + intros H16.
      assert (E : Z.to_nat MAX_USERNAME_LEN = String.length name)
        by (unfold strlen in H16; lia).
      unfold received_line. rewrite E, string_take_app.
      rewrite <- (append_nil_r name) at 1. rewrite (cut_at_alnum NUL) by done. simpl.
      rewrite (cut_at_alnum (ascii_of_nat 10)) by done. simpl.
      by rewrite !append_nil_r.
Qed.

End ReceivedName.

Lemma received_name_witness :
  validate_username "abcdefghijklmnop" = true /\
  strlen "abcdefghijklmnop" = MAX_USERNAME_LEN /\
  received_line MAX_USERNAME_LEN ("abcdefghijklmnop" +:+ "qrstuvwxyz" +:+ LF) = "abcdefghijklmnop".
Proof.
  split; [reflexivity|]. split; [reflexivity|].
  destruct received_name as (_ & H).
  destruct (H "abcdefghijklmnop" ("qrstuvwxyz" +:+ LF) eq_refl) as (_ & H16).
  exact (H16 eq_refl).
Defined.

(** X8. The registration loop lets a session into the command loop in one
    case only: the server is running, the slot is active, [recv] returned
    data, the name read from it is valid and no active session holds it.
    The name is then stored in the slot, a lookup of the name finds the
    slot, and no other slot and no room changes.  In every other case in
    which the session stays ([continue]) both tables are as before. *)
Theorem naming_attempt_outcome i received s :
  let r := (naming_attempt i received s).1 in
  let s' := (naming_attempt i received s).2 in
  (r = Naming_done <->
   server_running s = true /\ Client.active (client_at s i) = true /\
   exists data, received = Some data /\
     validate_username (received_line MAX_USERNAME_LEN data) = true /\
     find_client_by_username (received_line MAX_USERNAME_LEN data) s = None) /\
  (r = Naming_done ->
   forall data, received = Some data ->
     Client.username (client_at s' i) = received_line MAX_USERNAME_LEN data /\
     find_client_by_username (received_line MAX_USERNAME_LEN data) s' = Some i /\
     (forall j, j <> i -> client_at s' j = client_at s j) /\
     rooms s' = rooms s) /\
  (r = Naming_again -> clients s' = clients s /\ rooms s' = rooms s).
Proof.
  unfold naming_attempt.
  destruct (server_running s) eqn:Hrun; simpl;
    [|split; [split; [done|by intros (? & _)]|by split]].
  destruct (Client.active (client_at s i)) eqn:Hact; simpl;
    [|split; [split; [done|by intros (_ & ? & _)]|by split]].
  destruct received as [data|];
    [|split; [split; [done|by intros (_ & _ & ? & ? & _)]|by split]].
  pose proof (client_at_active_lookup s i Hact) as Hi.
  pose proof (lookup_lt_Some _ _ _ Hi) as Hlt.
  set (u := received_line MAX_USERNAME_LEN data).
  destruct (validate_username u) eqn:Hvalid; simpl.
  2:{ split; [split; [done|]|by split].
      intros (_ & _ & d & [= <-] & Hv & _). fold u in Hv. congruence. }
  srv_simpl.
  destruct (find_client_by_username u s) as [j|] eqn:Hfind; simpl.
  { split; [split; [done|]|by split].
    intros (_ & _ & d & [= <-] & _ & Hf). fold u in Hf. congruence. }
  unfold login. rewrite server_running_set_client, server_running_emit, Hrun.
  rewrite client_at_set_client_eq by (by rewrite clients_emit).
  simpl. rewrite Hact. simpl. srv_simpl.
  match goal with |- context [find_client_by_username _ ?t = Some i] => set (s2 := t) end.
  assert (Hc2 : clients s2 = <[i := Client.set_username u (client_at s i)]> (clients s)).
  { unfold s2. by rewrite !clients_emit, clients_set_client, clients_emit. }
  assert (Hr2 : rooms s2 = rooms s).
  { unfold s2. by rewrite !rooms_emit, rooms_set_client, rooms_emit. }
  clearbody s2.
  split; [|split; [|done]].
  - split; [|done]. intros _. do 2 (split; [done|]). by exists data.
  - intros _ d [= <-].
    assert (Hat : client_at s2 i = Client.set_username u (client_at s i)).
    { unfold client_at at 1. by rewrite Hc2, list_lookup_insert_eq. }
    rewrite ?Hat, ?client_at_set_client_eq by (by rewrite clients_emit).
    split; [done|]. split; [|split; [|done]].
    + apply find_client_Some.
      exists (Client.set_username u (client_at s i)).
      rewrite Hc2. split; [by apply list_lookup_insert_eq|]. split; [done|]. split; [done|].
      intros j d Hj Hji. rewrite list_lookup_insert_ne in Hj by lia.
      rewrite find_client_None in Hfind. by apply (Hfind j d).
    + intros j Hne. unfold client_at. rewrite Hc2. by rewrite list_lookup_insert_ne.
Qed.

Lemma naming_attempt_outcome_witness :
  (naming_attempt 1 (Some ("bob" +:+ LF)) (accept_connection 5 "10.0.0.2" example_alice).2).1
  = Naming_done /\
  find_client_by_username "bob" example_two_users = Some 1%nat.
Proof.
  destruct (naming_attempt_outcome 1 (Some ("bob" +:+ LF))
              (accept_connection 5 "10.0.0.2" example_alice).2) as (_ & H & _).
  split; [reflexivity|].
  destruct (H eq_refl _ eq_refl) as (_ & Hfind & _). exact Hfind.
Defined.

(** ** Accepting connections *)

(** X9. One round of the accept loop.  A connection is refused exactly when
    every slot is active: the new descriptor is then sent
    "[ERROR] Server full. Try again later." and closed, and no table
    changes.  Otherwise the connection gets the lowest slot that is not
    active, with the descriptor, an empty name and no room, and nothing is
    sent.  A slot that [cleanup_client] has freed is available again: the
    next connection is accepted, into that slot or a lower one. *)
Theorem accept_connection_outcome fd addr s :
  let res := (accept_connection fd addr s).1 in
  let s' := (accept_connection fd addr s).2 in
  rooms s' = rooms s /\ upload_queue s' = upload_queue s /\
  match res with
  | Some i =>
      (i < length (clients s))%nat /\
      Client.active (client_at s i) = false /\
      (forall j, (j < i)%nat -> Client.active (client_at s j) = true) /\
      clients s' = <[i := Client.mk fd EmptyString EmptyString addr true]> (clients s) /\
      trace s' = trace s
  | None =>
      (forall j c, clients s !! j = Some c -> Client.active c = true) /\
      clients s' = clients s /\
      trace s' = trace s ++ [Send fd ("[ERROR] Server full. Try again later." +:+ LF);
                             Close fd]
  end /\
  (forall i fd' addr', Client.active (client_at s i) = true ->
     exists k, (accept_connection fd' addr' (cleanup_client i s)).1 = Some k /\ (k <= i)%nat).
Proof.
  simpl. split; [|split; [|split]].
  - unfold accept_connection. by destruct (list_find slot_free (clients s)) as [[i c]|].
  - unfold accept_connection. by destruct (list_find slot_free (clients s)) as [[i c]|].
  - unfold accept_connection.
    destruct (list_find slot_free (clients s)) as [[i c]|] eqn:Efind; simpl.
    + apply list_find_Some in Efind as (Hi & Hfree & Hlow).
      pose proof (lookup_lt_Some _ _ _ Hi) as Hlt.
      split; [done|]. split; [by rewrite (client_at_lookup _ _ _ Hi)|].
      split; [|done]. intros j Hj.
      assert (Hjl : (j < length (clients s))%nat) by lia.
      destruct (lookup_lt_is_Some_2 _ _ Hjl) as [d Hd].
      rewrite (client_at_lookup _ _ _ Hd).
      destruct (Client.active d) eqn:E; [done|]. exfalso. by apply (Hlow j d).
    + rewrite list_find_None, Forall_forall in Efind.
      split; [|by srv_simpl]. intros j c Hj.
      assert (Hin : c ∈ clients s) by (apply list_elem_of_lookup; by exists j).
      specialize (Efind c Hin). unfold slot_free in Efind.
      by destruct (Client.active c).
  - intros i fd' addr' Hact.
    pose proof (client_at_active_lookup s i Hact) as Hi.
    destruct (cleanup_client_registry s i Hact) as [_ Hc].
    assert (Hlen1 : length (clients (cleanup_leave i s)) = length (clients s)).
    { pose proof (cleanup_leave_keys i s) as Hk. apply (f_equal length) in Hk.
      by rewrite !length_fmap in Hk. }
    assert (Hfree : clients (cleanup_client i s) !! i
                    = Some (Client.mk (-1) EmptyString EmptyString
                              (Client.addr (client_at s i)) false)).
    { rewrite Hc. apply list_lookup_insert_eq. rewrite Hlen1. by apply lookup_lt_Some in Hi. }
    unfold accept_connection.
    destruct (list_find slot_free (clients (cleanup_client i s))) as [[k c]|] eqn:Efind; simpl.
    + exists k. split; [done|].
      apply list_find_Some in Efind as (_ & _ & Hlow).
      destruct (decide (k <= i)%nat) as [|Hgt]; [done|]. exfalso.
      apply (Hlow i _ Hfree); [lia|done].
    + exfalso. rewrite list_find_None, Forall_forall in Efind.
      apply (Efind (Client.mk (-1) EmptyString EmptyString (Client.addr (client_at s i)) false));
        [|done].
      apply list_elem_of_lookup. by exists i.
Qed.

Lemma accept_connection_outcome_witness :
  Client.active (client_at example_two_users 0) = true /\
  exists k, (accept_connection 6 "10.0.0.3" (cleanup_client 0 example_two_users)).1 = Some k /\
            (k <= 0)%nat.
Proof.
  split; [reflexivity|].
  destruct (accept_connection_outcome 6 "10.0.0.3" example_two_users) as (_ & _ & _ & H).
  exact (H 0%nat 6 "10.0.0.3" eq_refl).
Defined.

(** ** Invariants of the running server *)


Lemma reachable_example_room_sys :
  reachable (sys_command 1 (Cmd_join "room1")
               (sys_command 0 (Cmd_join "room1") example_system_two_users)).
Proof.
  apply reachable_step with (y := sys_command 0 (Cmd_join "room1") example_system_two_users).
  - apply reachable_step with (y := example_system_two_users).
    + exact reachable_example_two_users.
    + by apply step_command.
  - by apply step_command.
Qed.


(** X11. The circular buffer is never overrun in either direction.  In
    every reachable state it holds between 0 and 5 records and both
    semaphores are at least 0; a session that has taken a permit of [slots]
    and is about to store its record finds a cell free, so a store never
    overwrites a record that is still to be delivered; and the worker that is
    about to read at [front] finds a record there. *)
Theorem reachable_queue_bounds y :
  reachable y ->
  let q := upload_queue (server y) in
  0 <= count q <= MAX_UPLOAD_QUEUE /\ 0 <= slots q <= MAX_UPLOAD_QUEUE /\
  0 <= items q <= count q /\
  length (contents q) = Z.to_nat (count q) /\
  (forall i fast filename target st,
     sessions y !! i = Some (At_sendfile_slot fast filename target st) ->
     count q < MAX_UPLOAD_QUEUE /\
     forall t, contents (enqueue_locked t q) = contents q ++ [t]) /\
  (worker y = At_take ->
     0 < count q /\
     exists t rest, contents q = t :: rest /\ (dequeue_locked q).1 = t /\
                    contents (dequeue_locked q).2 = rest).
Proof.
  intros Hy q. destruct (reachable_system_inv y Hy) as (_ & _ & Hq).
  destruct Hq as (Hring & Hs & Hi & Hperm & Hcount & _). fold q in Hring, Hs, Hi, Hperm, Hcount.
  pose proof (total_bounds (sessions y)) as [Hu0 Hu1].
  assert (Hw : 0 <= worker_untaken (worker y) <= worker_holds (worker y))
    by (destruct (worker y); simpl; lia).
  pose proof Hring as (_ & _ & Hc & _).
  split; [done|]. split; [lia|]. split; [lia|]. split; [|split].
  - unfold contents. generalize (front q). induction (Z.to_nat (count q)) as [|n IH];
      intros f; simpl; [done|]. by rewrite IH.
  - intros i fast fname target st Hpc.
    pose proof (total_slot_pending _ _ _ _ _ _ Hpc) as Hpend.
    assert (Hlt : count q < MAX_UPLOAD_QUEUE) by lia.
    split; [done|]. intros t. by apply contents_enqueue.
  - intros Hwk. rewrite Hwk in Hcount, Hw. simpl in *.
    assert (Hpos : 0 < count q) by lia. split; [done|].
    pose proof (contents_dequeue q Hring Hpos) as Hdeq.
    destruct (contents q) as [|t rest]; [done|]. simpl in Hdeq.
    exists t, rest. split; [done|]. by injection Hdeq as E1 E2.
Qed.

Lemma reachable_queue_bounds_witness :
  count (upload_queue (server example_system_queued)) = 1 /\
  0 <= count (upload_queue (server example_system_queued)) <= MAX_UPLOAD_QUEUE.
Proof.
  split; [reflexivity|].
  destruct (reachable_queue_bounds _ reachable_example_queued) as (H & _). exact H.
Defined.

(** ** The names in the registries are valid *)

Lemma usernames_valid_kept s s' :
  names_kept s s' -> usernames_valid s -> usernames_valid s'.
Proof.
  intros Hk Hv i c' Hi Hact. destruct (Hk i c' Hi) as (c & Hc & [H|[H|H]]).
  - congruence.
  - by left.
  - injection H as Ha Hu. rewrite Hu. apply (Hv i c Hc). congruence.
Qed.

Lemma usernames_valid_same s s' :
  clients s' = clients s -> usernames_valid s -> usernames_valid s'.
Proof. unfold usernames_valid. by intros ->. Qed.

Lemma room_names_valid_kept s s' :
  room_names_kept s s' -> room_names_valid s -> room_names_valid s'.
Proof.
  intros Hk Hv k r' Hr' Hact. destruct (Hk k r' Hr' Hact) as (r & Hr & Hract & <-).
  by apply (Hv k r).
Qed.

Lemma room_names_kept_same s s' : rooms s' = rooms s -> room_names_kept s s'.
Proof. intros E k r Hk Hact. rewrite E in Hk. by exists r. Qed.

Lemma room_names_kept_trans s1 s2 s3 :
  room_names_kept s1 s2 -> room_names_kept s2 s3 -> room_names_kept s1 s3.
Proof.
  intros H12 H23 k r3 Hk Hact. destruct (H23 k r3 Hk Hact) as (r2 & Hk2 & Hact2 & <-).
  apply (H12 k r2 Hk2 Hact2).
Qed.

Lemma room_names_kept_leave_locked i s : room_names_kept s (leave_locked i s).
Proof.
  unfold leave_locked.
  destruct (list_find _ (rooms s)) as [[k r]|] eqn:Efind; [|by apply room_names_kept_same].
  apply list_find_Some in Efind as (Hk & [Hact _] & _).
  intros l r' Hl Hact'. apply lookup_set_room in Hl as [(<- & -> & _)|[_ Hl]].
  - exists r. by destruct (_ =? 0).
  - by exists r'.
Qed.

Lemma room_names_kept_handle_leave_room i s : room_names_kept s (handle_leave_room i s).
Proof.
  intros k r Hk Hact. rewrite handle_leave_room_rooms in Hk.
  destruct (_ =? 0); [by exists r|]. by apply (room_names_kept_leave_locked i s).
Qed.

Lemma room_names_kept_cleanup_client i s : room_names_kept s (cleanup_client i s).
Proof.
  destruct (Client.active (client_at s i)) eqn:Hact.
  - destruct (cleanup_client_registry s i Hact) as [Hr _].
    intros k r Hk Hract. rewrite Hr in Hk. unfold cleanup_leave in Hk.
    destruct (_ >? 0); [by apply (room_names_kept_handle_leave_room i s)|by exists r].
  - unfold cleanup_client. rewrite Hact. by apply room_names_kept_same.
Qed.

Lemma room_names_valid_handle_join_room i X s :
  room_names_valid s -> room_names_valid (handle_join_room i X s).
Proof.
  intros Hv. unfold handle_join_room.
  destruct (validate_room_name X) eqn:HX; simpl; [|done].
  set (s1 := if strlen (Client.current_room (client_at s i)) >? 0
             then handle_leave_room i s else s).
  assert (Hv1 : room_names_valid s1).
  { unfold s1. destruct (_ >? 0); [|done].
    apply (room_names_valid_kept s); [apply room_names_kept_handle_leave_room|done]. }
  clearbody s1.
  assert (Hjoin : forall k s2, room_names_valid s2 ->
            match join_locked i k X s2 with
            | Some s3 => room_names_valid s3
            | None => True
            end).
  { intros k s2 Hv2. unfold join_locked. destruct (_ >=? MAX_CLIENTS); [done|].
    intros l r Hl Hact. rewrite rooms_set_client in Hl.
    apply lookup_set_room in Hl as [(<- & -> & Hlt)|[_ Hl]]; [|by apply (Hv2 l r)].
    simpl in *. destruct (lookup_lt_is_Some_2 _ _ Hlt) as [r0 Hr0].
    rewrite (room_at_lookup _ _ _ Hr0) in *. by apply (Hv2 k r0). }
  unfold find_or_create_room.
  destruct (list_find (room_named X) (rooms s1)) as [[k r]|].
  - specialize (Hjoin k s1 Hv1). by destruct (join_locked i k X s1).
  - destruct (list_find room_free (rooms s1)) as [[k r]|]; [|done].
    assert (Hv2 : room_names_valid (set_room k (Room.mk X [] true) s1)).
    { intros l r' Hl Hact. apply lookup_set_room in Hl as [(<- & -> & _)|[_ Hl]]; [done|].
      by apply (Hv1 l r'). }
    specialize (Hjoin k _ Hv2). by destruct (join_locked i k X _).
Qed.

Lemma names_valid_run_command i cmd s :
  usernames_valid s /\ room_names_valid s ->
  usernames_valid (run_command i cmd s) /\ room_names_valid (run_command i cmd s).
Proof.
  intros [Hu Hr]. split.
  - apply (usernames_valid_kept s); [|done]. apply names_kept_keys, run_command_keys.
  - destruct cmd; simpl; try done.
    + by apply room_names_valid_handle_join_room.
    + apply (room_names_valid_kept s); [apply room_names_kept_handle_leave_room|done].
    + apply (room_names_valid_kept s); [|done]. apply room_names_kept_same.
      by destruct (handle_broadcast_registry i message s) as (_ & -> & _).
    + apply (room_names_valid_kept s); [|done]. apply room_names_kept_same.
      by destruct (handle_whisper_frame i target message s) as (_ & -> & _).
Qed.

Lemma names_valid_cleanup_client i s :
  usernames_valid s /\ room_names_valid s ->
  usernames_valid (cleanup_client i s) /\ room_names_valid (cleanup_client i s).
Proof.
  intros [Hu Hr]. split.
  - apply (usernames_valid_kept s); [apply names_kept_cleanup_client|done].
  - apply (room_names_valid_kept s); [apply room_names_kept_cleanup_client|done].
Qed.

Lemma names_valid_emit e s :
  usernames_valid s /\ room_names_valid s ->
  usernames_valid (emit e s) /\ room_names_valid (emit e s).
Proof. done. Qed.

Lemma names_valid_same s s' :
  clients s' = clients s -> rooms s' = rooms s ->
  usernames_valid s /\ room_names_valid s -> usernames_valid s' /\ room_names_valid s'.
Proof. unfold usernames_valid, room_names_valid. by intros -> ->. Qed.

Lemma names_valid_naming_attempt i received s :
  usernames_valid s /\ room_names_valid s ->
  usernames_valid (naming_attempt i received s).2 /\
  room_names_valid (naming_attempt i received s).2.
Proof.
  intros Hv. unfold naming_attempt.
  destruct (_ && _); [|by apply names_valid_cleanup_client].
  destruct received as [data|]; simpl;
    [|by apply names_valid_cleanup_client, names_valid_emit].
  destruct (validate_username _) eqn:Hvalid; simpl; [|done].
  srv_simpl.
  destruct (find_client_by_username _ s); simpl; [done|].
  set (s1 := set_client i _ _).
  assert (Hv1 : usernames_valid s1 /\ room_names_valid s1).
  { split; [|apply Hv]. intros j c Hj Hact.
    apply lookup_set_client in Hj as [(<- & -> & _)|[_ Hj]]; [by right|].
    by apply (proj1 Hv j c). }
  clearbody s1. unfold login. destruct (_ || _); simpl; [|done].
  by apply names_valid_cleanup_client.
Qed.

Lemma names_valid_accept_connection fd addr s :
  usernames_valid s /\ room_names_valid s ->
  usernames_valid (accept_connection fd addr s).2 /\
  room_names_valid (accept_connection fd addr s).2.
Proof.
  intros Hv. unfold accept_connection.
  destruct (list_find slot_free (clients s)) as [[k c]|]; simpl; [|done].
  split; [|apply Hv]. intros j c' Hj Hact.
  apply lookup_set_client in Hj as [(<- & -> & _)|[_ Hj]]; [by left|].
  by apply (proj1 Hv j c').
Qed.

Lemma names_valid_init fd :
  usernames_valid (server_init fd) /\ room_names_valid (server_init fd).
Proof.
  split.
  - intros i c Hi Hact. by rewrite (clients_init fd i c Hi) in Hact.
  - intros k r Hk Hact. by rewrite (rooms_init fd k r Hk) in Hact.
Qed.

Lemma step_names_valid y y' :
  step y y' ->
  usernames_valid (server y) /\ room_names_valid (server y) ->
  usernames_valid (server y') /\ room_names_valid (server y').
Proof.
  intros Hstep Hv. step_cases Hstep; unfold_steps; simpl; try done.
  - pose proof (names_valid_accept_connection fd addr (server y) Hv) as Hv'.
    destruct (accept_connection fd addr (server y)) as [[i|] s']; done.
  - pose proof (names_valid_naming_attempt i received (server y) Hv) as Hv'.
    destruct (naming_attempt i received (server y)) as [r s']; done.
  - by apply names_valid_run_command.
  - destruct q; simpl; by apply names_valid_cleanup_client.
  - pose proof (sendfile_begin_frame i fname target stat_result st0 (server y)) as Hf.
    destruct (sendfile_begin _ _ _ _ _ _) as [s'|st s'|st s'];
      destruct Hf as (Hc & Hr & _); by apply (names_valid_same (server y)).
  - destruct (report_transfer_frame fast i fname target (server y)) as (Hc & Hr & _).
    by apply (names_valid_same (server y)).
  - destruct (deliver_frame t (server y)) as (Hc & Hr & _).
    by apply (names_valid_same (server y)).
  - destruct (signal_finish_frame (server y)) as (Hc & Hr & _).
    by apply (names_valid_same (server y)).
Qed.

Lemma reachable_names_valid y :
  reachable y -> usernames_valid (server y) /\ room_names_valid (server y).
Proof.
  intros [fd Hrtc]. revert y Hrtc. apply rtc_ind_r.
  - apply names_valid_init.
  - intros y z _ Hstep IH. by apply (step_names_valid y).
Qed.



(** ** The records in the upload queue *)

Lemma sendfile_begin_checked i filename target stat_result st0 s :
  match sendfile_begin i filename target stat_result st0 s with
  | Rejected _ => True
  | Got_slot _ _ | Must_wait _ _ => validate_filename filename = true
  end.
Proof.
  unfold sendfile_begin. destruct (validate_filename filename); simpl; [|done].
  destruct (find_client_by_username target s); [|done].
  destruct (match stat_result with Some b => _ | None => false end); [done|].
  by destruct (acquire_slots _).
Qed.

Lemma make_transfer_checked filename sender target st now :
  validate_filename filename = true -> validate_username sender = true ->
  transfer_checked (make_transfer filename sender target st now).
Proof.
  intros Hf Hs. unfold transfer_checked, make_transfer. simpl.
  do 2 (split; [done|]). split; [|done].
  destruct (_ =? 0); [lia|]. unfold to_size_t.
  apply Z.mod_pos_bound. lia.
Qed.

Lemma files_checked_session y i pc' s' :
  (forall f, pending_file pc' = Some f -> validate_filename f = true) ->
  files_checked y -> files_checked (with_session i pc' (with_server s' y)).
Proof.
  intros Hpc' [Hpcs Hcom]. split; [|done]. intros j pc f Hj Hf. simpl in Hj.
  destruct (decide (i = j)) as [<-|Hne].
  - pose proof (lookup_lt_Some _ _ _ Hj) as Hlt. rewrite length_insert in Hlt.
    rewrite list_lookup_insert_eq in Hj by done. injection Hj as <-. by apply Hpc'.
  - rewrite list_lookup_insert_ne in Hj by done. by apply (Hpcs j pc f).
Qed.

Lemma files_checked_ext y y' :
  sessions y' = sessions y -> committed y' = committed y ->
  files_checked y -> files_checked y'.
Proof. unfold files_checked. by intros -> ->. Qed.

Lemma step_files_checked y y' :
  step y y' -> threads_ok y -> names_ok y -> usernames_valid (server y) ->
  files_checked y -> files_checked y'.
Proof.
  intros Hstep Hthreads Hnames Hvalid Hok. step_cases Hstep; unfold_steps;
    try (by apply (files_checked_ext y)).
  - destruct (accept_connection fd addr (server y)) as [[i|] s'].
    + by apply files_checked_session.
    + by apply (files_checked_ext y).
  - destruct (naming_attempt i received (server y)) as [r s'].
    apply files_checked_session; [|done]. by destruct r.
  - by apply files_checked_session.
  - pose proof (sendfile_begin_checked i fname target stat_result st0 (server y)) as Hf.
    destruct (sendfile_begin _ _ _ _ _ _) as [s'|st s'|st s'].
    + by apply (files_checked_ext y).
    + apply files_checked_session; [|done]. by intros f [= <-].
    + apply files_checked_session; [|done]. by intros f [= <-].
  - apply files_checked_session; [|done]. intros f [= <-].
    by apply (proj1 Hok i _ fname Hpc).
  - pose proof (proj1 Hok i _ fname Hpc eq_refl) as Hf.
    assert (Hu : validate_username (Client.username (client_at (server y) i)) = true).
    { assert (Hact : Client.active (client_at (server y) i) = true)
        by (by apply (threads_ok_active y i _ Hthreads Hpc)).
      pose proof (client_at_active_lookup _ _ Hact) as Hi.
      destruct (Hvalid i _ Hi Hact) as [He|Hv]; [|done].
      by destruct (Hnames i _ Hpc I). }
    destruct Hok as [Hpcs Hcom]. split.
    + intros j pc f Hj Hpf. simpl in Hj.
      destruct (decide (i = j)) as [<-|Hne].
      * pose proof (lookup_lt_Some _ _ _ Hj) as Hlt. rewrite length_insert in Hlt.
        rewrite list_lookup_insert_eq in Hj by done. injection Hj as <-.
        simpl in Hpf. by injection Hpf as <-.
      * rewrite list_lookup_insert_ne in Hj by done. by apply (Hpcs j pc f).
    + simpl. apply Forall_app. split; [done|]. constructor; [|constructor].
      by apply make_transfer_checked.
  - apply files_checked_session; [|done]. intros f [= <-].
    by apply (proj1 Hok i _ fname Hpc).
  - by apply files_checked_session.
Qed.

Lemma reachable_files_checked y : reachable y -> files_checked y.
Proof.
  intros [fd Hrtc]. revert y Hrtc. apply rtc_ind_r.
  - split; [|constructor]. intros i pc f Hi.
    change (sessions (system_init fd)) with (replicate (Z.to_nat MAX_CLIENTS) At_free) in Hi.
    apply lookup_replicate in Hi as [-> _]. done.
  - intros y z Hrtc Hstep IH.
    assert (Hy : reachable y) by (by exists fd).
    destruct (reachable_system_inv y Hy) as (_ & Hthreads & _).
    apply (step_files_checked y); try done.
    + by apply reachable_names_ok.
    + by apply reachable_names_valid.
Qed.



(** ** The command loop: from the line to the handler *)

Section Parsing.
#[local] Arguments String.append !_ _ / : simpl nomatch.

Lemma has_prefix_app lit s : has_prefix lit (lit +:+ s) = true.
Proof.
  unfold has_prefix. induction lit as [|a lit IH]; simpl; [by destruct s|].
  by destruct (ascii_dec a a).
Qed.

Lemma string_drop_app lit s : string_drop (String.length lit) (lit +:+ s) = s.
Proof. induction lit as [|a lit IH]; simpl; [by destruct s|done]. Qed.

Lemma string_app_assoc (a b c : string) : (a +:+ b) +:+ c = a +:+ (b +:+ c).
Proof. induction a as [|x a IH]; simpl; [done|]. by rewrite IH. Qed.

Lemma is_alnum_not_space a : is_alnum a = true -> isspace a = false.
Proof.
  unfold is_alnum, isspace. generalize (Z.of_nat (nat_of_ascii a)). intros n H. lia.
Qed.

Lemma all_alnum_no_space s : all_alnum s = true -> no_space s = true.
Proof.
  induction s as [|a s IH]; simpl; [done|].
  destruct (is_alnum a) eqn:Ha; [|done]. intros Hs.
  by rewrite (is_alnum_not_space a Ha), IH.
Qed.

Lemma all_alnum_one_line s : all_alnum s = true -> one_line s = true.
Proof.
  induction s as [|a s IH]; simpl; [done|].
  destruct (is_alnum a) eqn:Ha; [|done]. intros Hs. rewrite IH by done.
  destruct (Ascii.eqb_spec a (ascii_of_nat 10)) as [->|_]; [done|].
  destruct (Ascii.eqb_spec a NUL) as [->|_]; done.
Qed.

Lemma skip_space_app ws s : all_space ws = true -> skip_space (ws +:+ s) = skip_space s.
Proof.
  induction ws as [|a ws IH]; simpl; [done|].
  destruct (isspace a); [|done]. simpl. apply IH.
Qed.

Lemma skip_space_word w s :
  no_space w = true -> w <> EmptyString -> skip_space (w +:+ s) = w +:+ s.
Proof. destruct w as [|a w]; [done|]. simpl. by destruct (isspace a). Qed.

(** A conversion [%<n>s] at a word: it stores the first [n] characters of
    the word and stops there, or at the end of the word. *)
Lemma scan_chars_word n : forall w rest,
  no_space w = true -> word_ends rest = true ->
  scan_chars n (w +:+ rest) = (string_take n w, string_drop n w +:+ rest).
Proof.
  induction n as [|n IH]; intros w rest Hw Hrest.
  - simpl. by destruct (w +:+ rest).
  - destruct w as [|a w]; simpl in *.
    + destruct rest as [|b rest]; [done|]. simpl in Hrest. by rewrite Hrest.
    + destruct (isspace a); [done|]. simpl in Hw. by rewrite (IH w rest Hw Hrest).
Qed.

Lemma scan_word_word n ws w rest :
  all_space ws = true -> no_space w = true -> w <> EmptyString -> word_ends rest = true ->
  scan_word n (ws +:+ w +:+ rest) = Some (string_take n w, string_drop n w +:+ rest).
Proof.
  intros Hws Hw Hne Hrest. unfold scan_word.
  rewrite skip_space_app, skip_space_word by done.
  rewrite <- (scan_chars_word n w rest) by done.
  destruct w as [|a w]; [done|]. done.
Qed.

Lemma string_drop_all n s : (String.length s <= n)%nat -> string_drop n s = EmptyString.
Proof.
  revert s. induction n as [|n IH]; intros [|a s] Hn; simpl in *; try done; try lia.
  apply IH. lia.
Qed.

Lemma split_at_space_word t m :
  ~ occurs " "%char t -> split_at_space (t +:+ String " "%char m) = Some (t, m).
Proof.
  induction t as [|a t IH]; simpl; [done|]. intros Hno.
  destruct (Ascii.eqb_spec a " "%char) as [->|_]; [exfalso; apply Hno; by left|].
  rewrite IH; [done|]. intros H. apply Hno. by right.
Qed.

Lemma cut_at_one_line c s :
  (c = ascii_of_nat 10 \/ c = NUL) -> one_line s = true -> cut_at c s = s.
Proof.
  intros Hc. induction s as [|a s IH]; simpl; [done|].
  destruct (Ascii.eqb_spec a (ascii_of_nat 10)) as [->|H1]; [done|].
  destruct (Ascii.eqb_spec a NUL) as [->|H2]; [done|]. simpl. intros Hs.
  destruct (Ascii.eqb_spec a c) as [->|_]; [by destruct Hc|]. by rewrite IH.
Qed.

Lemma cut_at_app_one_line c s rest :
  (c = ascii_of_nat 10 \/ c = NUL) -> one_line s = true ->
  cut_at c (s +:+ rest) = s +:+ cut_at c rest.
Proof.
  intros Hc. induction s as [|a s IH]; simpl; [done|].
  destruct (Ascii.eqb_spec a (ascii_of_nat 10)) as [->|H1]; [done|].
  destruct (Ascii.eqb_spec a NUL) as [->|H2]; [done|]. simpl. intros Hs.
  destruct (Ascii.eqb_spec a c) as [->|_]; [by destruct Hc|]. by rewrite IH.
Qed.

(** The line the loop works on, for a line the client sent whole: the
    text up to the line feed, whether or not the line feed (and anything
    after it) came with the same [recv]. *)
Lemma received_line_one_line line rest :
  one_line line = true -> strlen line < BUFFER_SIZE - 1 ->
  received_line (BUFFER_SIZE - 1) line = line /\
  received_line (BUFFER_SIZE - 1) (line +:+ LF +:+ rest) = line.
Proof.
  intros Hline Hlen.
  assert (Hn : (String.length line <= Z.to_nat (BUFFER_SIZE - 1))%nat)
    by (unfold strlen in Hlen; lia).
  unfold received_line. split.
  - rewrite string_take_all by done.
    rewrite (cut_at_one_line NUL); [|by right|done].
    rewrite (cut_at_one_line (ascii_of_nat 10)); [done|by left|done].
  - rewrite string_take_app_more by done.
    rewrite (cut_at_app_one_line NUL); [|by right|done].
    rewrite (cut_at_app_one_line (ascii_of_nat 10)); [|by left|done].
    assert (E : cut_at (ascii_of_nat 10)
                  (cut_at NUL (string_take (Z.to_nat (BUFFER_SIZE - 1) - String.length line)
                                 (LF +:+ rest))) = EmptyString).
    { destruct (Z.to_nat (BUFFER_SIZE - 1) - String.length line)%nat eqn:E; [unfold strlen in Hlen; lia|].
      done. }
    rewrite E. apply append_nil_r.
Qed.

End Parsing.

Section Requests.
#[local] Arguments String.append !_ _ / : simpl nomatch.

Variable room_name0 : string.

Lemma strlen_command lit arg :
  lit <> EmptyString -> (strlen (lit +:+ arg) =? 0) = false.
Proof.
  intros Hne. apply Z.eqb_neq. rewrite string_app_length.
  destruct lit; [done|]. unfold strlen. simpl. lia.
Qed.

Lemma parse_join arg :
  parse_request room_name0 ("/join " +:+ arg) =
  Req_command (Cmd_join (match scan_word 32 arg with
                         | Some (room_name, _) => room_name
                         | None => room_name0
                         end)).
Proof.
  unfold parse_request. rewrite strlen_command by done.
  by rewrite (has_prefix_app "/join " arg).
Qed.

Lemma parse_broadcast arg :
  parse_request room_name0 ("/broadcast " +:+ arg) = Req_command (Cmd_broadcast arg).
Proof.
  unfold parse_request. rewrite strlen_command by done.
  change (has_prefix "/join " ("/broadcast " +:+ arg)) with false.
  change (streq ("/broadcast " +:+ arg) "/leave") with false.
  by rewrite (has_prefix_app "/broadcast " arg).
Qed.

Lemma parse_whisper arg :
  parse_request room_name0 ("/whisper " +:+ arg) =
  match split_at_space arg with
  | Some (target, message) =>
      if strlen target >? MAX_USERNAME_LEN then Req_overflow
      else Req_command (Cmd_whisper target message)
  | None => Req_command Cmd_whisper_usage
  end.
Proof.
  unfold parse_request. rewrite strlen_command by done.
  change (has_prefix "/join " ("/whisper " +:+ arg)) with false.
  change (streq ("/whisper " +:+ arg) "/leave") with false.
  change (has_prefix "/broadcast " ("/whisper " +:+ arg)) with false.
  by rewrite (has_prefix_app "/whisper " arg).
Qed.

Lemma parse_sendfile arg :
  parse_request room_name0 ("/sendfile " +:+ arg) =
  match scan_word 255 arg with
  | Some (filename, rest) =>
      match scan_word 16 rest with
      | Some (target, _) => Req_sendfile filename target
      | None => Req_command Cmd_sendfile_usage
      end
  | None => Req_command Cmd_sendfile_usage
  end.
Proof.
  unfold parse_request. rewrite strlen_command by done.
  change (has_prefix "/join " ("/sendfile " +:+ arg)) with false.
  change (streq ("/sendfile " +:+ arg) "/leave") with false.
  change (has_prefix "/broadcast " ("/sendfile " +:+ arg)) with false.
  change (has_prefix "/whisper " ("/sendfile " +:+ arg)) with false.
  by rewrite (has_prefix_app "/sendfile " arg).
Qed.

Lemma scan_word_whole n w :
  no_space w = true -> w <> EmptyString -> (String.length w <= n)%nat ->
  scan_word n w = Some (w, EmptyString).
Proof.
  intros Hw Hne Hn.
  pose proof (scan_word_word n EmptyString w EmptyString eq_refl Hw Hne eq_refl) as H.
  simpl in H. rewrite append_nil_r in H. rewrite H.
  by rewrite string_take_all, string_drop_all.
Qed.

Lemma no_space_not_occurs w : no_space w = true -> ~ occurs " "%char w.
Proof.
  induction w as [|a w IH]; [intros _ H; exact H|]. cbn [no_space occurs].
  destruct (isspace a) eqn:Ha; [intros Hw; discriminate Hw|].
  intros Hw [->|H]; [discriminate Ha|by apply IH].
Qed.

Lemma validate_room_name_alnum X :
  validate_room_name X = true ->
  all_alnum X = true /\ 0 < strlen X <= MAX_ROOM_NAME_LEN.
Proof.
  unfold validate_room_name.
  destruct (Z.eqb_spec (strlen X) 0) as [|Hz]; [done|].
  destruct (Z.gtb_spec (strlen X) MAX_ROOM_NAME_LEN) as [|Hl]; [done|]. simpl.
  intros ->. split; [done|]. unfold strlen in *. lia.
Qed.

Lemma strlen_pos_nonempty w : 0 < strlen w -> w <> EmptyString.
Proof. by intros H ->. Qed.

(** X14. The lines of the protocol reach the handler they name, with the
    arguments as typed: [/join X] for a valid room name, [/leave], [/exit],
    [/broadcast m] for any text (the empty one too), [/whisper u m] for a
    valid user name (the message may contain spaces), [/sendfile f u] for a
    file name of at most 255 characters without white space and a valid user
    name.  It makes no difference whether the line feed the client sends
    after the line arrives with the same [recv] or not, and a line feed alone
    is skipped. *)
Theorem parse_request_protocol :
  (forall X, validate_room_name X = true ->
     parse_request room_name0 ("/join " +:+ X) = Req_command (Cmd_join X)) /\
  parse_request room_name0 "/leave" = Req_command Cmd_leave /\
  parse_request room_name0 "/exit" = Req_exit /\
  (forall m, parse_request room_name0 ("/broadcast " +:+ m) = Req_command (Cmd_broadcast m)) /\
  (forall u m, validate_username u = true ->
     parse_request room_name0 ("/whisper " +:+ u +:+ " " +:+ m)
     = Req_command (Cmd_whisper u m)) /\
  (forall f u, no_space f = true -> 0 < strlen f <= 255 -> validate_username u = true ->
     parse_request room_name0 ("/sendfile " +:+ f +:+ " " +:+ u) = Req_sendfile f u) /\
  (forall line rest, one_line line = true -> strlen line < BUFFER_SIZE - 1 ->
     received_request room_name0 (line +:+ LF +:+ rest) = parse_request room_name0 line /\
     received_request room_name0 line = parse_request room_name0 line) /\
  received_request room_name0 LF = Req_none.
Proof.
  split; [|split; [done|split; [done|split; [apply parse_broadcast|split; [|split; [|split]]]]]].
  - intros X HX. destruct (validate_room_name_alnum X HX) as [Hall Hlen].
    rewrite parse_join, scan_word_whole; [done|by apply all_alnum_no_space| |].
    + apply strlen_pos_nonempty. lia.
    + unfold strlen, MAX_ROOM_NAME_LEN in Hlen. lia.
  - intros u m Hu. destruct (validate_username_alnum u Hu) as [Hall Hlen].
    rewrite parse_whisper.
    change (u +:+ " " +:+ m) with (u +:+ String " "%char m).
    rewrite split_at_space_word by (by apply no_space_not_occurs, all_alnum_no_space).
    destruct (Z.gtb_spec (strlen u) MAX_USERNAME_LEN); [lia|done].
  - intros f u Hf Hlen Hu. destruct (validate_username_alnum u Hu) as [Hall Hulen].
    rewrite parse_sendfile.
    pose proof (scan_word_word 255 EmptyString f (" " +:+ u) eq_refl Hf
                  ltac:(apply strlen_pos_nonempty; lia) eq_refl) as H1.
    change (EmptyString +:+ f +:+ " " +:+ u) with (f +:+ " " +:+ u) in H1. rewrite H1.
    rewrite string_take_all, string_drop_all by (unfold strlen in Hlen; lia).
    change (EmptyString +:+ " " +:+ u) with (" " +:+ u).
    pose proof (scan_word_word 16 " " u EmptyString eq_refl
                  (all_alnum_no_space u Hall)
                  ltac:(apply strlen_pos_nonempty; lia) eq_refl) as H2.
    rewrite append_nil_r in H2. rewrite H2.
    rewrite string_take_all by (unfold strlen, MAX_USERNAME_LEN in Hulen; lia). done.
  - intros line rest Hline Hlen. unfold received_request.
    destruct (received_line_one_line line rest Hline Hlen) as [-> ->]. done.
  - reflexivity.
Qed.

End Requests.

Lemma parse_request_protocol_witness :
  validate_room_name "room1" = true /\
  received_request EmptyString ("/join room1" +:+ LF) = Req_command (Cmd_join "room1").
Proof.
  split; [reflexivity|].
  destruct (parse_request_protocol EmptyString) as (Hjoin & _ & _ & _ & _ & _ & Hline & _).
  destruct (Hline "/join room1" EmptyString eq_refl ltac:(unfold strlen, BUFFER_SIZE; simpl; lia))
    as [H _].
  rewrite append_nil_r in H. rewrite H. exact (Hjoin "room1" eq_refl).
Defined.

Section Arguments.
#[local] Arguments String.append !_ _ / : simpl nomatch.

Variable room_name0 : string.

Lemma skip_space_all ws : all_space ws = true -> skip_space ws = EmptyString.
Proof.
  induction ws as [|a ws IH]; [done|]. cbn [all_space skip_space].
  destruct (isspace a); [|done]. apply IH.
Qed.

Lemma scan_word_blank n ws : all_space ws = true -> scan_word n ws = None.
Proof. intros Hws. unfold scan_word. by rewrite skip_space_all. Qed.

Lemma all_space_word_ends ws : all_space ws = true -> word_ends ws = true.
Proof. destruct ws as [|a ws]; [done|]. cbn [all_space word_ends]. by destruct (isspace a). Qed.

Lemma split_at_space_none t : ~ occurs " "%char t -> split_at_space t = None.
Proof.
  induction t as [|a t IH]; [done|]. cbn [occurs split_at_space]. intros Hno.
  destruct (Ascii.eqb_spec a " "%char) as [->|_]; [exfalso; apply Hno; by left|].
  rewrite IH; [done|]. intros H. apply Hno. by right.
Qed.

Lemma no_space_drop n : forall w, no_space w = true -> no_space (string_drop n w) = true.
Proof.
  induction n as [|n IH]; intros [|a w]; try done. cbn [no_space string_drop].
  intros H. apply IH. by destruct (isspace a).
Qed.

Lemma string_drop_nonempty n : forall w,
  (n < String.length w)%nat -> string_drop n w <> EmptyString.
Proof.
  induction n as [|n IH]; intros [|a w] Hn; simpl in *; try done; try lia.
  apply IH. lia.
Qed.

Lemma parse_command_word_more (rest : string) :
  rest <> EmptyString ->
  parse_request room_name0 ("/leave" +:+ rest) = Req_command Cmd_unknown /\
  parse_request room_name0 ("/exit" +:+ rest) = Req_command Cmd_unknown.
Proof.
  intros Hne. destruct rest as [|a rest]; [done|]. unfold parse_request.
  rewrite !strlen_command by done. split.
  - change (has_prefix "/join " ("/leave" +:+ String a rest)) with false.
    change (streq ("/leave" +:+ String a rest) "/leave") with false.
    change (has_prefix "/broadcast " ("/leave" +:+ String a rest)) with false.
    change (has_prefix "/whisper " ("/leave" +:+ String a rest)) with false.
    change (has_prefix "/sendfile " ("/leave" +:+ String a rest)) with false.
    change (streq ("/leave" +:+ String a rest) "/exit") with false.
    done.
  - change (has_prefix "/join " ("/exit" +:+ String a rest)) with false.
    change (streq ("/exit" +:+ String a rest) "/leave") with false.
    change (has_prefix "/broadcast " ("/exit" +:+ String a rest)) with false.
    change (has_prefix "/whisper " ("/exit" +:+ String a rest)) with false.
    change (has_prefix "/sendfile " ("/exit" +:+ String a rest)) with false.
    change (streq ("/exit" +:+ String a rest) "/exit") with false.
    done.
Qed.

(** X15. How the command loop delimits the arguments of a line.  The room
    of a [/join] is the first word after the command, cut to 32 characters;
    white space before it and whatever follows it are ignored; when nothing
    but white space follows, [sscanf] assigns nothing and the handler is
    called with what the array [room_name] held before.  [/leave] and
    [/exit] are recognised only when nothing follows them, not even a space.
    The target of a [/whisper] is the text up to the first space (the empty
    text if the space comes at once); without a space the usage line is
    sent; a target of more than 16 characters is copied past the end of its
    array.  A [/sendfile] with a single word gets the usage line; with two,
    the file name is the first word cut to 255 characters and the target the
    second cut to 16, except that the characters of a file name beyond the
    255th are taken for the target. *)
Theorem parse_request_arguments :
  (forall ws w rest,
     all_space ws = true -> no_space w = true -> w <> EmptyString -> word_ends rest = true ->
     parse_request room_name0 ("/join " +:+ ws +:+ w +:+ rest)
     = Req_command (Cmd_join (string_take 32 w))) /\
  (forall ws, all_space ws = true ->
     parse_request room_name0 ("/join " +:+ ws) = Req_command (Cmd_join room_name0)) /\
  (forall rest, rest <> EmptyString ->
     parse_request room_name0 ("/leave" +:+ rest) = Req_command Cmd_unknown /\
     parse_request room_name0 ("/exit" +:+ rest) = Req_command Cmd_unknown) /\
  (forall t, ~ occurs " "%char t ->
     parse_request room_name0 ("/whisper " +:+ t) = Req_command Cmd_whisper_usage) /\
  (forall t m, ~ occurs " "%char t ->
     parse_request room_name0 ("/whisper " +:+ t +:+ " " +:+ m)
     = if strlen t >? MAX_USERNAME_LEN then Req_overflow
       else Req_command (Cmd_whisper t m)) /\
  (forall ws f ws',
     all_space ws = true -> no_space f = true -> f <> EmptyString -> strlen f <= 255 ->
     all_space ws' = true ->
     parse_request room_name0 ("/sendfile " +:+ ws +:+ f +:+ ws')
     = Req_command Cmd_sendfile_usage) /\
  (forall f u rest,
     no_space f = true -> f <> EmptyString -> no_space u = true -> u <> EmptyString ->
     word_ends rest = true ->
     parse_request room_name0 ("/sendfile " +:+ f +:+ " " +:+ u +:+ rest)
     = Req_sendfile (string_take 255 f)
         (string_take 16 (if strlen f >? 255 then string_drop 255 f else u))).
Proof.
  split; [|split; [|split; [apply parse_command_word_more|split; [|split; [|split]]]]].
  - intros ws w rest Hws Hw Hne Hrest.
    by rewrite parse_join, scan_word_word.
  - intros ws Hws. by rewrite parse_join, scan_word_blank.
  - intros t Ht. by rewrite parse_whisper, split_at_space_none.
  - intros t m Ht. rewrite parse_whisper.
    change (t +:+ " " +:+ m) with (t +:+ String " "%char m).
    by rewrite split_at_space_word.
  - intros ws f ws' Hws Hf Hne Hlen Hws'.
    rewrite parse_sendfile, scan_word_word by (done || by apply all_space_word_ends).
    rewrite string_drop_all by (unfold strlen in Hlen; lia).
    change (EmptyString +:+ ws') with ws'. by rewrite scan_word_blank.
  - intros f u rest Hf Hfne Hu Hune Hrest.
    rewrite parse_sendfile.
    pose proof (scan_word_word 255 EmptyString f (" " +:+ u +:+ rest) eq_refl Hf Hfne eq_refl)
      as H1.
    change (EmptyString +:+ f +:+ " " +:+ u +:+ rest) with (f +:+ " " +:+ u +:+ rest) in H1.
    rewrite H1.
    destruct (Z.gtb_spec (strlen f) 255) as [Hlong|Hshort].
    + pose proof (scan_word_word 16 EmptyString (string_drop 255 f) (" " +:+ u +:+ rest)
                    eq_refl (no_space_drop 255 f Hf)
                    ltac:(apply string_drop_nonempty; unfold strlen in Hlong; lia) eq_refl) as H2.
      change (EmptyString +:+ string_drop 255 f +:+ " " +:+ u +:+ rest)
        with (string_drop 255 f +:+ " " +:+ u +:+ rest) in H2.
      by rewrite H2.
    + rewrite string_drop_all by (unfold strlen in Hshort; lia).
      change (EmptyString +:+ " " +:+ u +:+ rest) with (" " +:+ u +:+ rest).
      by rewrite (scan_word_word 16 " " u rest).
Qed.

End Arguments.

Lemma parse_request_arguments_witness :
  parse_request "lobby" "/join   room1 and more" = Req_command (Cmd_join "room1") /\
  parse_request "lobby" "/whisper  hello" = Req_command (Cmd_whisper EmptyString "hello").
Proof.
  destruct (parse_request_arguments "lobby") as (Hjoin & _ & _ & _ & Hwhisper & _).
  split.
  - exact (Hjoin "  " "room1" " and more" eq_refl eq_refl ltac:(done) eq_refl).
  - exact (Hwhisper EmptyString "hello" ltac:(intros H; exact H)).
Defined.

(** ** The transfer worker *)

(** X16. What the worker does with a record it took from the queue, in a
    well-formed registry.  The receiver is looked up by name at this moment:
    when an active session holds the name, that session, and no other, is
    sent one message, the line
    "[FILE] Received '<file>' from <sender> (<size> bytes)" cut to the 511
    bytes of its buffer (the whole line when it fits), and the success is
    logged; when none holds it, nothing is sent and the failure is logged.
    No table changes either way. *)
Theorem deliver_outcome t s :
  wf_registry s ->
  let line := snprintf 512
                ("[FILE] Received '" +:+ filename t +:+ "' from " +:+ sender t +:+ " ("
                 +:+ pretty (file_size t) +:+ " bytes)" +:+ LF) in
  let s' := deliver t s in
  let evs := new_events s s' in
  (forall r, find_client_by_username (receiver t) s = Some r ->
     received_on (Client.socket (client_at s r)) evs = [line] /\
     (forall j cj, clients s !! j = Some cj -> Client.active cj = true -> j <> r ->
        received_on (Client.socket cj) evs = []) /\
     last evs = Some (Log ("[SEND FILE] '" +:+ filename t +:+ "' sent from " +:+ sender t
                           +:+ " to " +:+ receiver t +:+ " (success)"))) /\
  (find_client_by_username (receiver t) s = None ->
     evs = [Log ("[SEND FILE] '" +:+ filename t +:+ "' from " +:+ sender t +:+ " to "
                 +:+ receiver t +:+ " (failed - user offline)")]) /\
  clients s' = clients s /\ rooms s' = rooms s /\ upload_queue s' = upload_queue s /\
  (strlen (filename t) + strlen (sender t) + strlen (pretty (file_size t)) + 34 <= 511 ->
   line = "[FILE] Received '" +:+ filename t +:+ "' from " +:+ sender t +:+ " ("
          +:+ pretty (file_size t) +:+ " bytes)" +:+ LF).
Proof.
  intros Hwf line s' evs.
  destruct (deliver_frame t s) as (Hc & Hr & Hq & _).
  split; [|split; [|split; [done|split; [done|split; [done|]]]]].
  - intros r Hfind.
    assert (Hevs : evs = [Send (Client.socket (client_at s r)) line;
                          Log ("[SEND FILE] '" +:+ filename t +:+ "' sent from " +:+ sender t
                               +:+ " to " +:+ receiver t +:+ " (success)")]).
    { apply new_events_app. unfold s', deliver. rewrite Hfind. by srv_simpl. }
    apply find_client_Some in Hfind as (cr & Hcr & Hract & _).
    rewrite (client_at_lookup _ _ _ Hcr) in *.
    destruct Hwf as (_ & _ & _ & Hsock & _).
    rewrite Hevs. split; [|split; [|done]].
    + socket_cases.
    + intros j cj Hj Hjact Hjr.
      pose proof (Hsock j r cj cr Hj Hcr Hjr Hjact Hract) as Hd. socket_cases.
  - intros Hnone. apply new_events_app. unfold s', deliver. rewrite Hnone. by srv_simpl.
  - intros Hfit. unfold line, snprintf. apply string_take_all.
    rewrite !length_app_string. unfold strlen in *. simpl. lia.
Qed.

Lemma deliver_outcome_witness :
  wf_registry example_two_users /\
  received_on 4 (new_events example_two_users (deliver example_transfer example_two_users))
  = ["[FILE] Received 'a.txt' from bob (10 bytes)" +:+ LF].
Proof.
  split; [exact wf_example_two_users|].
  destruct (deliver_outcome example_transfer example_two_users wf_example_two_users)
    as (H & _).
  destruct (H 0%nat eq_refl) as (H1 & _). exact H1.
Defined.

(** ** Joining a room subscribes to its broadcasts *)

Lemma join_locked_other i k X s s' j :
  join_locked i k X s = Some s' -> j <> i -> client_at s' j = client_at s j.
Proof.
  unfold join_locked. destruct (_ >=? MAX_CLIENTS); [done|]. intros [= <-] Hne.
  unfold client_at. rewrite clients_set_client, clients_set_room.
  by rewrite list_lookup_insert_ne.
Qed.

Lemma handle_join_room_other i X s j :
  j <> i -> client_at (handle_join_room i X s) j = client_at s j.
Proof.
  intros Hne. unfold handle_join_room.
  destruct (validate_room_name X); simpl; [|done].
  set (s1 := if strlen (Client.current_room (client_at s i)) >? 0
             then handle_leave_room i s else s).
  assert (H1 : client_at s1 j = client_at s j).
  { unfold s1. destruct (_ >? 0); [|done]. by apply handle_leave_room_other. }
  clearbody s1. rewrite <- H1.
  pose proof (find_or_create_room_clients X s1) as Hc.
  destruct (find_or_create_room X s1) as [ok s2]; simpl in Hc.
  assert (H2 : client_at s2 j = client_at s1 j) by (unfold client_at; by rewrite Hc).
  rewrite <- H2. destruct ok as [k|]; [|by srv_simpl].
  destruct (join_locked i k X s2) as [s3|] eqn:Ej; [|by srv_simpl].
  srv_simpl. by apply (join_locked_other i k X s2).
Qed.

(** Who is sent what by a broadcast, as far as the other sessions go. *)
Lemma broadcast_delivery i message s :
  wf_registry s -> Client.active (client_at s i) = true ->
  Client.current_room (client_at s i) <> EmptyString ->
  let evs := new_events s (handle_broadcast i message s) in
  forall j cj, clients s !! j = Some cj -> Client.active cj = true -> j <> i ->
    Client.username cj <> Client.username (client_at s i) ->
    received_on (Client.socket cj) evs =
      if decide (Client.current_room cj = Client.current_room (client_at s i))
      then [room_line (Client.current_room (client_at s i))
                      (Client.username (client_at s i)) message]
      else [].
Proof.
  intros Hwf Hact Hroom evs j cj Hj Hcja Hji Hname.
  pose proof Hwf as (Hlc & Hlr & Hu & Hs & Hr & Hn & Hm).
  pose proof (client_at_active_lookup s i Hact) as Hi.
  destruct (Hm i _ Hi Hact Hroom) as (k & r & Hk & Hra & Hrn & Hin).
  pose proof (find_room_unique s k r Hn Hk Hra) as Hfind. rewrite Hrn in Hfind.
  assert (Hevs : evs = broadcast_events (Client.current_room (client_at s i)) message
                         (Client.username (client_at s i)) s (Room.members r) ++
            [Send (Client.socket (client_at s i)) ("[SUCCESS] Message broadcasted." +:+ LF);
             Log ("[BROADCAST] user '" +:+ Client.username (client_at s i) +:+ "': "
                  +:+ message);
             Stdout ("[COMMAND] " +:+ Client.username (client_at s i) +:+ " broadcasted to '"
                     +:+ Client.current_room (client_at s i) +:+ "'" +:+ LF)]).
  { unfold evs. apply new_events_app. rewrite handle_broadcast_trace by done.
    by rewrite Hfind. }
  rewrite Hevs, received_on_app.
  destruct (Hr k r Hk Hra) as (_ & _ & Hnd & Hall).
  assert (Hmact : forall m, m ∈ Room.members r -> Client.active (client_at s m) = true).
  { intros m Hmin. destruct (Hall m Hmin) as (cm & Hcm & Hcma & _).
    by rewrite (client_at_lookup _ _ _ Hcm). }
  assert (Htail : received_on (Client.socket cj)
            [Send (Client.socket (client_at s i)) ("[SUCCESS] Message broadcasted." +:+ LF);
             Log ("[BROADCAST] user '" +:+ Client.username (client_at s i) +:+ "': "
                  +:+ message);
             Stdout ("[COMMAND] " +:+ Client.username (client_at s i) +:+ " broadcasted to '"
                     +:+ Client.current_room (client_at s i) +:+ "'" +:+ LF)] = []).
  { simpl.
    destruct (Z.eqb_spec (Client.socket (client_at s i)) (Client.socket cj)) as [Heq|];
      [|done].
    exfalso. by apply (Hs i j (client_at s i) cj). }
  rewrite Htail, app_nil_r.
  destruct (decide (Client.current_room cj = Client.current_room (client_at s i))) as [E|E].
  - apply (broadcast_received_once s _ _ _ j cj); try done.
    assert (Hcjr' : Client.current_room cj <> EmptyString) by congruence.
    destruct (Hm j cj Hj Hcja Hcjr') as (k' & r' & Hk' & Hra' & Hrn' & Hin').
    assert (k = k') as <- by (apply (Hn k k' r r'); try done; congruence).
    rewrite Hk in Hk'. by injection Hk' as <-.
  - apply (broadcast_not_received s _ _ _ j cj); try done. left. intros Hjin.
    destruct (member_room s k r j cj Hwf Hk Hra Hjin Hj) as (_ & Heq & _).
    apply E. congruence.
Qed.

(** X17. Joining a room subscribes to it and leaving unsubscribes.  In a
    well-formed registry let [j] be a named session in room X and [i]
    another named session, in any room or none.  After [i] has joined X, a
    broadcast of [j] sends [i] the line of the room, once; after [i] has
    left again, a broadcast of [j] sends [i] nothing. *)
Theorem join_subscribes i j X message s :
  wf_registry s ->
  Client.active (client_at s i) = true -> Client.active (client_at s j) = true ->
  i <> j ->
  Client.username (client_at s i) <> EmptyString ->
  Client.username (client_at s j) <> EmptyString ->
  Client.current_room (client_at s j) = X -> validate_room_name X = true ->
  let s1 := handle_join_room i X s in
  let s2 := handle_leave_room i s1 in
  let fd := Client.socket (client_at s i) in
  Client.current_room (client_at s1 i) = X /\
  received_on fd (new_events s1 (handle_broadcast j message s1))
    = [room_line X (Client.username (client_at s j)) message] /\
  received_on fd (new_events s2 (handle_broadcast j message s2)) = [].
Proof.
  intros Hwf Hacti Hactj Hij Hui Huj Hroomj HX s1 s2 fd.
  pose proof (validate_room_name_nonempty X HX) as HXne.
  pose proof (wf_handle_join_room s i X Hwf Hacti) as Hwf1.
  assert (Hj1 : client_at s1 j = client_at s j)
    by (apply handle_join_room_other; congruence).
  pose proof (handle_join_room_keys i X s) as Hkeys.
  destruct (keys_client_at s s1 i Hkeys) as [Hai Hni]. fold s1 in Hai, Hni.
  assert (Hacti1 : Client.active (client_at s1 i) = true) by congruence.
  assert (Hactj1 : Client.active (client_at s1 j) = true) by congruence.
  pose proof (client_at_active_lookup s1 i Hacti1) as Hi1.
  pose proof (client_at_active_lookup s1 j Hactj1) as Hl1.
  assert (Hsock1 : Client.socket (client_at s1 i) = fd).
  { unfold s1, handle_join_room. rewrite HX. simpl.
    destruct (leave_before_join s i Hwf Hacti) as (_ & _ & _ & Hsk & _).
    set (s0 := if strlen (Client.current_room (client_at s i)) >? 0
               then handle_leave_room i s else s) in *.
    clearbody s0. pose proof (find_or_create_room_clients X s0) as Hc.
    destruct (find_or_create_room X s0) as [ok sa]; simpl in Hc.
    assert (Ha : client_at sa i = client_at s0 i) by (unfold client_at; by rewrite Hc).
    destruct ok as [k|].
    - unfold join_locked. destruct (_ >=? MAX_CLIENTS); srv_simpl; [by rewrite Ha|].
      destruct (decide (i < length (clients sa))%nat) as [Hlt|Hge].
      + rewrite client_at_set_client_eq by (by rewrite clients_set_room). simpl.
        by rewrite Ha.
      + unfold client_at, set_client. simpl.
        rewrite list_insert_ge by lia. fold (client_at sa i). by rewrite Ha.
    - srv_simpl. by rewrite Ha. }
  assert (Hin : Client.current_room (client_at s1 i) = X).
  { destruct (handle_join_room_cases i X s Hwf Hacti HX) as [(H & _)|(_ & Hall & _)]; [done|].
    exfalso. fold s1 in Hall.
    destruct Hwf1 as (_ & _ & _ & _ & _ & _ & Hlisted).
    destruct (Hlisted j _ Hl1 Hactj1) as (k & r & Hk & _ & Hname & _).
    { rewrite Hj1. congruence. }
    destruct (Hall k r Hk) as [_ Hne]. apply Hne. rewrite Hname, Hj1. done. }
  split; [done|].
  assert (Hnames : Client.username (client_at s1 i) <> Client.username (client_at s1 j)).
  { destruct Hwf1 as (_ & _ & Huniq & _).
    destruct (Huniq i j _ _ Hi1 Hl1 Hij Hacti1 Hactj1) as [H|[H|H]]; try done.
    - congruence.
    - rewrite Hj1 in H. congruence. }
  split.
  - pose proof (broadcast_delivery j message s1 Hwf1 Hactj1) as Hb.
    rewrite Hj1 in Hb. rewrite Hroomj in Hb.
    specialize (Hb HXne i _ Hi1 Hacti1 Hij).
    rewrite Hj1 in Hnames. specialize (Hb Hnames).
    rewrite Hsock1 in Hb. rewrite Hb.
    destruct (decide (Client.current_room (client_at s1 i) = X)); done.
  - pose proof (wf_handle_leave_room s1 i Hwf1 Hacti1) as Hwf2. fold s2 in Hwf2.
    assert (Hj2 : client_at s2 j = client_at s j).
    { unfold s2. rewrite handle_leave_room_other by done. done. }
    destruct (handle_leave_room_same_fields i s1 i) as (Hs2 & Hu2 & Ha2 & _). fold s2 in Hs2, Hu2, Ha2.
    assert (Hr2 : Client.current_room (client_at s2 i) = EmptyString).
    { apply handle_leave_room_current_room. by apply lookup_lt_Some in Hi1. }
    assert (Hacti2 : Client.active (client_at s2 i) = true) by congruence.
    assert (Hactj2 : Client.active (client_at s2 j) = true) by congruence.
    pose proof (client_at_active_lookup s2 i Hacti2) as Hi2.
    pose proof (broadcast_delivery j message s2 Hwf2 Hactj2) as Hb.
    rewrite Hj2 in Hb. rewrite Hroomj in Hb.
    specialize (Hb HXne i _ Hi2 Hacti2 Hij).
    rewrite Hu2, Hs2, Hsock1 in Hb. rewrite Hj1 in Hnames. specialize (Hb Hnames).
    rewrite Hb. rewrite Hr2.
    destruct (decide (EmptyString = X)) as [E|]; [|done]. by subst X.
Qed.

Lemma join_subscribes_witness :
  wf_registry example_two_users /\
  Client.current_room (client_at (handle_join_room 1 "room1" example_two_users) 1) = "room1" /\
  Client.current_room
    (client_at (handle_join_room 0 "room1" (handle_join_room 1 "room1" example_two_users)) 0)
  = "room1".
Proof.
  split; [exact wf_example_two_users|]. split; [reflexivity|].
  assert (Hwf : wf_registry (handle_join_room 1 "room1" example_two_users)).
  { apply wf_handle_join_room; [exact wf_example_two_users|reflexivity]. }
  exact (proj1 (join_subscribes 0 1 "room1" "hi" _ Hwf eq_refl eq_refl ltac:(done)
                  ltac:(intros H; vm_compute in H; discriminate H)
                  ltac:(intros H; vm_compute in H; discriminate H)
                  eq_refl eq_refl)).
Defined.

(** ** The validators of names *)

Lemma is_alnum_alphabet a : is_alnum a = bool_decide (a ∈ alphabet).
Proof. destruct a as [[] [] [] [] [] [] [] []]; vm_compute; reflexivity. Qed.

Lemma all_alnum_alphabet s :
  all_alnum s = true <-> Forall (fun a => a ∈ alphabet) (String.list_ascii_of_string s).
Proof.
  induction s as [|a s IH]; simpl; [by split; [constructor|]|].
  rewrite is_alnum_alphabet. rewrite Forall_cons, <- IH.
  destruct (bool_decide (a ∈ alphabet)) eqn:E.
  - apply bool_decide_eq_true in E. tauto.
  - apply bool_decide_eq_false in E. split; [done|tauto].
Qed.

(** X18. The two validators of names accept exactly the names of
    between one and 16 (user names) or 32 (room names) characters that are
    all ASCII letters or digits.  A valid name therefore contains no space,
    no line feed and no NUL: it is one word of one line. *)
Theorem validate_names_rule s :
  (validate_username s = true <-> name_rule MAX_USERNAME_LEN s) /\
  (validate_room_name s = true <-> name_rule MAX_ROOM_NAME_LEN s) /\
  (validate_username s = true \/ validate_room_name s = true ->
   no_space s = true /\ one_line s = true /\ s <> EmptyString).
Proof.
  assert (Hrule : forall limit,
            ((if (strlen s =? 0) || (strlen s >? limit) then false else all_alnum s) = true
             <-> name_rule limit s)).
  { intros limit. unfold name_rule. rewrite <- all_alnum_alphabet.
    destruct (Z.eqb_spec (strlen s) 0) as [Hz|Hz]; simpl; [split; [done|lia]|].
    destruct (Z.gtb_spec (strlen s) limit) as [Hl|Hl]; simpl; [split; [done|lia]|].
    unfold strlen in *. split; [intros ->; split; [lia|done]|tauto]. }
  split; [apply Hrule|]. split; [apply Hrule|].
  intros H.
  assert (Hall : all_alnum s = true /\ s <> EmptyString).
  { destruct H as [H|H].
    - destruct (validate_username_alnum s H) as [Ha Hl]. split; [done|].
      apply strlen_pos_nonempty. lia.
    - destruct (validate_room_name_alnum s H) as [Ha Hl]. split; [done|].
      apply strlen_pos_nonempty. lia. }
  destruct Hall as [Hall Hne].
  split; [by apply all_alnum_no_space|]. split; [by apply all_alnum_one_line|done].
Qed.

Lemma validate_names_rule_witness :
  validate_username "alice" = true /\ no_space "alice" = true /\ one_line "alice" = true.
Proof.
  split; [reflexivity|].
  destruct (validate_names_rule "alice") as (_ & _ & H).
  destruct (H (or_introl eq_refl)) as (H1 & H2 & _). split; [exact H1|exact H2].
Defined.

(** ** One session at a time *)

Lemma run_command_others i cmd s j :
  j <> i -> client_at (run_command i cmd s) j = client_at s j.
Proof.
  intros Hne. destruct cmd; simpl; try done.
  - by apply handle_join_room_other.
  - by apply handle_leave_room_other.
  - unfold client_at. by destruct (handle_broadcast_registry i message s) as (-> & _).
  - unfold client_at. by destruct (handle_whisper_frame i target message s) as (-> & _).
Qed.

Lemma client_at_same s s' j : clients s' = clients s -> client_at s' j = client_at s j.
Proof. unfold client_at. by intros ->. Qed.



(** ** Leaving the command loop *)

(** The events of a [cleanup_client] on an active session. *)
Lemma cleanup_client_events i s :
  Client.active (client_at s i) = true ->
  let c := client_at s i in
  trace (cleanup_client i s) =
    trace s ++
    (if strlen (Client.current_room c) >? 0
     then [Send (Client.socket c)
                (snprintf 256 ("[SUCCESS] Left room '" +:+ Client.current_room c +:+ "'" +:+ LF));
           Log ("[LEAVE] user '" +:+ Client.username c +:+ "' left room '"
                +:+ Client.current_room c +:+ "'")]
     else []) ++
    (if strlen (Client.username c) >? 0
     then [Log ("[DISCONNECT] user '" +:+ Client.username c
                +:+ "' lost connection. Cleaned up resources.");
           Stdout ("[DISCONNECT] Client " +:+ Client.username c +:+ " disconnected." +:+ LF)]
     else []) ++
    (if Client.socket c =? -1 then [] else [Close (Client.socket c)]).
Proof.
  intros Hact c. unfold cleanup_client. rewrite Hact. simpl.
  pose proof (cleanup_leave_same_fields i s i) as (Hs1 & Hu1 & _).
  pose proof (cleanup_log_client_at i (cleanup_leave i s) i) as Hat2.
  assert (Ht1 : trace (cleanup_leave i s) = trace s ++
            (if strlen (Client.current_room c) >? 0
             then [Send (Client.socket c)
                        (snprintf 256 ("[SUCCESS] Left room '" +:+ Client.current_room c
                                       +:+ "'" +:+ LF));
                   Log ("[LEAVE] user '" +:+ Client.username c +:+ "' left room '"
                        +:+ Client.current_room c +:+ "'")]
             else [])).
  { unfold cleanup_leave. fold c.
    destruct (Z.gtb_spec (strlen (Client.current_room c)) 0) as [Hz|Hz];
      [|by rewrite app_nil_r].
    unfold handle_leave_room. fold c.
    destruct (Z.eqb_spec (strlen (Client.current_room c)) 0) as [E|_]; [lia|].
    srv_simpl. by rewrite leave_locked_trace. }
  assert (Ht2 : trace (cleanup_log i (cleanup_leave i s)) = trace (cleanup_leave i s) ++
            (if strlen (Client.username c) >? 0
             then [Log ("[DISCONNECT] user '" +:+ Client.username c
                        +:+ "' lost connection. Cleaned up resources.");
                   Stdout ("[DISCONNECT] Client " +:+ Client.username c
                           +:+ " disconnected." +:+ LF)]
             else [])).
  { unfold cleanup_log. rewrite Hu1. fold c.
    destruct (strlen (Client.username c) >? 0); [by srv_simpl|by rewrite app_nil_r]. }
  set (s2 := cleanup_log i (cleanup_leave i s)) in *.
  unfold cleanup_clear_room, cleanup_clear_username, cleanup_deactivate.
  rewrite ?trace_set_client. unfold cleanup_close. rewrite Hat2, Hs1. fold c.
  destruct (Z.eqb_spec (Client.socket c) (-1)) as [E|E]; cbn [negb].
  - by rewrite Ht2, Ht1, !app_nil_r, <- ?app_assoc.
  - rewrite ?trace_set_client, ?trace_emit. simpl. rewrite Ht2, Ht1. by rewrite <- !app_assoc.
Qed.

(** X20. The ways out of the command loop, for an active session.  After
    [/exit] the session is sent "[INFO] Goodbye!"; after a failed [recv] or
    a shutdown it is not.  In each case the teardown follows: a session that
    is in a room is sent "[SUCCESS] Left room '<room>'" (also when the
    connection is already gone), nothing else is sent to it, its descriptor is
    closed once, its slot is no longer active and no other session changes;
    a well-formed registry stays well formed. *)
Theorem quit_session_effect i q s :
  Client.active (client_at s i) = true ->
  let c := client_at s i in
  let s' := quit_session i q s in
  let evs := new_events s s' in
  received_on (Client.socket c) evs =
    (match q with Quit_exit => ["[INFO] Goodbye!" +:+ LF] | _ => [] end) ++
    (if strlen (Client.current_room c) >? 0
     then [snprintf 256 ("[SUCCESS] Left room '" +:+ Client.current_room c +:+ "'" +:+ LF)]
     else []) /\
  closed_fds evs = (if Client.socket c =? -1 then [] else [Client.socket c]) /\
  Client.active (client_at s' i) = false /\
  (forall j, j <> i -> client_at s' j = client_at s j) /\
  (wf_registry s -> wf_registry s').
Proof.
  intros Hact c s' evs.
  assert (Hevs : evs =
    (match q with
     | Quit_exit => [Send (Client.socket c) ("[INFO] Goodbye!" +:+ LF)]
     | _ => []
     end) ++
    (if strlen (Client.current_room c) >? 0
     then [Send (Client.socket c)
                (snprintf 256 ("[SUCCESS] Left room '" +:+ Client.current_room c +:+ "'" +:+ LF));
           Log ("[LEAVE] user '" +:+ Client.username c +:+ "' left room '"
                +:+ Client.current_room c +:+ "'")]
     else []) ++
    (if strlen (Client.username c) >? 0
     then [Log ("[DISCONNECT] user '" +:+ Client.username c
                +:+ "' lost connection. Cleaned up resources.");
           Stdout ("[DISCONNECT] Client " +:+ Client.username c +:+ " disconnected." +:+ LF)]
     else []) ++
    (if Client.socket c =? -1 then [] else [Close (Client.socket c)])).
  { apply new_events_app. unfold s'.
    destruct q; simpl; try (by rewrite cleanup_client_events).
    unfold send_to_client.
    rewrite cleanup_client_events by (by rewrite client_at_emit).
    simpl. rewrite ?client_at_emit, ?trace_emit. fold c. by rewrite <- ?app_assoc. }
  assert (Hoff : Client.active (client_at s' i) = false).
  { unfold s'. pose proof (client_at_active_lookup s i Hact) as Hi.
    assert (H : forall s0, Client.active (client_at s0 i) = true ->
                clients s0 = clients s ->
                Client.active (client_at (cleanup_client i s0) i) = false).
    { intros s0 Ha0 Hc0. destruct (cleanup_client_registry s0 i Ha0) as [_ Hc].
      unfold client_at at 1. rewrite Hc, list_lookup_insert_eq; [done|].
      pose proof (cleanup_leave_keys i s0) as Hk. apply (f_equal length) in Hk.
      rewrite !length_fmap in Hk. rewrite Hk, Hc0. by apply lookup_lt_Some in Hi. }
    destruct q; simpl; apply H; try done; unfold send_to_client; by rewrite ?client_at_emit. }
  split; [|split; [|split; [done|split]]].
  - rewrite Hevs, !received_on_app.
    assert (H1 : received_on (Client.socket c)
              (match q with
               | Quit_exit => [Send (Client.socket c) ("[INFO] Goodbye!" +:+ LF)]
               | _ => []
               end) = match q with Quit_exit => ["[INFO] Goodbye!" +:+ LF] | _ => [] end).
    { destruct q; try done. apply received_on_send_eq. }
    rewrite H1. f_equal.
    destruct (strlen (Client.current_room c) >? 0); simpl.
    + rewrite Z.eqb_refl. simpl.
      destruct (strlen (Client.username c) >? 0); destruct (Client.socket c =? -1); done.
    + destruct (strlen (Client.username c) >? 0); destruct (Client.socket c =? -1); done.
  - rewrite Hevs, !closed_fds_app.
    destruct q; destruct (strlen (Client.current_room c) >? 0);
      destruct (strlen (Client.username c) >? 0); destruct (Client.socket c =? -1); done.
  - intros j Hne. by apply quit_session_others.
  - by apply wf_quit_session.
Qed.

Lemma quit_session_effect_witness :
  Client.active (client_at example_room 0) = true /\
  received_on 4 (new_events example_room (quit_session 0 Quit_exit example_room))
  = ["[INFO] Goodbye!" +:+ LF; "[SUCCESS] Left room 'room1'" +:+ LF] /\
  closed_fds (new_events example_room (quit_session 0 Quit_exit example_room)) = [4].
Proof.
  split; [reflexivity|].
  destruct (quit_session_effect 0 Quit_exit example_room eq_refl) as (H1 & H2 & _).
  split; [exact H1|exact H2].
Defined.

(** ** A session keeps its identity *)

Lemma handle_join_room_socket i X s :
  Client.socket (client_at (handle_join_room i X s) i) = Client.socket (client_at s i).
Proof.
  unfold handle_join_room. destruct (validate_room_name X); simpl; [|done].
  set (s0 := if strlen (Client.current_room (client_at s i)) >? 0
             then handle_leave_room i s else s).
  assert (Hsk : Client.socket (client_at s0 i) = Client.socket (client_at s i)).
  { unfold s0. destruct (_ >? 0); [|done].
    by destruct (handle_leave_room_same_fields i s i) as (-> & _). }
  clearbody s0. rewrite <- Hsk.
  pose proof (find_or_create_room_clients X s0) as Hc.
  destruct (find_or_create_room X s0) as [ok sa]; simpl in Hc.
  assert (Ha : client_at sa i = client_at s0 i) by (unfold client_at; by rewrite Hc).
  destruct ok as [k|]; [|srv_simpl; by rewrite Ha].
  unfold join_locked. destruct (_ >=? MAX_CLIENTS); srv_simpl; [by rewrite Ha|].
  destruct (decide (i < length (clients sa))%nat) as [Hlt|Hge].
  - rewrite client_at_set_client_eq by (by rewrite clients_set_room). simpl. by rewrite Ha.
  - unfold client_at, set_client. simpl.
    rewrite list_insert_ge by lia. fold (client_at sa i). by rewrite Ha.
Qed.

Lemma run_command_identity i cmd s j :
  Client.username (client_at (run_command i cmd s) j) = Client.username (client_at s j) /\
  Client.socket (client_at (run_command i cmd s) j) = Client.socket (client_at s j).
Proof.
  destruct (keys_client_at s _ j (run_command_keys i cmd s)) as [_ Hu]. split; [done|].
  destruct (decide (j = i)) as [->|Hne]; [|by rewrite run_command_others].
  destruct cmd; simpl; try done.
  - apply handle_join_room_socket.
  - by destruct (handle_leave_room_same_fields i s i) as (-> & _).
  - unfold client_at. by destruct (handle_broadcast_registry i message s) as (-> & _).
  - unfold client_at. by destruct (handle_whisper_frame i target message s) as (-> & _).
Qed.


